(** * lazyrepo: task graph, scheduler and output capture

    A shallow embedding of [src/tasks/TaskGraph.js] (graph construction,
    readiness, the [tick] controller of [runAllTasks]) and of the output
    capture routine [cacheOutputs], followed by the properties the
    specification states about them.

    JavaScript strings are modelled by [string]; objects used as
    dictionaries by [gmap string _]; arrays by [list]; exceptions by the
    [Err] branch of [Result]. *)

From Stdlib Require Import ZArith Lia Ascii String List Sorting.Sorted Sorting.Permutation.
From Stdlib Require Import Numbers.DecimalString.
From stdpp Require Import base option list gmap strings sorting.

Open Scope string_scope.
Open Scope list_scope.

(** ** Exceptions and results *)

Inductive Exn : Type :=
  | LazyError (headline : string)   (* thrown by [logger.fail] *)
  | TypeError (what : string)       (* a lookup that found nothing *)
  | IOError (what : string)         (* a failing file-system call *)
  | OutOfFuel.                      (* the recursion bound of the model was hit *)

Inductive Result (A : Type) : Type :=
  | Ok (a : A)
  | Err (e : Exn).
Arguments Ok {A} a.
Arguments Err {A} e.

Definition bind {A B : Type} (r : Result A) (f : A -> Result B) : Result B :=
  match r with
  | Ok a => f a
  | Err e => Err e
  end.

Notation "'let!' x ':=' r 'in' k" := (bind r (fun x => k))
  (at level 10, x name, r at level 100, k at level 200).

(** [for (const x of l) { s = f x s }], stopping at the first exception. *)
Fixpoint forEach {X S : Type} (f : X -> S -> Result S) (l : list X) (s : S) : Result S :=
  match l with
  | [] => Ok s
  | x :: rest => let! s' := f x s in forEach f rest s'
  end.

(** [l.map(f)] where [f] may throw. *)
Fixpoint mapR {X Y : Type} (f : X -> Result Y) (l : list X) : Result (list Y) :=
  match l with
  | [] => Ok []
  | x :: rest => let! y := f x in let! ys := mapR f rest in Ok (y :: ys)
  end.

(** [l.filter(f)] where [f] may throw. *)
Fixpoint filterR {X : Type} (f : X -> Result bool) (l : list X) : Result (list X) :=
  match l with
  | [] => Ok []
  | x :: rest =>
      let! b := f x in let! ys := filterR f rest in Ok (if b : bool then x :: ys else ys)
  end.

(** [l.every(f)]: stops at the first element on which [f] is false. *)
Fixpoint everyR {X : Type} (f : X -> Result bool) (l : list X) : Result bool :=
  match l with
  | [] => Ok true
  | x :: rest => let! b := f x in if b : bool then everyR f rest else Ok false
  end.

Definition fromOption {A : Type} (what : string) (o : option A) : Result A :=
  match o with
  | Some a => Ok a
  | None => Err (TypeError what)
  end.

(** ** JavaScript helpers *)

Definition nl : string := String (ascii_of_nat 10) "".
Definition tab : string := String (ascii_of_nat 9) "".

(** Truthiness of a value that is a string or [undefined]. *)
Definition truthy (v : option string) : bool :=
  match v with
  | Some (String _ _) => true
  | _ => false
  end.

(** [s.startsWith(p)] *)
Definition startsWith (s p : string) : bool := String.prefix p s.

(** [arr.includes(x)] *)
Definition includes (arr : list string) (x : string) : bool :=
  bool_decide (x ∈ arr).

(** Modelled from the spec: ../utils/uniq.js is not among the sources; the
    matches of the filter patterns are united, every directory kept once,
    at its first position. *)
Fixpoint uniq (l : list string) : list string :=
  match l with
  | [] => []
  | x :: rest => x :: filter (fun y => y ≠ x) (uniq rest)
  end.

(** ** Data model *)

Module Workspace.
Record t : Type := mk {
  dir : string;
  name : string;
  scripts : gmap string string;
  localDependencyWorkspaceNames : list string
}.
End Workspace.

Module RequestedTask.
Record t : Type := mk {
  scriptName : string;
  extraArgs : list string;
  force : bool;
  filterPaths : list string
}.
End RequestedTask.

Inductive RunsAfterIn : Type := InAll | InSelfAndDependencies | InSelfOnly.

Record RunsAfter : Type := {
  in_ : RunsAfterIn;
  usesOutput : bool
}.

Inductive Execution : Type := Independent | Dependent | TopLevel.

Module TaskConfig.
Record t : Type := mk {
  runsAfterEntries : list (string * RunsAfter);
  execution : Execution;
  parallel : bool;
  getOutputPath : string;
  getOutputManifestPath : string
}.
End TaskConfig.

Inductive Status : Type :=
  | Pending | Running | SuccessEager | SuccessLazy | Failure.

Global Instance Status_eq_dec : EqDecision Status.
Proof. solve_decision. Defined.

(** [status.startsWith('success')] *)
Definition isSuccess (s : Status) : bool :=
  match s with
  | SuccessEager | SuccessLazy => true
  | _ => false
  end.

Module ScheduledTask.
Record t : Type := mk {
  key : string;
  taskConfig : TaskConfig.t;
  scriptName : string;
  extraArgs : list string;
  force : bool;
  status : Status;
  outputFiles : list string;
  dependencies : list string;
  inputManifestCacheKey : option string;
  workspace : Workspace.t
}.

(** [task.dependencies.push(dep)] *)
Definition pushDependency (dep : string) (task : t) : t :=
  mk (key task) (taskConfig task) (scriptName task) (extraArgs task) (force task)
     (status task) (outputFiles task) (dependencies task ++ [dep])
     (inputManifestCacheKey task) (workspace task).

(** [task.status = s] *)
Definition setStatus (s : Status) (task : t) : t :=
  mk (key task) (taskConfig task) (scriptName task) (extraArgs task) (force task)
     s (outputFiles task) (dependencies task)
     (inputManifestCacheKey task) (workspace task).

(** [task.outputFiles = files] *)
Definition setOutputFiles (files : list string) (task : t) : t :=
  mk (key task) (taskConfig task) (scriptName task) (extraArgs task) (force task)
     (status task) files (dependencies task)
     (inputManifestCacheKey task) (workspace task).
End ScheduledTask.

(** The project and the configuration are external collaborators: their
    methods are fields of the records below.  A lookup that finds nothing
    is [None]; the caller then raises. *)
Record Project : Type := {
  root : Workspace.t;
  workspacesByDir : list (string * Workspace.t);
  getWorkspaceByDir : string -> option Workspace.t;
  getWorkspaceByName : string -> option Workspace.t
}.

Record Config : Type := {
  project : Project;
  isVerbose : bool;
  getTaskConfig : Workspace.t -> string -> TaskConfig.t;
  getTaskKey : string -> string -> string;
  isTopLevelScript : string -> bool
}.

(** Functions of the [path], [micromatch] and [picocolors] packages. *)
Record Platform : Type := {
  isAbsolute : string -> bool;
  join : string -> string -> string;
  dirname : string -> string;
  micromatch_match : list string -> string -> list string;
  pc_bold : string -> string
}.

(** The node map is keyed by task keys, which have the form
    [script::dir] and so never name an inherited property of the
    JavaScript object. *)
Record TaskGraph : Type := {
  allTasks : gmap string ScheduledTask.t;
  sortedTaskKeys : list string
}.

Definition emptyGraph : TaskGraph :=
  {| allTasks := ∅; sortedTaskKeys := [] |}.

(** ** Graph construction (the [TaskGraph] constructor) *)

Section Construction.

Variable platform : Platform.
Variable config : Config.

(** The headline passed to [logger.fail] when a key is met again on the
    visitation path. *)
Definition circularDependencyMessage (path : list string) (key : string) : string :=
  "Circular dependency detected: " ++ nl ++ String.concat (nl ++ " -> ") path
    ++ nl ++ " -> " ++ pc_bold platform key.

(** Modelled from the spec: ../logger/logger.js is not among the sources;
    [logger.fail] reports a fatal error and does not return. *)
Definition logger_fail {A : Type} (headline : string) : Result A :=
  Err (LazyError headline).

(** [filterPackageDirs(workspaceRoot, project, filterPaths)] *)
Definition filterPackageDirs (workspaceRoot : string) (project : Project)
    (filterPaths : list string) : list string :=
  let allWorkspaceDirs := map fst (workspacesByDir project) in
  match filterPaths with
  | [] => allWorkspaceDirs
  | _ =>
      uniq
        (flat_map
           (fun pattern =>
              micromatch_match platform allWorkspaceDirs
                (if isAbsolute platform pattern then pattern
                 else join platform workspaceRoot pattern))
           filterPaths)
  end.

(** [dependencies?.push(key)], where [dependencies] is the array owned by
    the node [owner] of the map (or [undefined]). *)
Definition pushDependencyOf (owner : option string) (key : string)
    (this : TaskGraph) : TaskGraph :=
  match owner with
  | None => this
  | Some o =>
      {| allTasks := alter (ScheduledTask.pushDependency key) o (allTasks this);
         sortedTaskKeys := sortedTaskKeys this |}
  end.

(** The node created by [visit]. *)
Definition newTask (key : string) (taskConfig : TaskConfig.t)
    (requestedTask : RequestedTask.t) (workspace : Workspace.t) : ScheduledTask.t :=
  {| ScheduledTask.key := key;
     ScheduledTask.taskConfig := taskConfig;
     ScheduledTask.scriptName := RequestedTask.scriptName requestedTask;
     ScheduledTask.extraArgs := RequestedTask.extraArgs requestedTask;
     ScheduledTask.force := RequestedTask.force requestedTask;
     ScheduledTask.status := Pending;
     ScheduledTask.outputFiles := [];
     ScheduledTask.dependencies := [];
     ScheduledTask.inputManifestCacheKey := None;
     ScheduledTask.workspace := workspace |}.

(** The filter paths [visit] gives to the upstream script of one
    [runsAfter] entry. *)
Definition upstreamFilterPaths (workspace : Workspace.t)
    (upstreamScriptConfig : RunsAfter) : Result (list string) :=
  match in_ upstreamScriptConfig with
  | InSelfAndDependencies =>
      let! dirs :=
        mapR (fun dep =>
                let! w := fromOption dep (getWorkspaceByName (project config) dep) in
                Ok (Workspace.dir w))
             (Workspace.localDependencyWorkspaceNames workspace) in
      Ok (Workspace.dir workspace :: dirs)
  | InSelfOnly => Ok [Workspace.dir workspace]
  | InAll => Ok []
  end.

(** [enqueueTask(path, requestedTask, dependencies)], with the recursive
    call to [visit] taken as an argument. *)
Definition enqueueTask_with
    (visit : list string -> RequestedTask.t -> Workspace.t -> TaskGraph -> Result TaskGraph)
    (path : list string) (requestedTask : RequestedTask.t)
    (dependencies : option string) (this : TaskGraph) : Result TaskGraph :=
  if isTopLevelScript config (RequestedTask.scriptName requestedTask) then
    let key := getTaskKey config (Workspace.dir (root (project config)))
                 (RequestedTask.scriptName requestedTask) in
    let this := pushDependencyOf dependencies key this in
    visit path requestedTask (root (project config)) this
  else
    let dirs := filterPackageDirs (Workspace.dir (root (project config)))
                  (project config) (RequestedTask.filterPaths requestedTask) in
    forEach
      (fun dir this =>
         let! workspace := fromOption dir (getWorkspaceByDir (project config) dir) in
         if truthy (Workspace.scripts workspace !! RequestedTask.scriptName requestedTask)
         then
           let key := getTaskKey config dir (RequestedTask.scriptName requestedTask) in
           let this := pushDependencyOf dependencies key this in
           visit path requestedTask workspace this
         else Ok this)
      dirs this.

(** [visit(path, { requestedTask, workspace })].  The recursion of the
    source is bounded by [fuel], the depth of nested visits allowed. *)
Fixpoint visit (fuel : nat) (path : list string) (requestedTask : RequestedTask.t)
    (workspace : Workspace.t) (this : TaskGraph) {struct fuel} : Result TaskGraph :=
  match fuel with
  | O => Err OutOfFuel
  | S fuel' =>
      let taskConfig :=
        getTaskConfig config workspace (RequestedTask.scriptName requestedTask) in
      let key :=
        getTaskKey config (Workspace.dir workspace)
          (RequestedTask.scriptName requestedTask) in
      match allTasks this !! key with
      | Some _ =>
          if includes path key
          then logger_fail (circularDependencyMessage path key)
          else Ok this
      | None =>
          let path := path ++ [key] in
          let this :=
            {| allTasks :=
                 <[key := newTask key taskConfig requestedTask workspace]> (allTasks this);
               sortedTaskKeys := sortedTaskKeys this |} in
          let! this :=
            forEach
              (fun (entry : string * RunsAfter) this =>
                 let upstreamScriptName := fst entry in
                 let upstreamScriptConfig := snd entry in
                 let! filterPaths := upstreamFilterPaths workspace upstreamScriptConfig in
                 enqueueTask_with (visit fuel') path
                   {| RequestedTask.scriptName := upstreamScriptName;
                      RequestedTask.extraArgs := [];
                      RequestedTask.force := RequestedTask.force requestedTask;
                      RequestedTask.filterPaths := filterPaths |}
                   (Some key) this)
              (TaskConfig.runsAfterEntries taskConfig) this in
          let! this :=
            match TaskConfig.execution taskConfig with
            | Dependent =>
                forEach
                  (fun workspaceName this =>
                     let! dependency :=
                       fromOption workspaceName
                         (getWorkspaceByName (project config) workspaceName) in
                     if truthy (Workspace.scripts dependency
                                  !! RequestedTask.scriptName requestedTask)
                     then
                       let depKey :=
                         getTaskKey config (Workspace.dir dependency)
                           (RequestedTask.scriptName requestedTask) in
                       let this := pushDependencyOf (Some key) depKey this in
                       visit fuel' path requestedTask dependency this
                     else Ok this)
                  (Workspace.localDependencyWorkspaceNames workspace) this
            | _ => Ok this
            end in
          Ok {| allTasks := allTasks this;
                sortedTaskKeys := sortedTaskKeys this ++ [key] |}
      end
  end.

Definition enqueueTask (fuel : nat) := enqueueTask_with (visit fuel).

(** The target workspaces of a requested task in the words of the
    specification (section 4.1): the root workspace for a top-level
    script; otherwise the workspaces of the candidate directories that
    declare the script.  To be compared with [enqueueTask_with]. *)
Definition spec_targetWorkspaces (requestedTask : RequestedTask.t) : list Workspace.t :=
  if isTopLevelScript config (RequestedTask.scriptName requestedTask) then
    [root (project config)]
  else
    List.filter
      (fun w => truthy (Workspace.scripts w !! RequestedTask.scriptName requestedTask))
      (omap (getWorkspaceByDir (project config))
         (filterPackageDirs (Workspace.dir (root (project config))) (project config)
            (RequestedTask.filterPaths requestedTask))).

(** The directories a filter pattern selects: the matches of the pattern
    itself when it is absolute, of the pattern joined to the project root
    otherwise. *)
Definition spec_patternMatches (pattern : string) : list string :=
  micromatch_match platform (map fst (workspacesByDir (project config)))
    (if isAbsolute platform pattern then pattern
     else join platform (Workspace.dir (root (project config))) pattern).

(** [new TaskGraph({ config, requestedTasks })] *)
Definition TaskGraph_new (fuel : nat) (requestedTasks : list RequestedTask.t)
    : Result TaskGraph :=
  forEach (fun requestedTask this => enqueueTask fuel [] requestedTask None this)
    requestedTasks emptyGraph.

End Construction.

(** ** The scheduler ([runAllTasks]) *)

(** What the module reads from its environment when it is loaded:
    [process.env.__test__FORCE_PARALLEL], [isTest] and [cpus().length]. *)
Record Env : Type := {
  FORCE_PARALLEL : option string;
  isTest : bool;
  numCpus : Z
}.

Definition maxConcurrentTasks (env : Env) : Z :=
  if truthy (FORCE_PARALLEL env) then 2
  else if isTest env then 1
  else Z.max 1 (numCpus env - 1).

(** [this.allTasks[key]], raising when the key has no node. *)
Definition getTask (this : TaskGraph) (key : string) : Result ScheduledTask.t :=
  fromOption key (allTasks this !! key).

(** [isTaskReady(key)] *)
Definition isTaskReady (this : TaskGraph) (key : string) : Result bool :=
  let! task := getTask this key in
  if bool_decide (ScheduledTask.status task = Pending) then
    everyR (fun dep =>
              let! d := getTask this dep in
              Ok (isSuccess (ScheduledTask.status d)))
           (ScheduledTask.dependencies task)
  else Ok false.

(** The second filter of [allReadyTaskKeys], which threads the set
    [unparallelizableScripts] through the keys. *)
Fixpoint filterUnparallelizable (this : TaskGraph) (keys : list string)
    (unparallelizableScripts : gset string) : Result (list string) :=
  match keys with
  | [] => Ok []
  | key :: rest =>
      let! task := getTask this key in
      let scriptName := ScheduledTask.scriptName task in
      if TaskConfig.parallel (ScheduledTask.taskConfig task) then
        let! kept := filterUnparallelizable this rest unparallelizableScripts in
        Ok (key :: kept)
      else if bool_decide (scriptName ∈ unparallelizableScripts) then
        filterUnparallelizable this rest unparallelizableScripts
      else
        let! kept :=
          filterUnparallelizable this rest ({[scriptName]} ∪ unparallelizableScripts) in
        Ok (key :: kept)
  end.

(** [arr.sort()] on an array of strings: ascending order of code units
    (the characters of [string], here). *)
Definition js_sort (arr : list string) : list string :=
  merge_sort String.le arr.

(** [allReadyTaskKeys()] *)
Definition allReadyTaskKeys (this : TaskGraph) : Result (list string) :=
  let! allReadyTaskKeys := filterR (isTaskReady this) (sortedTaskKeys this) in
  let! kept := filterUnparallelizable this allReadyTaskKeys ∅ in
  Ok (js_sort kept).

(** [allRunningTaskKeys()] *)
Definition allRunningTaskKeys (this : TaskGraph) : Result (list string) :=
  filterR (fun key =>
             let! task := getTask this key in
             Ok (bool_decide (ScheduledTask.status task = Running)))
          (sortedTaskKeys this).

(** [allFailedTaskKeys()] *)
Definition allFailedTaskKeys (this : TaskGraph) : Result (list string) :=
  filterR (fun key =>
             let! task := getTask this key in
             Ok (bool_decide (ScheduledTask.status task = Failure)))
          (sortedTaskKeys this).

(** [this.allTasks[taskKey].status = s] *)
Definition setTaskStatus (taskKey : string) (s : Status) (this : TaskGraph) : TaskGraph :=
  {| allTasks := alter (ScheduledTask.setStatus s) taskKey (allTasks this);
     sortedTaskKeys := sortedTaskKeys this |}.

(** The three ways [tick] ends: it resolves the promise, it returns to wait
    for running tasks, or it starts the listed tasks. *)
Inductive TickDecision : Type :=
  | Resolve
  | Wait
  | Start (taskKeys : list string).

(** [tick], up to the loop that starts tasks: the decision taken from the
    snapshot of the running and ready keys. *)
Definition tickDecision (maxConcurrentTasks : Z) (this : TaskGraph) : Result TickDecision :=
  let! runningTasks := allRunningTaskKeys this in
  let! readyTasks := allReadyTaskKeys this in
  if (length runningTasks =? 0)%nat && (length readyTasks =? 0)%nat then Ok Resolve
  else if (maxConcurrentTasks <=? Z.of_nat (length runningTasks))%Z then Ok Wait
  else if (length readyTasks =? 0)%nat then Ok Wait
  else
    let numTasksToStart :=
      Z.min (maxConcurrentTasks - Z.of_nat (length runningTasks))%Z
            (Z.of_nat (length readyTasks)) in
    Ok (Start (take (Z.to_nat numTasksToStart) readyTasks)).

(** The loop of [tick]: [readyTasks[i]] is set to running for
    [i < numTasksToStart], in that order. *)
Definition startTasks (taskKeys : list string) (this : TaskGraph) : TaskGraph :=
  foldl (fun this taskKey => setTaskStatus taskKey Running this) this taskKeys.

(** One whole invocation of [tick]. *)
Definition tick (maxConcurrentTasks : Z) (this : TaskGraph)
    : Result (TaskGraph * TickDecision) :=
  let! decision := tickDecision maxConcurrentTasks this in
  match decision with
  | Start taskKeys => Ok (startTasks taskKeys this, decision)
  | _ => Ok (this, decision)
  end.

(** The status [runTask] stores when [runTaskIfNeeded] has returned. *)
Definition finalStatus (didRunTask didSucceed : bool) : Status :=
  if didSucceed then (if didRunTask then SuccessEager else SuccessLazy) else Failure.

(** The state of one call of [runAllTasks]: the graph; the keys the loop of
    a [tick] in progress has still to start; the activations of [runTask]
    that await [runTaskIfNeeded]; whether the promise was resolved. *)
Record Controller : Type := {
  graph : TaskGraph;
  starting : list string;
  workers : list string;
  resolved : bool
}.

(** A call of [tick]: the decision is taken at once, the tasks are then
    started one by one ([step_start] below).  When a lookup raises, the
    call ends and the graph is as it was. *)
Definition invokeTick (maxConcurrentTasks : Z) (this : TaskGraph)
    (workers : list string) (resolved : bool) : Controller :=
  match tickDecision maxConcurrentTasks this with
  | Ok Resolve => {| graph := this; starting := []; workers := workers; resolved := true |}
  | Ok Wait => {| graph := this; starting := []; workers := workers; resolved := resolved |}
  | Ok (Start taskKeys) =>
      {| graph := this; starting := taskKeys; workers := workers; resolved := resolved |}
  | Err _ => {| graph := this; starting := []; workers := workers; resolved := resolved |}
  end.

(** [runAllTasks()] up to its first [tick()]. *)
Definition runAllTasks (maxConcurrentTasks : Z) (this : TaskGraph) : Controller :=
  invokeTick maxConcurrentTasks this [] false.

(** The moves of the controller.  [step_start] is one iteration of the loop
    of [tick]; [step_finish] is the continuation of one [runTask] after its
    [await]: it stores the final status and calls [tick].  The event loop
    runs a continuation only when no [tick] is in progress. *)
Inductive step (maxConcurrentTasks : Z) : Controller -> Controller -> Prop :=
  | step_start c taskKey rest :
      starting c = taskKey :: rest ->
      step maxConcurrentTasks c
        {| graph := setTaskStatus taskKey Running (graph c);
           starting := rest;
           workers := workers c ++ [taskKey];
           resolved := resolved c |}
  | step_finish c before taskKey after didRunTask didSucceed :
      starting c = [] ->
      workers c = before ++ taskKey :: after ->
      step maxConcurrentTasks c
        (invokeTick maxConcurrentTasks
           (setTaskStatus taskKey (finalStatus didRunTask didSucceed) (graph c))
           (before ++ after) (resolved c)).

(** The states an execution of [runAllTasks] on [this] goes through. *)
Inductive reachable (maxConcurrentTasks : Z) (this : TaskGraph) : Controller -> Prop :=
  | reachable_start :
      reachable maxConcurrentTasks this (runAllTasks maxConcurrentTasks this)
  | reachable_step c c' :
      reachable maxConcurrentTasks this c ->
      step maxConcurrentTasks c c' ->
      reachable maxConcurrentTasks this c'.

(** The status of a node, when the key has one. *)
Definition statusOf (this : TaskGraph) (key : string) : option Status :=
  ScheduledTask.status <$> allTasks this !! key.

(** The number of nodes whose status is running. *)
Definition runningCount (this : TaskGraph) : nat :=
  size (filter (fun kv => ScheduledTask.status (snd kv) = Running) (allTasks this)).

(** The dependencies of a node ([[]] when the key has no node). *)
Definition depsOf (this : TaskGraph) (key : string) : list string :=
  match allTasks this !! key with
  | Some task => ScheduledTask.dependencies task
  | None => []
  end.

(** The node of [key] has a status that starts with [success]. *)
Definition isSuccessOf (this : TaskGraph) (key : string) : Prop :=
  exists s, statusOf this key = Some s /\ isSuccess s = true.

(** [key] names a node of script [scriptName] whose config has
    [parallel] false. *)
Definition isUnparallelizable (this : TaskGraph) (scriptName key : string) : bool :=
  match allTasks this !! key with
  | Some task =>
      negb (TaskConfig.parallel (ScheduledTask.taskConfig task))
      && String.eqb (ScheduledTask.scriptName task) scriptName
  | None => false
  end.

(** The ready keys in the order of [sortedTaskKeys], one non-parallel task
    per script name: [allReadyTaskKeys] before its [sort()]. *)
Definition readyInConstructionOrder (this : TaskGraph) : Result (list string) :=
  let! allReadyTaskKeys := filterR (isTaskReady this) (sortedTaskKeys this) in
  filterUnparallelizable this allReadyTaskKeys ∅.

(** The ordering the specification gives for task starts (section 5):
    the tasks a [tick] starts are the first ready keys of the sorted key
    list, in construction order.  To be compared with [tickDecision]. *)
Definition spec_startsInConstructionOrder (maxConcurrentTasks : Z) (this : TaskGraph)
    : Prop :=
  forall taskKeys ready,
    tickDecision maxConcurrentTasks this = Ok (Start taskKeys) ->
    readyInConstructionOrder this = Ok ready ->
    taskKeys = take (length taskKeys) ready.

(** The node map and the sorted key list hold the same keys, each once. *)
Definition sameKeySet (this : TaskGraph) : Prop :=
  NoDup (sortedTaskKeys this) /\
  forall key, is_Some (allTasks this !! key) <-> key ∈ sortedTaskKeys this.

(** Every dependency key of a node has a node. *)
Definition noDanglingEdges (this : TaskGraph) : Prop :=
  forall key task dep,
    allTasks this !! key = Some task -> dep ∈ ScheduledTask.dependencies task ->
    is_Some (allTasks this !! dep).

(** Each node's dependency keys occur strictly before the node's own key
    in the sorted key list. *)
Definition dependenciesFirst (this : TaskGraph) : Prop :=
  forall i key task dep,
    sortedTaskKeys this !! i = Some key ->
    allTasks this !! key = Some task -> dep ∈ ScheduledTask.dependencies task ->
    exists j, j < i /\ sortedTaskKeys this !! j = Some dep.

(** A graph as the constructor leaves it, before [runAllTasks]. *)
Definition freshGraph (this : TaskGraph) : Prop :=
  NoDup (sortedTaskKeys this) /\
  forall key task, allTasks this !! key = Some task -> ScheduledTask.status task = Pending.

(** ** Output capture ([cacheOutputs]) *)

(** The calls [cacheOutputs] makes on the file system, in the order of the
    source.  The manifest stream of [createLazyWriteStream] appears through
    its [write] and [close]. *)
Inductive FsCall : Type :=
  | Rimraf (path : string)
  | MkdirSync (path : string)
  | StatSync (path : string)
  | CopyFileWithMtime (src dest : string) (mtime : Z)
  | ManifestWrite (path data : string)
  | ManifestClose (path : string).

(** The file system seen from [cacheOutputs]: which calls raise, and the
    modification time (in milliseconds) [statSync] reports. *)
Record FileSystem : Type := {
  raises : FsCall -> bool;
  mtimeOf : string -> Z
}.

(** What a run of [cacheOutputs] changes: the calls made so far, and the
    task whose [outputFiles] it assigns. *)
Record Capture : Type := {
  calls : list FsCall;
  task : ScheduledTask.t
}.

(** Computations that change a [Capture] and may raise; the changes made
    before an exception stay. *)
Definition IO (A : Type) : Type := Capture -> Capture * Result A.

Definition pureIO {A : Type} (a : A) : IO A := fun s => (s, Ok a).

Definition throwIO {A : Type} (e : Exn) : IO A := fun s => (s, Err e).

Definition bindIO {A B : Type} (m : IO A) (k : A -> IO B) : IO B :=
  fun s =>
    match m s with
    | (s', Ok a) => k a s'
    | (s', Err e) => (s', Err e)
    end.

Notation "'do!' x ':=' m 'in' k" := (bindIO m (fun x => k))
  (at level 10, x name, m at level 100, k at level 200).
Notation "m ';;;' k" := (bindIO m (fun _ => k))
  (at level 100, k at level 200, right associativity).

(** One call on the file system: it is recorded, then raises or returns. *)
Definition perform (fs : FileSystem) (c : FsCall) : IO unit :=
  fun s =>
    let s' := {| calls := calls s ++ [c]; task := task s |} in
    if raises fs c then (s', Err (IOError "file system")) else (s', Ok tt).

(** [statSync(path).mtime] *)
Definition statSync (fs : FileSystem) (path : string) : IO Z :=
  perform fs (StatSync path) ;;; pureIO (mtimeOf fs path).

(** [task.outputFiles = files] *)
Definition assignOutputFiles (files : list string) : IO unit :=
  fun s =>
    ({| calls := calls s; task := ScheduledTask.setOutputFiles files (task s) |}, Ok tt).

Fixpoint forEachIO {X : Type} (body : X -> IO unit) (l : list X) : IO unit :=
  match l with
  | [] => pureIO tt
  | x :: rest => body x ;;; forEachIO body rest
  end.

(** [String(Math.round(stat.mtime.getTime()))] *)
Definition timestampString (mtime : Z) : string :=
  NilZero.string_of_int (Z.to_int mtime).

Section CacheOutputs.

Variable platform : Platform.
Variable config : Config.
Variable fs : FileSystem.

(** The body of the loop over the output files. *)
Definition cacheOutputFile (rootWorkspaceDir outDir outManifestPath : string)
    (file : string) : IO unit :=
  if startsWith file ".." then
    throwIO (LazyError ("output file is outside of workspace: " ++ file))
  else
    let absoluteFile := join platform rootWorkspaceDir file in
    let dest := join platform outDir file in
    perform fs (MkdirSync (dirname platform dest)) ;;;
    do! mtime := statSync fs absoluteFile in
    perform fs (CopyFileWithMtime absoluteFile dest mtime) ;;;
    let timestamp := timestampString mtime in
    perform fs (ManifestWrite outManifestPath (file ++ tab ++ timestamp ++ nl)).

(** [cacheOutputs(tasks, task)]; [outputFiles] is what
    [getOutputFiles(tasks, task)] returned ([None] for a missing list).
    The closing log line is not modelled. *)
Definition cacheOutputs (outputFiles : option (list string)) : IO unit :=
  fun s =>
    let taskConfig :=
      getTaskConfig config (ScheduledTask.workspace (task s))
        (ScheduledTask.scriptName (task s)) in
    let outDir := TaskConfig.getOutputPath taskConfig in
    let outManifestPath := TaskConfig.getOutputManifestPath taskConfig in
    (perform fs (Rimraf outDir) ;;;
     perform fs (Rimraf outManifestPath) ;;;
     match outputFiles with
     | None | Some [] => assignOutputFiles []
     | Some files =>
         assignOutputFiles files ;;;
         perform fs (MkdirSync outDir) ;;;
         let rootWorkspaceDir := Workspace.dir (root (project config)) in
         forEachIO (cacheOutputFile rootWorkspaceDir outDir outManifestPath) files ;;;
         perform fs (ManifestClose outManifestPath)
     end) s.

End CacheOutputs.

Definition isCopy (c : FsCall) : bool :=
  match c with CopyFileWithMtime _ _ _ => true | _ => false end.

(** The copies [cacheOutputs] made, read off its calls. *)
Definition copyCalls (cs : list FsCall) : list FsCall := List.filter isCopy cs.

Definition isRimraf (c : FsCall) : bool :=
  match c with Rimraf _ => true | _ => false end.

(** ** Invariants

    The predicates the proofs below carry through the construction, the
    controller and the capture. *)

Definition isErr {A : Type} (r : Result A) : Prop := exists e, r = Err e.

(** A result that is not an artefact of the recursion bound. *)
Definition settled {A : Type} (r : Result A) : Prop := r <> Err OutOfFuel.

(** The contract of the project's lookup by directory: the workspace found
    for a directory is the one located there. *)
Definition lookupByDirSound (config : Config) : Prop :=
  forall d w, getWorkspaceByDir (project config) d = Some w -> Workspace.dir w = d.

(** The state of the construction while the keys of [path] are being
    visited: the nodes are the sorted keys and the keys of the path; the
    nodes of sorted keys have their dependencies before them. *)
Record Inv (path : list string) (g : TaskGraph) : Prop := {
  inv_nodup : NoDup (sortedTaskKeys g);
  inv_dom : forall k, is_Some (allTasks g !! k) <-> k ∈ sortedTaskKeys g \/ k ∈ path;
  inv_path : forall k, k ∈ path -> k ∉ sortedTaskKeys g;
  inv_topo : forall i k d,
    sortedTaskKeys g !! i = Some k -> d ∈ depsOf g k ->
    exists j, j < i /\ sortedTaskKeys g !! j = Some d;
  inv_pending : forall k t, allTasks g !! k = Some t -> ScheduledTask.status t = Pending
}.

(** [g'] was obtained from [g] by visits: keys were appended to the sorted
    list, and the nodes of [g], but for [owner], are as they were. *)
Record Ext (owner : option string) (g g' : TaskGraph) : Prop := {
  ext_sorted : exists l, sortedTaskKeys g' = sortedTaskKeys g ++ l;
  ext_tasks : forall k t, Some k <> owner ->
    allTasks g !! k = Some t -> allTasks g' !! k = Some t
}.

(** The dependencies pushed so far onto [owner] are all sorted. *)
Definition OwnerInv (owner : option string) (path : list string) (g : TaskGraph) : Prop :=
  match owner with
  | None => True
  | Some o => o ∈ path /\ forall d, d ∈ depsOf g o -> d ∈ sortedTaskKeys g
  end.

(** What the construction needs of the recursive call it is given. *)
Definition VisitSpec (config : Config)
    (v : list string -> RequestedTask.t -> Workspace.t -> TaskGraph -> Result TaskGraph)
    : Prop :=
  forall path rt w g g',
    Inv path g -> v path rt w g = Ok g' ->
    Inv path g' /\ Ext None g g' /\
    getTaskKey config (Workspace.dir w) (RequestedTask.scriptName rt) ∈ sortedTaskKeys g'.

(** The invariant of the controller: the workers are the running nodes; the
    keys still to start are pending with successful dependencies; a node
    that has left [Pending] has successful dependencies; workers and keys
    to start fit in [maxConcurrentTasks]. *)
Record ControllerInv (max : Z) (c : Controller) : Prop := {
  ci_sorted : NoDup (sortedTaskKeys (graph c));
  ci_nodup : NoDup (workers c ++ starting c);
  ci_running : forall k, statusOf (graph c) k = Some Running <-> k ∈ workers c;
  ci_starting : forall k, k ∈ starting c ->
    statusOf (graph c) k = Some Pending /\
    (forall d, d ∈ depsOf (graph c) k -> isSuccessOf (graph c) d) /\
    k ∈ sortedTaskKeys (graph c);
  ci_started : forall k s, statusOf (graph c) k = Some s -> s <> Pending ->
    forall d, d ∈ depsOf (graph c) k -> isSuccessOf (graph c) d;
  ci_bound : (Z.of_nat (length (workers c) + length (starting c)) <= Z.max 0 max)%Z;
  ci_workers : forall k, k ∈ workers c -> k ∈ sortedTaskKeys (graph c)
}.

(** How many of [ks] are non-parallel tasks of script [script]. *)
Definition unparallelizableCount (g : TaskGraph) (script : string) (ks : list string)
    : nat :=
  length (filter (fun k => isUnparallelizable g script k = true) ks).

(** The paths [cacheOutputs] reads from the task's config. *)
Definition outDirOf (config : Config) (s : Capture) : string :=
  TaskConfig.getOutputPath
    (getTaskConfig config (ScheduledTask.workspace (task s))
       (ScheduledTask.scriptName (task s))).

Definition outManifestPathOf (config : Config) (s : Capture) : string :=
  TaskConfig.getOutputManifestPath
    (getTaskConfig config (ScheduledTask.workspace (task s))
       (ScheduledTask.scriptName (task s))).

(** The copy [cacheOutputFile] makes for [file]. *)
Definition copyOf (platform : Platform) (fs : FileSystem)
    (rootWorkspaceDir outDir file : string) : FsCall :=
  CopyFileWithMtime (join platform rootWorkspaceDir file) (join platform outDir file)
    (mtimeOf fs (join platform rootWorkspaceDir file)).

(** ** The rest of [TaskGraph]: statistics, and what the proofs of the
    further properties speak of *)

(** The object [getTaskStats] returns; [success_lazy] and [success_eager]
    are its fields ['success:lazy'] and ['success:eager']. *)
Module TaskStats.
Record t : Type := mk {
  pending : nat;
  running : nat;
  success_lazy : nat;
  success_eager : nat;
  successful : nat;
  failure : nat;
  allTasks : nat
}.
End TaskStats.

(** [stats[status]++] *)
Definition countStatus (status : Status) (stats : TaskStats.t) : TaskStats.t :=
  let '(TaskStats.mk p r sl se s f a) := stats in
  match status with
  | Pending => TaskStats.mk (S p) r sl se s f a
  | Running => TaskStats.mk p (S r) sl se s f a
  | SuccessLazy => TaskStats.mk p r (S sl) se s f a
  | SuccessEager => TaskStats.mk p r sl (S se) s f a
  | Failure => TaskStats.mk p r sl se s (S f) a
  end.

(** [stats.successful++] *)
Definition countSuccessful (stats : TaskStats.t) : TaskStats.t :=
  let '(TaskStats.mk p r sl se s f a) := stats in TaskStats.mk p r sl se (S s) f a.

(** [stats.allTasks++] *)
Definition countTask (stats : TaskStats.t) : TaskStats.t :=
  let '(TaskStats.mk p r sl se s f a) := stats in TaskStats.mk p r sl se s f (S a).

(** [getTaskStats()].  The loop reads [this.allTasks[key].status] twice;
    nothing changes it in between. *)
Definition getTaskStats (this : TaskGraph) : Result TaskStats.t :=
  forEach
    (fun key stats =>
       let! task := getTask this key in
       let status := ScheduledTask.status task in
       let stats := if isSuccess status then countSuccessful stats else stats in
       let! task' := getTask this key in
       let stats := countStatus (ScheduledTask.status task') stats in
       Ok (countTask stats))
    (sortedTaskKeys this) (TaskStats.mk 0 0 0 0 0 0 0).

(** The place of a status in the life of a task: pending, then running,
    then one of the three final statuses. *)
Definition statusRank (s : Status) : nat :=
  match s with
  | Pending => 0
  | Running => 1
  | SuccessEager | SuccessLazy | Failure => 2
  end.

(** The rank of the node of [key]; a key without node counts as final. *)
Definition rankOf (this : TaskGraph) (key : string) : nat :=
  match statusOf this key with
  | Some s => statusRank s
  | None => 2
  end.

(** The status changes the tasks of the sorted key list may still make:
    two for a pending task, one for a running task. *)
Definition workLeft (this : TaskGraph) : nat :=
  sum_list (map (fun key => 2 - rankOf this key) (sortedTaskKeys this)).

(** [key] depends on [dep], directly or through other tasks. *)
Definition dependsOn (this : TaskGraph) : relation string :=
  tc (fun key dep => dep ∈ depsOf this key).

(** Every key the scheduler looks up has a node. *)
Definition nodesResolve (this : TaskGraph) : Prop :=
  (forall key, key ∈ sortedTaskKeys this -> is_Some (allTasks this !! key)) /\
  (forall key dep, dep ∈ depsOf this key -> is_Some (allTasks this !! dep)).

(** The controller is at rest: no [tick] is in progress and no [runTask]
    awaits. *)
Definition quiescent (c : Controller) : Prop := starting c = [] /\ workers c = [].

(** How many keys of [keys] have a node of status [status]. *)
Definition statusCount (this : TaskGraph) (status : Status) (keys : list string) : nat :=
  length (filter (fun key => statusOf this key = Some status) keys).

(** [task.dependencies.push(...deps)] *)
Definition pushDependencies (deps : list string) (task : ScheduledTask.t)
    : ScheduledTask.t :=
  ScheduledTask.mk (ScheduledTask.key task) (ScheduledTask.taskConfig task)
    (ScheduledTask.scriptName task) (ScheduledTask.extraArgs task)
    (ScheduledTask.force task) (ScheduledTask.status task)
    (ScheduledTask.outputFiles task) (ScheduledTask.dependencies task ++ deps)
    (ScheduledTask.inputManifestCacheKey task) (ScheduledTask.workspace task).

Section ExpectedDependencies.

Variable platform : Platform.
Variable config : Config.

(** The keys [enqueueTask] pushes, in order, for a requested task. *)
Definition targetKeys (requestedTask : RequestedTask.t) : list string :=
  map (fun w => getTaskKey config (Workspace.dir w)
                  (RequestedTask.scriptName requestedTask))
      (spec_targetWorkspaces platform config requestedTask).

(** The keys the first loop of [visit] pushes for one [runsAfter] entry. *)
Definition upstreamKeys (workspace : Workspace.t) (force : bool)
    (entry : string * RunsAfter) : Result (list string) :=
  let! filterPaths := upstreamFilterPaths config workspace (snd entry) in
  Ok (targetKeys {| RequestedTask.scriptName := fst entry;
                    RequestedTask.extraArgs := [];
                    RequestedTask.force := force;
                    RequestedTask.filterPaths := filterPaths |}).

(** The key the second loop of [visit] pushes for one local dependency:
    none when that workspace does not declare the script. *)
Definition dependentKey (scriptName : string) (workspaceName : string)
    : Result (list string) :=
  let! dependency :=
    fromOption workspaceName (getWorkspaceByName (project config) workspaceName) in
  Ok (if truthy (Workspace.scripts dependency !! scriptName)
      then [getTaskKey config (Workspace.dir dependency) scriptName]
      else []).

(** The dependencies of the node [visit] creates for a workspace and a
    script, read off its two loops: the keys of the upstream scripts'
    targets, entry by entry, then, for a [dependent] script, the keys of
    the local dependencies that declare it. *)
Definition expectedDependencies (taskConfig : TaskConfig.t) (workspace : Workspace.t)
    (scriptName : string) (force : bool) : Result (list string) :=
  let! upstream :=
    mapR (upstreamKeys workspace force) (TaskConfig.runsAfterEntries taskConfig) in
  let! local :=
    match TaskConfig.execution taskConfig with
    | Dependent =>
        mapR (dependentKey scriptName) (Workspace.localDependencyWorkspaceNames workspace)
    | _ => Ok []
    end in
  Ok (concat upstream ++ concat local).

(** What a node of the finished graph records. *)
Definition nodeRecord (key : string) (task : ScheduledTask.t) : Prop :=
  ScheduledTask.key task = key /\
  key = getTaskKey config (Workspace.dir (ScheduledTask.workspace task))
          (ScheduledTask.scriptName task) /\
  ScheduledTask.taskConfig task =
    getTaskConfig config (ScheduledTask.workspace task) (ScheduledTask.scriptName task) /\
  ScheduledTask.status task = Pending /\
  ScheduledTask.outputFiles task = [] /\
  ScheduledTask.inputManifestCacheKey task = None /\
  expectedDependencies (ScheduledTask.taskConfig task) (ScheduledTask.workspace task)
    (ScheduledTask.scriptName task) (ScheduledTask.force task)
  = Ok (ScheduledTask.dependencies task).

(** The nodes of sorted keys are finished. *)
Definition sortedNodesRecorded (g : TaskGraph) : Prop :=
  forall key task,
    allTasks g !! key = Some task -> key ∈ sortedTaskKeys g -> nodeRecord key task.

(** The workspaces of [dirs] that declare the script of [rt]. *)
Definition declaring (rt : RequestedTask.t) (dirs : list string) : list Workspace.t :=
  List.filter (fun w => truthy (Workspace.scripts w !! RequestedTask.scriptName rt))
    (omap (getWorkspaceByDir (project config)) dirs).

(** What the construction needs of the recursive call, for the records. *)
Definition VisitRecords
    (v : list string -> RequestedTask.t -> Workspace.t -> TaskGraph -> Result TaskGraph)
    : Prop :=
  forall path rt w g g',
    Inv path g -> sortedNodesRecorded g -> v path rt w g = Ok g' ->
    sortedNodesRecorded g'.

End ExpectedDependencies.

(** The calls one iteration of the loop of [cacheOutputs] makes for a file
    when none raises. *)
Definition fileCalls (platform : Platform) (fs : FileSystem)
    (rootWorkspaceDir outDir outManifestPath file : string) : list FsCall :=
  let absoluteFile := join platform rootWorkspaceDir file in
  let dest := join platform outDir file in
  let mtime := mtimeOf fs absoluteFile in
  [MkdirSync (dirname platform dest);
   StatSync absoluteFile;
   CopyFileWithMtime absoluteFile dest mtime;
   ManifestWrite outManifestPath (file ++ tab ++ timestampString mtime ++ nl)].

(** The files of the list before the first one that begins with [..]. *)
Fixpoint insideFiles (files : list string) : list string :=
  match files with
  | [] => []
  | file :: rest => if startsWith file ".." then [] else file :: insideFiles rest
  end.

(** The calls [cacheOutputs] makes when none raises: the two deletions;
    then, for a non-empty list, the output directory, the calls of each
    file up to the first one that begins with [..], and the closing of the
    manifest when there is no such file. *)
Definition captureCalls (platform : Platform) (fs : FileSystem)
    (rootWorkspaceDir outDir outManifestPath : string) (files : list string)
    : list FsCall :=
  Rimraf outDir :: Rimraf outManifestPath ::
  match files with
  | [] => []
  | _ =>
      MkdirSync outDir ::
      flat_map (fileCalls platform fs rootWorkspaceDir outDir outManifestPath)
        (insideFiles files)
      ++ (if bool_decide (insideFiles files = files)
          then [ManifestClose outManifestPath] else [])
  end.

(** The calls of [cs] that are made: all up to the first that raises,
    included. *)
Fixpoint attempted (fs : FileSystem) (cs : list FsCall) : list FsCall :=
  match cs with
  | [] => []
  | c :: rest => c :: (if raises fs c then [] else attempted fs rest)
  end.

(** Making the calls of [cs] one after the other. *)
Fixpoint performAll (fs : FileSystem) (cs : list FsCall) : IO unit :=
  match cs with
  | [] => pureIO tt
  | c :: rest => perform fs c ;;; performAll fs rest
  end.

(** The line [cacheOutputs] writes to the manifest for [file]. *)
Definition manifestLine (platform : Platform) (fs : FileSystem)
    (rootWorkspaceDir file : string) : string :=
  file ++ tab ++ timestampString (mtimeOf fs (join platform rootWorkspaceDir file)) ++ nl.

(** What was written to the manifest, read off the calls. *)
Definition manifestWrites (cs : list FsCall) : list string :=
  omap (fun c => match c with ManifestWrite _ data => Some data | _ => None end) cs.

(** ** A sample monorepo

    Four packages under [/repo]: [web] depends on [core] and [ui], which
    both depend on [utils].  [build] runs in dependency order, [lint] is
    independent, [test] runs after the [build] of the same package and is
    not parallel, [deploy] is a top-level script that runs after every
    [build]. *)
Module Sample.

Definition scriptsOf (names : list string) : gmap string string :=
  list_to_map (map (fun n => (n, "run " ++ n)%string) names).

Definition rootWs : Workspace.t :=
  Workspace.mk "/repo" "root" (scriptsOf ["deploy"]) [].
Definition core : Workspace.t :=
  Workspace.mk "/repo/packages/core" "core" (scriptsOf ["build"; "lint"; "test"]) ["utils"].
Definition ui : Workspace.t :=
  Workspace.mk "/repo/packages/ui" "ui" (scriptsOf ["build"; "lint"; "test"]) ["utils"].
Definition utils : Workspace.t :=
  Workspace.mk "/repo/packages/utils" "utils" (scriptsOf ["build"; "lint"; "test"]) [].
Definition web : Workspace.t :=
  Workspace.mk "/repo/apps/web" "web" (scriptsOf ["build"; "lint"]) ["core"; "ui"].

Definition byDir (ws : list Workspace.t) : list (string * Workspace.t) :=
  map (fun w => (Workspace.dir w, w)) ws.

Definition findByDir (ws : list Workspace.t) (d : string) : option Workspace.t :=
  List.find (fun w => String.eqb (Workspace.dir w) d) ws.

Definition findByName (ws : list Workspace.t) (n : string) : option Workspace.t :=
  List.find (fun w => String.eqb (Workspace.name w) n) ws.

Definition projectOf (ws : list Workspace.t) : Project :=
  {| root := rootWs;
     workspacesByDir := byDir ws;
     getWorkspaceByDir := findByDir ws;
     getWorkspaceByName := findByName ws |}.

Definition taskConfigOf (w : Workspace.t) (scriptName : string) : TaskConfig.t :=
  let out := (Workspace.dir w ++ "/.lazy/" ++ scriptName)%string in
  let mk runsAfter execution parallel :=
    TaskConfig.mk runsAfter execution parallel
      (out ++ "/output")%string (out ++ "/output-manifest.tsv")%string in
  if String.eqb scriptName "build" then mk [] Dependent true
  else if String.eqb scriptName "test" then
    mk [("build", {| in_ := InSelfOnly; usesOutput := true |})] Independent false
  else if String.eqb scriptName "deploy" then
    mk [("build", {| in_ := InAll; usesOutput := true |})] TopLevel true
  else mk [] Independent true.

Definition configOf (ws : list Workspace.t) : Config :=
  {| project := projectOf ws;
     isVerbose := false;
     getTaskConfig := taskConfigOf;
     getTaskKey := fun dir scriptName => (scriptName ++ "::" ++ dir)%string;
     isTopLevelScript := fun scriptName => String.eqb scriptName "deploy" |}.

(** The part of a path before its last slash. *)
Fixpoint beforeLastSlash (p : string) : option string :=
  match p with
  | EmptyString => None
  | String c rest =>
      match beforeLastSlash rest with
      | Some d => Some (String c d)
      | None => if Ascii.eqb c "/" then Some EmptyString else None
      end
  end.

(** Patterns without wildcards: a pattern matches the directory it names. *)
Definition platform : Platform :=
  {| isAbsolute := fun p => String.prefix "/" p;
     join := fun a b => (a ++ "/" ++ b)%string;
     dirname := fun p => default "." (beforeLastSlash p);
     micromatch_match := fun dirs pattern => List.filter (String.eqb pattern) dirs;
     pc_bold := fun s => s |}.

Definition config : Config := configOf [core; ui; utils; web].

Definition request (scriptName : string) (filterPaths : list string) : RequestedTask.t :=
  RequestedTask.mk scriptName [] false filterPaths.

(** A project whose two packages depend on each other. *)
Definition ping : Workspace.t :=
  Workspace.mk "/repo/packages/ping" "ping" (scriptsOf ["build"]) ["pong"].
Definition pong : Workspace.t :=
  Workspace.mk "/repo/packages/pong" "pong" (scriptsOf ["build"]) ["ping"].
Definition cyclicConfig : Config := configOf [ping; pong].

(** The graph of [lint] over the four packages, as the constructor
    builds it. *)
Definition lintGraph : TaskGraph :=
  match TaskGraph_new platform config 10 [request "lint" []] with
  | Ok g => g
  | Err _ => emptyGraph
  end.

(** The graph of [build]. *)
Definition buildGraph : TaskGraph :=
  match TaskGraph_new platform config 10 [request "build" []] with
  | Ok g => g
  | Err _ => emptyGraph
  end.

(** The graph of [test]. *)
Definition testGraph : TaskGraph :=
  match TaskGraph_new platform config 10 [request "test" []] with
  | Ok g => g
  | Err _ => emptyGraph
  end.

(** The graph of [deploy]. *)
Definition deployGraph : TaskGraph :=
  match TaskGraph_new platform config 10 [request "deploy" []] with
  | Ok g => g
  | Err _ => emptyGraph
  end.

Definition utilsBuildKey : string := "build::/repo/packages/utils".

(** [runAllTasks] on the [build] graph with one worker slot: the first
    tick is about to start the build of [utils]; then that build is
    running; then it has failed and the next tick found nothing to do. *)
Definition buildRun0 : Controller := runAllTasks 1 buildGraph.

Definition buildRun1 : Controller :=
  {| graph := setTaskStatus utilsBuildKey Running (graph buildRun0);
     starting := [];
     workers := workers buildRun0 ++ [utilsBuildKey];
     resolved := resolved buildRun0 |}.

Definition buildRun2 : Controller :=
  invokeTick 1
    (setTaskStatus utilsBuildKey (finalStatus true false) (graph buildRun1))
    ([] ++ []) (resolved buildRun1).

(** The [test] graph once the three builds have succeeded. *)
Definition testGraphBuilt : TaskGraph :=
  setTaskStatus "build::/repo/packages/ui" SuccessEager
    (setTaskStatus "build::/repo/packages/core" SuccessLazy
       (setTaskStatus utilsBuildKey SuccessEager testGraph)).

(** A file system on which no call raises. *)
Definition quietFs : FileSystem :=
  {| raises := fun _ => false; mtimeOf := fun _ => 1700000000000%Z |}.

(** The [build] task of [core], about to capture its outputs. *)
Definition coreBuild : Capture :=
  {| calls := [];
     task := newTask "build::/repo/packages/core" (taskConfigOf core "build")
               (request "build" []) core |}.

(** A machine with eight cores where both the force-parallel variable
    and test mode are set. *)
Definition forcedTestEnv : Env :=
  {| FORCE_PARALLEL := Some "true"; isTest := true; numCpus := 8 |}.

Definition testEnv : Env :=
  {| FORCE_PARALLEL := None; isTest := true; numCpus := 8 |}.

End Sample.

(** * Properties *)

(** ** The result combinators *)

Lemma bind_Ok {A B : Type} (r : Result A) (f : A -> Result B) (b : B) :
  bind r f = Ok b -> exists a, r = Ok a /\ f a = Ok b.
Proof. destruct r as [a|e]; simpl; [eauto | discriminate]. Qed.

Lemma forEach_invariant {X S : Type} (P : S -> Prop) (f : X -> S -> Result S) (l : list X) :
  (forall x s s', x ∈ l -> P s -> f x s = Ok s' -> P s') ->
  forall s s', P s -> forEach f l s = Ok s' -> P s'.
Proof.
  induction l as [|x l IH]; intros Hf s s' Hs Hrun; simpl in Hrun.
  - by inversion Hrun; subst.
  - apply bind_Ok in Hrun as (s1 & H1 & H2).
    eapply IH; [| |exact H2].
    + intros y t t' Hy. apply Hf. by right.
    + eapply Hf; [by left|exact Hs|exact H1].
Qed.

Lemma filterR_sublist {X : Type} (f : X -> Result bool) (l r : list X) :
  filterR f l = Ok r -> r `sublist_of` l.
Proof.
  revert r. induction l as [|x l IH]; intros r H; simpl in H.
  - inversion H. constructor.
  - apply bind_Ok in H as (b & _ & H). apply bind_Ok in H as (ys & Hys & H).
    inversion H; subst. destruct b; [apply sublist_skip|apply sublist_cons]; auto.
Qed.

Lemma filterR_elem_of {X : Type} (f : X -> Result bool) (l r : list X) (x : X) :
  filterR f l = Ok r -> x ∈ r <-> x ∈ l /\ f x = Ok true.
Proof.
  revert r. induction l as [|y l IH]; intros r H; simpl in H.
  - inversion H. split; [by intros ?%elem_of_nil|by intros [?%elem_of_nil _]].
  - apply bind_Ok in H as (b & Hb & H). apply bind_Ok in H as (ys & Hys & H).
    inversion H; subst; clear H. specialize (IH ys Hys).
    destruct b; rewrite ?elem_of_cons, IH; split.
    + intros [->|[? ?]]; auto.
    + intros [[->|?] ?]; auto.
    + intros [? ?]; auto.
    + intros [[->|?] ?]; [congruence|auto].
Qed.

Lemma everyR_true {X : Type} (f : X -> Result bool) (l : list X) (x : X) :
  everyR f l = Ok true -> x ∈ l -> f x = Ok true.
Proof.
  induction l as [|y l IH]; intros H Hx; simpl in H.
  - by apply elem_of_nil in Hx.
  - apply bind_Ok in H as (b & Hb & H). destruct b; [|discriminate].
    apply elem_of_cons in Hx as [->|Hx]; auto.
Qed.

Lemma bind_settled {A B : Type} (r r' : Result A) (f f' : A -> Result B) :
  settled (bind r f) ->
  (settled r -> r' = r) ->
  (forall a, r = Ok a -> settled (f a) -> f' a = f a) ->
  bind r' f' = bind r f.
Proof.
  intros Hs Hr Hf. destruct r as [a|e]; simpl in *.
  - rewrite Hr by done. simpl. by apply Hf.
  - rewrite Hr; [done|]. intros [= ->]. by apply Hs.
Qed.

Lemma forEach_settled {X S : Type} (f f' : X -> S -> Result S) (l : list X) (s : S) :
  (forall x s, settled (f x s) -> f' x s = f x s) ->
  settled (forEach f l s) -> forEach f' l s = forEach f l s.
Proof.
  intros Hf. revert s. induction l as [|x l IH]; intros s Hs; simpl in *; [done|].
  apply bind_settled; [done|apply Hf|]. intros s1 _. apply IH.
Qed.

Lemma uniq_elem_of (l : list string) (x : string) : x ∈ uniq l <-> x ∈ l.
Proof.
  induction l as [|y l IH]; simpl; [done|].
  rewrite !elem_of_cons, list_elem_of_filter, IH.
  destruct (decide (x = y)); tauto.
Qed.

Lemma uniq_NoDup (l : list string) : NoDup (uniq l).
Proof.
  induction l as [|y l IH]; simpl; [apply NoDup_nil_2|].
  apply NoDup_cons. split.
  - rewrite list_elem_of_filter. tauto.
  - by apply NoDup_filter.
Qed.

(** ** Graph construction *)

Section ConstructionProps.

Variable platform : Platform.
Variable config : Config.

Lemma Ext_refl owner g : Ext owner g g.
Proof. split; [exists []; by rewrite app_nil_r | auto]. Qed.

Lemma Ext_trans owner g1 g2 g3 :
  Ext owner g1 g2 -> Ext owner g2 g3 -> Ext owner g1 g3.
Proof.
  intros [[l1 E1] T1] [[l2 E2] T2]. split.
  - exists (l1 ++ l2). by rewrite E2, E1, app_assoc.
  - auto.
Qed.

Lemma Ext_sorted_elem owner g g' k :
  Ext owner g g' -> k ∈ sortedTaskKeys g -> k ∈ sortedTaskKeys g'.
Proof. intros [[l ->] _] ?. apply elem_of_app. by left. Qed.

Lemma depsOf_push o key g :
  is_Some (allTasks g !! o) ->
  depsOf (pushDependencyOf (Some o) key g) o = depsOf g o ++ [key].
Proof.
  intros [t Ht]. unfold depsOf, pushDependencyOf; simpl.
  by rewrite lookup_alter_eq, Ht.
Qed.

Lemma depsOf_push_ne o key g k :
  o <> k -> depsOf (pushDependencyOf (Some o) key g) k = depsOf g k.
Proof.
  intros Hne. unfold depsOf, pushDependencyOf; simpl.
  by rewrite lookup_alter_ne.
Qed.

Lemma Inv_push path owner key g :
  Inv path g -> OwnerInv owner path g -> Inv path (pushDependencyOf owner key g).
Proof.
  intros HI HO. destruct owner as [o|]; [|done].
  destruct HO as [Ho _]. destruct HI as [ND DOM PATH TOPO PEND].
  split; [exact ND| | exact PATH | |].
  - intros k. rewrite <- DOM. simpl.
    destruct (decide (o = k)) as [->|Hne].
    + rewrite lookup_alter_eq. by rewrite fmap_is_Some.
    + by rewrite lookup_alter_ne.
  - intros i k d Hi Hd. apply (TOPO i k d Hi).
    rewrite depsOf_push_ne in Hd; [done|].
    intros ->. apply (PATH k Ho). by eapply list_elem_of_lookup_2.
  - intros k t. simpl. destruct (decide (o = k)) as [->|Hne].
    + rewrite lookup_alter_eq. destruct (allTasks g !! k) as [t0|] eqn:Hk; [|done].
      simpl. intros [= <-]. simpl. by eapply PEND.
    + rewrite lookup_alter_ne by done. apply PEND.
Qed.

(** One [dependencies?.push(key); visit(...)] of the source. *)
Lemma push_visit_spec v path owner rt w g g' :
  VisitSpec config v -> Inv path g -> OwnerInv owner path g ->
  v path rt w
    (pushDependencyOf owner
       (getTaskKey config (Workspace.dir w) (RequestedTask.scriptName rt)) g) = Ok g' ->
  Inv path g' /\ Ext owner g g' /\ OwnerInv owner path g'.
Proof.
  intros Hv HI HO Hrun.
  set (key := getTaskKey config (Workspace.dir w) (RequestedTask.scriptName rt)) in *.
  pose proof (Inv_push path owner key g HI HO) as HI1.
  destruct (Hv _ _ _ _ _ HI1 Hrun) as (HI' & HE & Hkey).
  split; [done|]. destruct owner as [o|]; simpl; [|done].
  destruct HO as [Ho Hdeps].
  assert (is_Some (allTasks g !! o)) as Hsome.
  { apply (inv_dom _ _ HI). by right. }
  split; [|split; [done|]].
  - split; [apply HE|]. intros k t Hne Hk. apply HE; [done|].
    simpl. rewrite lookup_alter_ne; [done|]. congruence.
  - intros d Hd.
    assert (depsOf g' o = depsOf g o ++ [key]) as Heq.
    { rewrite <- (depsOf_push o key g Hsome). unfold depsOf.
      destruct (allTasks (pushDependencyOf (Some o) key g) !! o) as [t|] eqn:Ht.
      - by rewrite (ext_tasks _ _ _ HE o t).
      - simpl in Ht. rewrite lookup_alter_eq in Ht.
        destruct Hsome as [t0 Ht0]. by rewrite Ht0 in Ht. }
    rewrite Heq in Hd. apply elem_of_app in Hd as [Hd|Hd].
    + eapply Ext_sorted_elem; [exact HE|]. simpl. by apply Hdeps.
    + apply list_elem_of_singleton in Hd as ->. done.
Qed.

Lemma Inv_enter path key task g :
  Inv path g -> allTasks g !! key = None ->
  ScheduledTask.dependencies task = [] -> ScheduledTask.status task = Pending ->
  let g1 := {| allTasks := <[key := task]> (allTasks g);
               sortedTaskKeys := sortedTaskKeys g |} in
  Inv (path ++ [key]) g1 /\ OwnerInv (Some key) (path ++ [key]) g1.
Proof.
  intros [ND DOM PATH TOPO PEND] Hnone Hdeps Hstatus g1.
  assert (key ∉ sortedTaskKeys g) as Hfresh.
  { intros Hin. assert (is_Some (allTasks g !! key)) as [? ?] by (apply DOM; by left).
    congruence. }
  split; [split|].
  - exact ND.
  - intros k. simpl. rewrite lookup_insert_is_Some, elem_of_app, list_elem_of_singleton.
    rewrite DOM. destruct (decide (key = k)) as [->|Hne].
    + split; [auto|]. intros _. by left.
    + split; [intros [->|[_ [?|?]]]; auto|]. intros [?|[?| ->]]; auto.
  - intros k. simpl. rewrite elem_of_app, list_elem_of_singleton.
    intros [Hk| ->]; [by apply PATH|done].
  - intros i k d Hi Hd. apply (TOPO i k d Hi).
    unfold depsOf in *. simpl in Hd. rewrite lookup_insert_ne in Hd; [done|].
    intros ->. apply Hfresh. by eapply list_elem_of_lookup_2.
  - intros k t. simpl. destruct (decide (key = k)) as [->|Hne].
    + rewrite lookup_insert_eq. by intros [= <-].
    + rewrite lookup_insert_ne by done. apply PEND.
  - split; [apply elem_of_app; right; by apply list_elem_of_singleton|].
    intros d. unfold depsOf. simpl. rewrite lookup_insert_eq, Hdeps.
    by intros ?%elem_of_nil.
Qed.

Lemma Inv_leave path key g0 g :
  allTasks g0 !! key = None -> Inv path g0 ->
  Inv (path ++ [key]) g -> OwnerInv (Some key) (path ++ [key]) g ->
  Inv path {| allTasks := allTasks g; sortedTaskKeys := sortedTaskKeys g ++ [key] |}.
Proof.
  intros Hnone HI0 [ND DOM PATH TOPO PEND] [Hkey Hdeps].
  assert (key ∉ path) as Hnotpath.
  { intros Hin. assert (is_Some (allTasks g0 !! key)) as [? ?].
    { apply (inv_dom _ _ HI0). by right. }
    congruence. }
  assert (key ∉ sortedTaskKeys g) as Hfresh by (by apply PATH).
  split; simpl.
  - apply NoDup_app. split; [done|]. split; [|apply NoDup_singleton].
    intros x Hx ->%list_elem_of_singleton. done.
  - intros k. rewrite DOM, !elem_of_app, list_elem_of_singleton. tauto.
  - intros k Hk. rewrite elem_of_app, list_elem_of_singleton.
    intros [Hin| ->]; [|done]. eapply PATH; [|exact Hin]. apply elem_of_app. by left.
  - intros i k d Hi Hd. change (depsOf _ k) with (depsOf g k) in Hd.
    apply lookup_app_Some in Hi as [Hi|[Hlen Hi]].
    + destruct (TOPO i k d Hi Hd) as (j & Hj & Hjd).
      exists j. split; [done|]. by apply lookup_app_l_Some.
    + apply list_lookup_singleton_Some in Hi as [Hi <-].
      apply Hdeps in Hd. apply list_elem_of_lookup_1 in Hd as [j Hj].
      exists j. split; [apply lookup_lt_Some in Hj; lia|].
      by apply lookup_app_l_Some.
  - exact PEND.
Qed.

Hypothesis byDir : lookupByDirSound config.

Lemma enqueueTask_spec v path rt owner g g' :
  VisitSpec config v -> Inv path g -> OwnerInv owner path g ->
  enqueueTask_with platform config v path rt owner g = Ok g' ->
  Inv path g' /\ Ext owner g g' /\ OwnerInv owner path g'.
Proof.
  intros Hv HI HO. unfold enqueueTask_with.
  destruct (isTopLevelScript config (RequestedTask.scriptName rt)).
  - intros Hrun. eapply push_visit_spec; eauto.
  - intros Hrun.
    eapply (forEach_invariant
              (fun s => Inv path s /\ Ext owner g s /\ OwnerInv owner path s));
      [| |exact Hrun].
    + intros d s s' _ (HIs & HEs & HOs) Hbody.
      apply bind_Ok in Hbody as (w & Hw & Hbody).
      destruct (getWorkspaceByDir (project config) d) as [w'|] eqn:Hlook;
        simpl in Hw; [|discriminate].
      inversion Hw; subst w'.
      destruct (truthy _).
      * rewrite <- (byDir d w Hlook) in Hbody.
        destruct (push_visit_spec v path owner rt w s s' Hv HIs HOs Hbody)
          as (? & ? & ?).
        split; [done|]. split; [|done]. by eapply Ext_trans.
      * by inversion Hbody; subst.
    + split; [done|]. split; [apply Ext_refl|done].
Qed.

Lemma visit_spec fuel : VisitSpec config (visit platform config fuel).
Proof.
  induction fuel as [|fuel IH]; intros path rt w g g' HI Hrun; simpl in Hrun.
  { discriminate. }
  set (key := getTaskKey config (Workspace.dir w) (RequestedTask.scriptName rt)) in *.
  destruct (allTasks g !! key) as [t|] eqn:Hlook.
  - destruct (includes path key) eqn:Hinc; [discriminate|].
    inversion Hrun; subst g'. split; [done|]. split; [apply Ext_refl|].
    assert (is_Some (allTasks g !! key)) as Hs by eauto.
    apply (inv_dom _ _ HI) in Hs as [Hs|Hs]; [done|].
    unfold includes in Hinc. apply bool_decide_eq_false in Hinc. done.
  - apply bind_Ok in Hrun as (g2 & Hloop1 & Hrun).
    apply bind_Ok in Hrun as (g3 & Hloop2 & Hrun).
    inversion Hrun; subst g'; clear Hrun.
    set (task := newTask key _ rt w) in *.
    set (g1 := {| allTasks := <[key := task]> (allTasks g);
                  sortedTaskKeys := sortedTaskKeys g |}) in *.
    destruct (Inv_enter path key task g HI Hlook eq_refl eq_refl) as [HI1 HO1].
    fold g1 in HI1, HO1.
    pose (P := fun s => Inv (path ++ [key]) s /\ Ext (Some key) g1 s
                        /\ OwnerInv (Some key) (path ++ [key]) s).
    assert (P g1) as HP1 by (split; [done|split; [apply Ext_refl|done]]).
    assert (P g2) as HP2.
    { eapply (forEach_invariant P); [|exact HP1|exact Hloop1].
      intros entry s s' _ (HIs & HEs & HOs) Hbody.
      apply bind_Ok in Hbody as (fp & _ & Hbody).
      destruct (enqueueTask_spec _ _ _ _ _ _ IH HIs HOs Hbody) as (? & ? & ?).
      split; [done|]. split; [|done]. by eapply Ext_trans. }
    assert (P g3) as (HI3 & HE3 & HO3).
    { destruct (TaskConfig.execution _);
        try (inversion Hloop2; subst; exact HP2).
      eapply (forEach_invariant P); [|exact HP2|exact Hloop2].
      intros name s s' _ (HIs & HEs & HOs) Hbody.
      apply bind_Ok in Hbody as (dep & _ & Hbody).
      destruct (truthy _).
      - destruct (push_visit_spec _ _ _ _ _ _ _ IH HIs HOs Hbody) as (? & ? & ?).
        split; [done|]. split; [|done]. by eapply Ext_trans.
      - by inversion Hbody; subst. }
    split; [by eapply Inv_leave|]. split.
    + destruct HE3 as [[l Hl] HT]. split; simpl.
      * exists (l ++ [key]). by rewrite Hl, app_assoc.
      * intros k t _ Hk. apply HT.
        -- intros [= ->]. congruence.
        -- simpl. rewrite lookup_insert_ne; [done|]. intros ->. congruence.
    + simpl. apply elem_of_app. right. by apply list_elem_of_singleton.
Qed.

Lemma Inv_empty : Inv [] emptyGraph.
Proof.
  split; simpl.
  - apply NoDup_nil_2.
  - intros k. rewrite lookup_empty. split; [by intros [? ?]|].
    intros [H|H]; by apply elem_of_nil in H.
  - intros k H. by apply elem_of_nil in H.
  - intros i k d H. by rewrite lookup_nil in H.
  - intros k t. by rewrite lookup_empty.
Qed.

Lemma TaskGraph_new_Inv fuel requestedTasks g :
  TaskGraph_new platform config fuel requestedTasks = Ok g -> Inv [] g.
Proof.
  unfold TaskGraph_new. intros Hrun.
  eapply (forEach_invariant (Inv [])); [|apply Inv_empty|exact Hrun].
  intros rt s s' _ Hs Hbody.
  by destruct (enqueueTask_spec _ [] rt None s s' (visit_spec fuel) Hs I Hbody).
Qed.

(** A constructed graph is one [runAllTasks] may start from. *)
Lemma TaskGraph_new_fresh fuel requestedTasks g :
  TaskGraph_new platform config fuel requestedTasks = Ok g -> freshGraph g.
Proof.
  intros H. apply TaskGraph_new_Inv in H. split; [apply H|apply (inv_pending _ _ H)].
Qed.

End ConstructionProps.

(** *** The recursion bound

    A result other than [OutOfFuel] does not depend on the bound: more
    fuel gives the same graph or the same exception. *)

Section Fuel.
Variable platform : Platform.
Variable config : Config.

Lemma enqueueTask_with_settled v v' path rt owner g :
  (forall path rt w g, settled (v path rt w g) -> v' path rt w g = v path rt w g) ->
  settled (enqueueTask_with platform config v path rt owner g) ->
  enqueueTask_with platform config v' path rt owner g =
  enqueueTask_with platform config v path rt owner g.
Proof.
  intros Hv. unfold enqueueTask_with.
  destruct (isTopLevelScript config (RequestedTask.scriptName rt)); [apply Hv|].
  apply forEach_settled. intros d s Hs.
  destruct (fromOption d (getWorkspaceByDir (project config) d)) as [w|e]; simpl in *;
    [|done].
  destruct (truthy _); [by apply Hv|done].
Qed.

Lemma visit_settled fuel path rt w g :
  settled (visit platform config fuel path rt w g) ->
  visit platform config (S fuel) path rt w g = visit platform config fuel path rt w g.
Proof.
  revert path rt w g. induction fuel as [|fuel IH]; intros path rt w g Hs.
  { by destruct Hs. }
  remember (S fuel) as n eqn:Hn. simpl. rewrite Hn in *. simpl in Hs |- *.
  destruct (allTasks g !! _); [done|].
  apply bind_settled; [done| |].
  - apply forEach_settled. intros entry s Hentry.
    apply bind_settled; [done|done|]. intros fp _.
    apply enqueueTask_with_settled. intros. by apply IH.
  - intros g2 _ Hs2. apply bind_settled; [done| |done].
    destruct (TaskConfig.execution _); try done.
    apply forEach_settled. intros name s Hname.
    apply bind_settled; [done|done|]. intros dep _.
    destruct (truthy _); [apply IH|done].
Qed.

Lemma visit_more_fuel fuel n path rt w g :
  settled (visit platform config fuel path rt w g) ->
  visit platform config (fuel + n) path rt w g = visit platform config fuel path rt w g.
Proof.
  intros Hs. induction n as [|n IH]; [by rewrite Nat.add_0_r|].
  rewrite Nat.add_succ_r, visit_settled; [done|]. by rewrite IH.
Qed.

(** The graph or the error the constructor ends with is the same for every
    larger bound. *)
Lemma TaskGraph_new_more_fuel fuel n requestedTasks :
  settled (TaskGraph_new platform config fuel requestedTasks) ->
  TaskGraph_new platform config (fuel + n) requestedTasks =
  TaskGraph_new platform config fuel requestedTasks.
Proof.
  unfold TaskGraph_new, enqueueTask. apply forEach_settled.
  intros rt s. apply enqueueTask_with_settled. intros. by apply visit_more_fuel.
Qed.

End Fuel.

(** *** Target workspaces *)

Section Targets.

Variable platform : Platform.
Variable config : Config.

Lemma filterPackageDirs_elem_of (filterPaths : list string) (d : string) :
  d ∈ filterPackageDirs platform (Workspace.dir (root (project config)))
        (project config) filterPaths <->
  (filterPaths = [] /\ d ∈ map fst (workspacesByDir (project config))) \/
  (exists pattern, pattern ∈ filterPaths /\ d ∈ spec_patternMatches platform config pattern).
Proof.
  unfold filterPackageDirs, spec_patternMatches.
  destruct filterPaths as [|p ps].
  - split; [by left|]. intros [[_ H]|(p & Hp & _)]; [done|]. by apply elem_of_nil in Hp.
  - rewrite uniq_elem_of. rewrite list_elem_of_In, in_flat_map.
    split.
    + intros (x & Hx & Hd). right. exists x. by rewrite !list_elem_of_In.
    + intros [[? _]|(x & Hx & Hd)]; [done|]. exists x. by rewrite <- !list_elem_of_In.
Qed.

Lemma enqueueTask_targets v path rt deps g :
  (forall d, d ∈ filterPackageDirs platform (Workspace.dir (root (project config)))
                 (project config) (RequestedTask.filterPaths rt) ->
             exists w, getWorkspaceByDir (project config) d = Some w /\ Workspace.dir w = d) ->
  enqueueTask_with platform config v path rt deps g =
  forEach
    (fun w this =>
       v path rt w
         (pushDependencyOf deps
            (getTaskKey config (Workspace.dir w) (RequestedTask.scriptName rt)) this))
    (spec_targetWorkspaces platform config rt) g.
Proof.
  unfold enqueueTask_with, spec_targetWorkspaces.
  destruct (isTopLevelScript config (RequestedTask.scriptName rt)).
  { intros _. simpl. by destruct (v _ _ _ _). }
  generalize (filterPackageDirs platform (Workspace.dir (root (project config)))
                (project config) (RequestedTask.filterPaths rt)).
  intros dirs. revert g.
  induction dirs as [|d dirs IH]; intros g Hdirs; simpl; [done|].
  destruct (Hdirs d) as (w & Hw & Hdir); [by left|].
  rewrite Hw. simpl.
  assert (forall d', d' ∈ dirs ->
            exists w', getWorkspaceByDir (project config) d' = Some w'
                       /\ Workspace.dir w' = d') as Hrest.
  { intros d' Hd'. apply Hdirs. by right. }
  destruct (truthy (Workspace.scripts w !! RequestedTask.scriptName rt)) eqn:Hdecl;
    simpl; [|by apply IH].
  rewrite Hdir. destruct (v _ _ _ _); simpl; [by apply IH|done].
Qed.

Lemma spec_targetWorkspaces_elem_of rt w :
  isTopLevelScript config (RequestedTask.scriptName rt) = false ->
  w ∈ spec_targetWorkspaces platform config rt <->
  exists d,
    d ∈ filterPackageDirs platform (Workspace.dir (root (project config)))
          (project config) (RequestedTask.filterPaths rt) /\
    getWorkspaceByDir (project config) d = Some w /\
    truthy (Workspace.scripts w !! RequestedTask.scriptName rt) = true.
Proof.
  intros Htop. unfold spec_targetWorkspaces. rewrite Htop.
  rewrite list_elem_of_In, List.filter_In, <- list_elem_of_In, list_elem_of_omap.
  split.
  - intros [(d & ? & ?) ?]. eauto.
  - intros (d & ? & ? & ?). eauto.
Qed.

End Targets.

(** ** The scheduler *)

(** *** Readiness *)

Lemma statusOf_Some g k s :
  statusOf g k = Some s <->
  exists t, allTasks g !! k = Some t /\ ScheduledTask.status t = s.
Proof.
  unfold statusOf. destruct (allTasks g !! k) as [t|]; simpl; split.
  - intros [= <-]. eauto.
  - by intros (t' & [= <-] & <-).
  - discriminate.
  - by intros (? & ? & _).
Qed.

Lemma isTaskReady_true g k :
  isTaskReady g k = Ok true ->
  statusOf g k = Some Pending /\ forall d, d ∈ depsOf g k -> isSuccessOf g d.
Proof.
  unfold isTaskReady, getTask, depsOf, isSuccessOf, statusOf. intros H.
  apply bind_Ok in H as (t & Ht & H).
  destruct (allTasks g !! k) as [t'|]; simpl in Ht; [|discriminate].
  inversion Ht; subst t'; clear Ht. simpl.
  destruct (bool_decide_reflect (ScheduledTask.status t = Pending)) as [Hp|]; [|discriminate].
  split; [by rewrite Hp|].
  intros d Hd. pose proof (everyR_true _ _ d H Hd) as Hd'. simpl in Hd'.
  apply bind_Ok in Hd' as (td & Htd & Hs).
  destruct (allTasks g !! d) as [td'|]; simpl in Htd; [|discriminate].
  inversion Htd; subst td'. inversion Hs. simpl. eauto.
Qed.

Lemma statusOf_setTaskStatus_eq g k s :
  is_Some (allTasks g !! k) -> statusOf (setTaskStatus k s g) k = Some s.
Proof.
  intros [t Ht]. unfold statusOf, setTaskStatus; simpl.
  by rewrite lookup_alter_eq, Ht.
Qed.

Lemma statusOf_setTaskStatus_ne g k k' s :
  k <> k' -> statusOf (setTaskStatus k s g) k' = statusOf g k'.
Proof.
  intros Hne. unfold statusOf, setTaskStatus; simpl. by rewrite lookup_alter_ne.
Qed.

Lemma depsOf_setTaskStatus g k k' s :
  depsOf (setTaskStatus k s g) k' = depsOf g k'.
Proof.
  unfold depsOf, setTaskStatus; simpl.
  destruct (decide (k = k')) as [->|Hne].
  - rewrite lookup_alter_eq. by destruct (allTasks g !! k').
  - by rewrite lookup_alter_ne.
Qed.

Lemma filterUnparallelizable_sublist g l seen r :
  filterUnparallelizable g l seen = Ok r -> r `sublist_of` l.
Proof.
  revert seen r. induction l as [|k l IH]; intros seen r H; simpl in H.
  - inversion H. constructor.
  - apply bind_Ok in H as (t & _ & H).
    destruct (TaskConfig.parallel _).
    + apply bind_Ok in H as (kept & Hk & H). inversion H; subst.
      apply sublist_skip. eauto.
    + destruct (bool_decide _).
      * apply sublist_cons. eauto.
      * apply bind_Ok in H as (kept & Hk & H). inversion H; subst.
        apply sublist_skip. eauto.
Qed.

Lemma js_sort_Permutation l : js_sort l ≡ₚ l.
Proof. apply merge_sort_Permutation. Qed.

Lemma js_sort_sorted l : StronglySorted String.le (js_sort l).
Proof. apply (StronglySorted_merge_sort String.le). Qed.

Lemma tickDecision_Start max g ks :
  tickDecision max g = Ok (Start ks) ->
  exists running candidates kept,
    allRunningTaskKeys g = Ok running /\
    filterR (isTaskReady g) (sortedTaskKeys g) = Ok candidates /\
    filterUnparallelizable g candidates ∅ = Ok kept /\
    (Z.of_nat (length running) < max)%Z /\
    ks = take (Z.to_nat (Z.min (max - Z.of_nat (length running))
                               (Z.of_nat (length kept))))
              (js_sort kept).
Proof.
  unfold tickDecision, allReadyTaskKeys. intros H.
  apply bind_Ok in H as (running & Hrun & H).
  apply bind_Ok in H as (ready & Hready & H).
  apply bind_Ok in Hready as (cands & Hc & Hready).
  apply bind_Ok in Hready as (kept & Hk & Hready).
  inversion Hready; subst ready; clear Hready.
  destruct (_ && _); [discriminate|].
  destruct (Z.leb_spec max (Z.of_nat (length running))); [discriminate|].
  destruct (length (js_sort kept) =? 0)%nat; [discriminate|].
  inversion H; subst ks; clear H.
  exists running, cands, kept. repeat (split; [done|]).
  by rewrite (Permutation_length (js_sort_Permutation kept)).
Qed.

Lemma Start_elem_of max g ks k :
  tickDecision max g = Ok (Start ks) -> k ∈ ks ->
  k ∈ sortedTaskKeys g /\ isTaskReady g k = Ok true.
Proof.
  intros H Hk.
  destruct (tickDecision_Start _ _ _ H) as (running & cands & kept & _ & Hc & Hkept & _ & ->).
  apply (filterR_elem_of _ _ _ k Hc).
  eapply elem_of_sublist; [|by eapply filterUnparallelizable_sublist].
  rewrite <- (js_sort_Permutation kept).
  eapply elem_of_sublist; [exact Hk|apply sublist_take].
Qed.

Lemma Start_NoDup max g ks :
  NoDup (sortedTaskKeys g) -> tickDecision max g = Ok (Start ks) -> NoDup ks.
Proof.
  intros ND H.
  destruct (tickDecision_Start _ _ _ H) as (running & cands & kept & _ & Hc & Hkept & _ & ->).
  eapply sublist_NoDup; [|apply sublist_take].
  rewrite (js_sort_Permutation kept).
  eapply sublist_NoDup; [|by eapply filterUnparallelizable_sublist].
  eapply sublist_NoDup; [done|by eapply filterR_sublist].
Qed.

Lemma allRunningTaskKeys_elem_of g running k :
  allRunningTaskKeys g = Ok running ->
  k ∈ running <-> k ∈ sortedTaskKeys g /\ statusOf g k = Some Running.
Proof.
  intros H. rewrite (filterR_elem_of _ _ _ k H).
  unfold getTask, statusOf. destruct (allTasks g !! k) as [t|]; simpl.
  - destruct (bool_decide_reflect (ScheduledTask.status t = Running)) as [->|Hn].
    + tauto.
    + split; intros [? ?]; [discriminate|]. congruence.
  - split; intros [? ?]; discriminate.
Qed.

(** *** The invariant of the controller *)

Lemma graph_invokeTick max g w r : graph (invokeTick max g w r) = g.
Proof. unfold invokeTick. by destruct (tickDecision max g) as [[| |?]|]. Qed.

Lemma running_length max g w r running :
  ControllerInv max {| graph := g; starting := []; workers := w; resolved := r |} ->
  allRunningTaskKeys g = Ok running -> length running = length w.
Proof.
  intros [ND NDW RUN _ _ _ WS] H; simpl in *.
  apply Permutation_length, NoDup_Permutation.
  - eapply sublist_NoDup; [exact ND|]. eapply filterR_sublist. exact H.
  - by rewrite app_nil_r in NDW.
  - intros k. rewrite (allRunningTaskKeys_elem_of _ _ k H), RUN.
    split; [tauto|]. intros Hk. split; [by apply WS|done].
Qed.

Lemma invokeTick_inv max g w r r' :
  ControllerInv max {| graph := g; starting := []; workers := w; resolved := r |} ->
  ControllerInv max (invokeTick max g w r').
Proof.
  intros HI. unfold invokeTick.
  destruct (tickDecision max g) as [[| |ks]|e] eqn:Hd;
    try (destruct HI; by split).
  pose proof (Start_NoDup _ _ _ (ci_sorted _ _ HI) Hd) as NDks.
  assert (forall k, k ∈ ks -> k ∈ sortedTaskKeys g /\ statusOf g k = Some Pending /\
            forall d, d ∈ depsOf g k -> isSuccessOf g d) as Hks.
  { intros k Hk. destruct (Start_elem_of _ _ _ k Hd Hk) as [? Hr].
    apply isTaskReady_true in Hr as [? ?]. auto. }
  destruct (tickDecision_Start _ _ _ Hd) as (running & cands & kept & Hrun & _ & _ & Hroom & Hks_eq).
  pose proof (running_length _ _ _ _ _ HI Hrun) as Hlen.
  destruct HI as [ND NDW RUN _ STARTED BOUND WS]; simpl in *.
  split; simpl; try done.
  - apply NoDup_app. rewrite app_nil_r in NDW. split; [done|]. split; [|done].
    intros k Hw Hk. apply RUN in Hw. destruct (Hks k Hk) as (_ & Hp & _). congruence.
  - intros k Hk. destruct (Hks k Hk) as (? & ? & ?). auto.
  - assert (length ks <= Z.to_nat (max - Z.of_nat (length running)))%nat.
    { rewrite Hks_eq, length_take. lia. }
    lia.
Qed.

Lemma finalStatus_cases didRunTask didSucceed :
  finalStatus didRunTask didSucceed <> Pending /\
  finalStatus didRunTask didSucceed <> Running.
Proof. by destruct didRunTask, didSucceed. Qed.

Lemma isSuccessOf_setTaskStatus g k s d :
  (forall s', statusOf g k = Some s' -> isSuccess s' = false) ->
  isSuccessOf g d -> isSuccessOf (setTaskStatus k s g) d.
Proof.
  intros Hk (sd & Hd & Hs). exists sd. split; [|done].
  rewrite statusOf_setTaskStatus_ne; [done|].
  intros ->. specialize (Hk _ Hd). congruence.
Qed.

Lemma statusOf_is_Some g k s : statusOf g k = Some s -> is_Some (allTasks g !! k).
Proof. unfold statusOf. destruct (allTasks g !! k); [eauto|discriminate]. Qed.

Lemma step_inv max c c' :
  ControllerInv max c -> step max c c' -> ControllerInv max c'.
Proof.
  intros HI Hstep. destruct Hstep as [c k rest Hs | c before k after dr ds Hs Hw].
  - destruct HI as [ND NDW RUN STARTING STARTED BOUND WS].
    rewrite Hs in *.
    destruct (STARTING k) as (Hpend & Hdeps & Hsorted); [by left|].
    assert (forall s', statusOf (graph c) k = Some s' -> isSuccess s' = false) as Hk.
    { intros s'. rewrite Hpend. by intros [= <-]. }
    split; simpl.
    + done.
    + by rewrite <- app_assoc.
    + intros k'. rewrite elem_of_app, list_elem_of_singleton, <- RUN.
      destruct (decide (k = k')) as [<-|Hne].
      * rewrite statusOf_setTaskStatus_eq; [tauto|by eapply statusOf_is_Some].
      * rewrite statusOf_setTaskStatus_ne; [|done].
        split; [tauto|]. intros [?|?]; [done|congruence].
    + intros k' Hk'. destruct (STARTING k') as (Hp' & Hd' & Hs'); [by right|].
      assert (k <> k') as Hne.
      { intros <-. apply NoDup_app in NDW as (_ & _ & NDs).
        apply NoDup_cons in NDs as [? _]. done. }
      rewrite statusOf_setTaskStatus_ne; [|done]. split; [done|]. split; [|done].
      intros d. rewrite depsOf_setTaskStatus. intros Hd.
      apply isSuccessOf_setTaskStatus; auto.
    + intros k' s' Hst Hnp d. rewrite depsOf_setTaskStatus. intros Hd.
      apply isSuccessOf_setTaskStatus; [done|].
      destruct (decide (k = k')) as [<-|Hne]; [by apply Hdeps|].
      rewrite statusOf_setTaskStatus_ne in Hst; [|done]. by eapply STARTED.
    + rewrite length_app. simpl in *. lia.
    + intros k'. rewrite elem_of_app, list_elem_of_singleton.
      intros [?| ->]; auto.
  - apply invokeTick_inv with (r := resolved c).
    destruct HI as [ND NDW RUN STARTING STARTED BOUND WS].
    rewrite Hs, Hw in *. rewrite app_nil_r in NDW.
    assert (statusOf (graph c) k = Some Running) as Hrun.
    { apply RUN. apply elem_of_app. right. by left. }
    assert (forall s', statusOf (graph c) k = Some s' -> isSuccess s' = false) as Hk.
    { intros s'. rewrite Hrun. by intros [= <-]. }
    assert (k ∉ before ++ after) as Hnotin.
    { apply NoDup_app in NDW as (_ & Hdisj & NDa).
      apply NoDup_cons in NDa as [Hka _].
      rewrite elem_of_app. intros [Hb|Ha]; [|done].
      apply (Hdisj k Hb). by left. }
    destruct (finalStatus_cases dr ds) as [Hfp Hfr].
    split; simpl.
    + done.
    + rewrite app_nil_r. apply NoDup_app in NDW as (NDb & Hdisj & NDa).
      apply NoDup_cons in NDa as [Hka NDa].
      apply NoDup_app. split; [done|]. split; [|done].
      intros x Hx Hxa. apply (Hdisj x Hx). by right.
    + intros k'. destruct (decide (k = k')) as [<-|Hne].
      * rewrite statusOf_setTaskStatus_eq; [|by eapply statusOf_is_Some].
        split; [congruence|done].
      * rewrite statusOf_setTaskStatus_ne; [|done]. rewrite RUN.
        rewrite !elem_of_app, elem_of_cons.
        split; [|tauto]. intros [?|[?|?]]; [tauto|congruence|tauto].
    + intros k' Hk'. by apply elem_of_nil in Hk'.
    + intros k' s' Hst Hnp d. rewrite depsOf_setTaskStatus. intros Hd.
      apply isSuccessOf_setTaskStatus; [done|].
      destruct (decide (k = k')) as [<-|Hne].
      * eapply STARTED; [exact Hrun|done|done].
      * rewrite statusOf_setTaskStatus_ne in Hst; [|done]. by eapply STARTED.
    + rewrite !length_app in *. simpl in *. lia.
    + intros k' Hk'. apply WS. rewrite !elem_of_app, elem_of_cons in *. tauto.
Qed.

Lemma fresh_inv max g :
  freshGraph g ->
  ControllerInv max {| graph := g; starting := []; workers := []; resolved := false |}.
Proof.
  intros [ND Hp].
  assert (forall k s, statusOf g k = Some s -> s = Pending) as Hall.
  { intros k s (t & Ht & <-)%statusOf_Some. by eapply Hp. }
  split; simpl.
  - done.
  - apply NoDup_nil_2.
  - intros k. split; [intros H%Hall; discriminate|by intros ?%elem_of_nil].
  - intros k Hk. by apply elem_of_nil in Hk.
  - intros k s Hs Hn. by apply Hall in Hs.
  - lia.
  - intros k Hk. by apply elem_of_nil in Hk.
Qed.

Lemma reachable_inv max g c :
  freshGraph g -> reachable max g c -> ControllerInv max c.
Proof.
  intros Hf Hr. induction Hr as [|c c' _ IH Hstep].
  - apply invokeTick_inv with (r := false). by apply fresh_inv.
  - by eapply step_inv.
Qed.

Lemma runningCount_workers max c :
  ControllerInv max c -> runningCount (graph c) = length (workers c).
Proof.
  intros HI. unfold runningCount.
  rewrite <- (size_dom (D := gset string)).
  assert (dom (filter (fun kv => ScheduledTask.status (snd kv) = Running)
                 (allTasks (graph c))) = list_to_set (workers c) :> gset string) as ->.
  { apply set_eq. intros k.
    rewrite elem_of_dom, elem_of_list_to_set, <- (ci_running _ _ HI), statusOf_Some.
    unfold is_Some. setoid_rewrite map_lookup_filter_Some. simpl.
    split; intros (t & ? & ?); eauto. }
  apply size_list_to_set.
  pose proof (ci_nodup _ _ HI) as ND. by apply NoDup_app in ND as (? & _).
Qed.

Lemma maxConcurrentTasks_pos env : (1 <= maxConcurrentTasks env)%Z.
Proof.
  unfold maxConcurrentTasks.
  destruct (truthy _); [lia|]. destruct (isTest env); lia.
Qed.

Lemma running_bound env g c :
  freshGraph g -> reachable (maxConcurrentTasks env) g c ->
  (Z.of_nat (runningCount (graph c)) <= maxConcurrentTasks env)%Z.
Proof.
  intros Hf Hr. pose proof (reachable_inv _ _ _ Hf Hr) as HI.
  rewrite (runningCount_workers _ _ HI).
  pose proof (ci_bound _ _ HI). pose proof (maxConcurrentTasks_pos env). lia.
Qed.

(** Statuses only move forward. *)
Lemma step_terminal max c c' k s :
  ControllerInv max c -> step max c c' ->
  statusOf (graph c) k = Some s -> s <> Pending -> s <> Running ->
  statusOf (graph c') k = Some s.
Proof.
  intros HI Hstep Hs Hnp Hnr.
  destruct Hstep as [c k0 rest Hst | c before k0 after dr ds Hst Hw]; simpl.
  - destruct (ci_starting _ _ HI k0) as (Hp & _); [rewrite Hst; by left|].
    rewrite statusOf_setTaskStatus_ne; [done|]. intros <-. congruence.
  - rewrite graph_invokeTick.
    assert (statusOf (graph c) k0 = Some Running) as Hrun.
    { apply (ci_running _ _ HI). rewrite Hw, elem_of_app, elem_of_cons. tauto. }
    rewrite statusOf_setTaskStatus_ne; [done|]. intros <-. congruence.
Qed.

Lemma step_not_pending max c c' k s :
  step max c c' -> statusOf (graph c) k = Some s -> s <> Pending ->
  exists s', statusOf (graph c') k = Some s' /\ s' <> Pending.
Proof.
  intros Hstep Hs Hnp.
  destruct Hstep as [c k0 rest Hst | c before k0 after dr ds Hst Hw]; simpl.
  - destruct (decide (k0 = k)) as [->|Hne].
    + exists Running. split; [|done].
      apply statusOf_setTaskStatus_eq. by eapply statusOf_is_Some.
    + exists s. by rewrite statusOf_setTaskStatus_ne.
  - rewrite graph_invokeTick. destruct (decide (k0 = k)) as [->|Hne].
    + exists (finalStatus dr ds). split; [|apply finalStatus_cases].
      apply statusOf_setTaskStatus_eq. by eapply statusOf_is_Some.
    + exists s. by rewrite statusOf_setTaskStatus_ne.
Qed.

Lemma step_statusOf_is_Some max c c' k :
  step max c c' -> is_Some (statusOf (graph c) k) <-> is_Some (statusOf (graph c') k).
Proof.
  intros Hstep.
  assert (forall g k0 s, is_Some (statusOf g k) <-> is_Some (statusOf (setTaskStatus k0 s g) k))
    as Hset.
  { intros g k0 s. unfold statusOf, setTaskStatus; simpl.
    rewrite !fmap_is_Some. destruct (decide (k0 = k)) as [->|Hne].
    - by rewrite lookup_alter_eq, fmap_is_Some.
    - by rewrite lookup_alter_ne. }
  destruct Hstep; simpl; rewrite ?graph_invokeTick; apply Hset.
Qed.

Lemma steps_inv max c c' :
  ControllerInv max c -> rtc (step max) c c' -> ControllerInv max c'.
Proof. intros HI Hs. induction Hs; eauto using step_inv. Qed.

Lemma steps_terminal max c c' k s :
  ControllerInv max c -> rtc (step max) c c' ->
  statusOf (graph c) k = Some s -> s <> Pending -> s <> Running ->
  statusOf (graph c') k = Some s.
Proof.
  intros HI Hs. induction Hs as [|c c1 c2 H1 _ IH]; [done|].
  intros Hk Hnp Hnr. apply IH; [by eapply step_inv|by eapply step_terminal|done|done].
Qed.

Lemma steps_pending_before max c c' k :
  rtc (step max) c c' -> statusOf (graph c') k = Some Pending ->
  statusOf (graph c) k = Some Pending.
Proof.
  intros Hs. induction Hs as [|c c1 c2 H1 _ IH]; [done|].
  intros Hk. specialize (IH Hk).
  destruct (statusOf (graph c) k) as [s|] eqn:Hs0.
  - destruct (decide (s = Pending)) as [->|Hnp]; [done|].
    destruct (step_not_pending _ _ _ _ _ H1 Hs0 Hnp) as (s' & Hs' & Hn). congruence.
  - assert (is_Some (statusOf (graph c) k)) as [? ?]; [|congruence].
    apply (step_statusOf_is_Some _ _ _ k H1). eauto.
Qed.

(** A node that has left [Pending] has all its dependencies successful;
    so a node with a failed dependency is pending. *)
Lemma failed_dependency_pending max c k d :
  ControllerInv max c ->
  d ∈ depsOf (graph c) k ->
  statusOf (graph c) d = Some Failure ->
  statusOf (graph c) k = Some Pending.
Proof.
  intros HI Hd Hfail.
  destruct (statusOf (graph c) k) as [s|] eqn:Hs.
  - destruct (decide (s = Pending)) as [->|Hnp]; [done|].
    destruct (ci_started _ _ HI k _ Hs Hnp d Hd) as (s' & Hs' & Hsucc).
    rewrite Hfail in Hs'. inversion Hs'; subst. discriminate.
  - unfold depsOf, statusOf in *. destruct (allTasks (graph c) !! k); [discriminate|].
    by apply elem_of_nil in Hd.
Qed.

Lemma step_tasks_dependencies max c c' k t :
  step max c c' -> allTasks (graph c') !! k = Some t ->
  exists t0, allTasks (graph c) !! k = Some t0 /\
             ScheduledTask.dependencies t0 = ScheduledTask.dependencies t.
Proof.
  assert (forall g k0 s, allTasks (setTaskStatus k0 s g) !! k = Some t ->
            exists t0, allTasks g !! k = Some t0 /\
                       ScheduledTask.dependencies t0 = ScheduledTask.dependencies t) as Hset.
  { intros g k0 s. unfold setTaskStatus; simpl.
    destruct (decide (k0 = k)) as [->|Hne].
    - rewrite lookup_alter_eq. destruct (allTasks g !! k) as [t0|]; simpl; [|discriminate].
      intros [= <-]. eauto.
    - rewrite lookup_alter_ne; eauto. }
  intros Hstep. destruct Hstep; simpl; rewrite ?graph_invokeTick; apply Hset.
Qed.

Lemma step_depsOf max c c' k :
  step max c c' -> depsOf (graph c') k = depsOf (graph c) k.
Proof.
  intros Hstep. destruct Hstep; simpl; rewrite ?graph_invokeTick;
    apply depsOf_setTaskStatus.
Qed.

Lemma steps_depsOf max c c' k :
  rtc (step max) c c' -> depsOf (graph c') k = depsOf (graph c) k.
Proof.
  intros Hs. induction Hs as [|c c1 c2 H1 _ IH]; [done|].
  rewrite IH. by eapply step_depsOf.
Qed.

(** *** Serialization of non-parallel tasks *)

Lemma filterUnparallelizable_count g l seen kept script :
  filterUnparallelizable g l seen = Ok kept ->
  (script ∈ seen -> unparallelizableCount g script kept = 0) /\
  unparallelizableCount g script kept <= 1.
Proof.
  unfold unparallelizableCount.
  revert seen kept. induction l as [|k l IH]; intros seen kept H; simpl in H.
  - inversion H; subst. simpl. split; [done|lia].
  - apply bind_Ok in H as (t & Ht & H). unfold getTask in Ht.
    destruct (allTasks g !! k) as [t'|] eqn:Hlook; simpl in Ht; [|discriminate].
    inversion Ht; subst t'; clear Ht.
    destruct (TaskConfig.parallel (ScheduledTask.taskConfig t)) eqn:Hpar.
    + apply bind_Ok in H as (kept' & Hk & H). inversion H; subst; clear H.
      rewrite filter_cons_False; [by eapply IH|].
      unfold isUnparallelizable. rewrite Hlook, Hpar. simpl. discriminate.
    + destruct (bool_decide_reflect (ScheduledTask.scriptName t ∈ seen)) as [Hin|Hnin].
      * by eapply IH.
      * apply bind_Ok in H as (kept' & Hk & H). inversion H; subst; clear H.
        destruct (IH _ _ Hk) as [IH0 IH1].
        destruct (String.eqb_spec (ScheduledTask.scriptName t) script) as [Heq|Hne].
        -- rewrite filter_cons_True.
           2:{ unfold isUnparallelizable. rewrite Hlook, Hpar. simpl.
               by apply String.eqb_eq. }
           simpl. rewrite IH0; [|apply elem_of_union; left; by apply elem_of_singleton].
           split; [|lia].
           intros Hs. subst. done.
        -- rewrite filter_cons_False.
           2:{ unfold isUnparallelizable. rewrite Hlook, Hpar. simpl.
               apply String.eqb_neq in Hne. rewrite Hne. discriminate. }
           split; [|done]. intros Hs. apply IH0. apply elem_of_union. by right.
Qed.

Lemma unparallelizableCount_take g script n l :
  unparallelizableCount g script (take n l) <= unparallelizableCount g script l.
Proof.
  unfold unparallelizableCount.
  rewrite <- (take_drop n l) at 2. rewrite filter_app, length_app. lia.
Qed.

Lemma Start_unparallelizableCount max g ks script :
  tickDecision max g = Ok (Start ks) -> unparallelizableCount g script ks <= 1.
Proof.
  intros H.
  destruct (tickDecision_Start _ _ _ H) as (running & cands & kept & _ & _ & Hkept & _ & ->).
  etrans; [apply unparallelizableCount_take|].
  unfold unparallelizableCount. rewrite (js_sort_Permutation kept).
  by eapply filterUnparallelizable_count.
Qed.

Lemma count_le_1_unique {A} (P : A -> Prop) `{forall x, Decision (P x)} (l : list A) i j x y :
  length (filter P l) <= 1 ->
  l !! i = Some x -> l !! j = Some y -> P x -> P y -> i = j.
Proof.
  revert i j. induction l as [|z l IH]; intros i j Hlen Hi Hj Hx Hy.
  - by rewrite lookup_nil in Hi.
  - rewrite filter_cons in Hlen. destruct (decide (P z)) as [Hz|Hz]; simpl in Hlen.
    + assert (filter P l = []) as Hnil by (destruct (filter P l); [done|simpl in Hlen; lia]).
      destruct i as [|i], j as [|j]; simpl in *; [done| | |].
      * exfalso. eapply filter_nil_not_elem_of; [exact Hnil|exact Hy|].
        by eapply list_elem_of_lookup_2.
      * exfalso. eapply filter_nil_not_elem_of; [exact Hnil|exact Hx|].
        by eapply list_elem_of_lookup_2.
      * exfalso. eapply filter_nil_not_elem_of; [exact Hnil|exact Hx|].
        by eapply list_elem_of_lookup_2.
    + destruct i as [|i], j as [|j]; simpl in *; simplify_eq; try done.
      f_equal. by eapply IH.
Qed.

(** The loop of [tick] turns exactly the listed keys to running. *)
Lemma startTasks_statusOf ks g k :
  (forall k', k' ∈ ks -> is_Some (allTasks g !! k')) ->
  (k ∈ ks -> statusOf (startTasks ks g) k = Some Running) /\
  (k ∉ ks -> statusOf (startTasks ks g) k = statusOf g k).
Proof.
  unfold startTasks. revert g. induction ks as [|k0 ks IH]; intros g Hks; simpl.
  - split; [by intros ?%elem_of_nil|done].
  - destruct (IH (setTaskStatus k0 Running g)) as [IHin IHout].
    { intros k' Hk'. unfold setTaskStatus; simpl.
      apply lookup_alter_is_Some. apply Hks. by right. }
    destruct (decide (k ∈ ks)) as [Hin|Hnin].
    + split; [auto|]. rewrite elem_of_cons. tauto.
    + rewrite IHout by done. rewrite elem_of_cons.
      destruct (decide (k0 = k)) as [->|Hne].
      * split; [|tauto]. intros _. apply statusOf_setTaskStatus_eq. apply Hks. by left.
      * rewrite statusOf_setTaskStatus_ne by done. split; [|done].
        intros [->|?]; done.
Qed.

(** ** Output capture *)

Section CacheOutputsProps.
Variable platform : Platform.
Variable fs : FileSystem.
Variables rootWorkspaceDir outDir outManifestPath : string.

Lemma copyCalls_app cs1 cs2 : copyCalls (cs1 ++ cs2) = copyCalls cs1 ++ copyCalls cs2.
Proof. apply List.filter_app. Qed.

(** One iteration of the loop on a file inside the workspace: it makes no
    [rimraf], and it attempts the copy of [file] unless it raised before. *)
Lemma cacheOutputFile_inside file s :
  startsWith file ".." = false ->
  exists new,
    calls (fst (cacheOutputFile platform fs rootWorkspaceDir outDir outManifestPath file s))
      = calls s ++ new /\
    Forall (fun c => isRimraf c = false) new /\
    (copyCalls new = [copyOf platform fs rootWorkspaceDir outDir file] \/
     (copyCalls new = [] /\
      isErr (snd (cacheOutputFile platform fs rootWorkspaceDir outDir outManifestPath
                    file s)))).
Proof.
  intros Hin. unfold cacheOutputFile, statSync, bindIO, perform, pureIO, isErr.
  rewrite Hin. simpl.
  destruct (raises fs (MkdirSync _)); simpl.
  { eexists [_]. split; [done|]. split; [by repeat constructor|]. right. eauto. }
  destruct (raises fs (StatSync _)); simpl.
  { eexists [_; _]. rewrite <- !app_assoc. split; [done|].
    split; [by repeat constructor|]. right. eauto. }
  destruct (raises fs (CopyFileWithMtime _ _ _)); simpl.
  { eexists [_; _; _]. rewrite <- !app_assoc. split; [done|].
    split; [by repeat constructor|]. by left. }
  destruct (raises fs (ManifestWrite _ _)); simpl.
  all: eexists [_; _; _; _]; rewrite <- !app_assoc; split; [done|];
    (split; [by repeat constructor|]); by left.
Qed.

Lemma cacheOutputFile_outside file s :
  startsWith file ".." = true ->
  cacheOutputFile platform fs rootWorkspaceDir outDir outManifestPath file s =
  (s, Err (LazyError ("output file is outside of workspace: " ++ file))).
Proof. intros Hout. unfold cacheOutputFile, throwIO. by rewrite Hout. Qed.

Lemma cacheOutputFile_quiet file s :
  (forall c, raises fs c = false) -> startsWith file ".." = false ->
  snd (cacheOutputFile platform fs rootWorkspaceDir outDir outManifestPath file s) = Ok tt.
Proof.
  intros Hq Hin. unfold cacheOutputFile, statSync, bindIO, perform, pureIO.
  rewrite Hin. simpl. by rewrite !Hq.
Qed.

(** The loop over a list that holds a file outside the workspace. *)
Lemma loop_outside files s file :
  file ∈ files -> startsWith file ".." = true ->
  let out :=
    forEachIO (cacheOutputFile platform fs rootWorkspaceDir outDir outManifestPath)
      files s in
  isErr (snd out) /\
  (exists new copied,
     calls (fst out) = calls s ++ new /\
     Forall (fun c => isRimraf c = false) new /\
     copied `prefix_of` files /\
     Forall (fun f => startsWith f ".." = false) copied /\
     copyCalls new = map (copyOf platform fs rootWorkspaceDir outDir) copied) /\
  ((forall c, raises fs c = false) ->
   exists first, first ∈ files /\ startsWith first ".." = true /\
     snd out = Err (LazyError ("output file is outside of workspace: " ++ first))).
Proof.
  intros Hfile Hout. revert s.
  induction files as [|f files IH]; intros s; [by apply elem_of_nil in Hfile|].
  simpl. unfold bindIO.
  destruct (startsWith f "..") eqn:Hf.
  - rewrite (cacheOutputFile_outside f s Hf). simpl. split; [by eexists|]. split.
    + exists [], []. rewrite app_nil_r. split; [done|]. split; [constructor|].
      split; [apply prefix_nil|]. split; [constructor|done].
    + intros _. exists f. split; [by left|done].
  - assert (file ∈ files) as Hrest.
    { apply elem_of_cons in Hfile as [->|?]; [congruence|done]. }
    destruct (cacheOutputFile_inside f s Hf) as (new & Hcalls & Hrm & Hcopy).
    pose proof (cacheOutputFile_quiet f s) as Hquiet.
    destruct (cacheOutputFile platform fs rootWorkspaceDir outDir outManifestPath f s)
      as [s1 [[]|e]] eqn:Hbody; simpl in *.
    + destruct (IH Hrest s1) as (Herr & (new' & copied & Hc' & Hrm' & Hpre & Hall & Hcp) & Hq).
      destruct Hcopy as [Hcopy|[_ [e He]]]; [|discriminate].
      split; [done|]. split.
      * exists (new ++ new'), (f :: copied). rewrite Hc', Hcalls, app_assoc.
        split; [done|]. split; [by apply Forall_app|].
        split; [by apply prefix_cons|]. split; [by constructor|].
        by rewrite copyCalls_app, Hcopy, Hcp.
      * intros Hno. destruct (Hq Hno) as (first & ? & ? & ?).
        exists first. split; [by right|done].
    + split; [by eexists|]. split.
      * destruct Hcopy as [Hcopy|[Hcopy _]].
        -- exists new, [f]. split; [done|]. split; [done|].
           split; [apply prefix_cons, prefix_nil|]. split; [by repeat constructor|done].
        -- exists new, []. split; [done|]. split; [done|].
           split; [apply prefix_nil|]. split; [constructor|done].
      * intros Hno. specialize (Hquiet Hno Hf). discriminate.
Qed.

(** The loop never calls [rimraf]. *)
Lemma loop_calls files s :
  exists new,
    calls (fst (forEachIO
                  (cacheOutputFile platform fs rootWorkspaceDir outDir outManifestPath)
                  files s)) = calls s ++ new /\
    Forall (fun c => isRimraf c = false) new.
Proof.
  revert s. induction files as [|f files IH]; intros s; simpl.
  { exists []. by rewrite app_nil_r. }
  unfold bindIO.
  destruct (startsWith f "..") eqn:Hf.
  - rewrite cacheOutputFile_outside by done. simpl. exists []. by rewrite app_nil_r.
  - destruct (cacheOutputFile_inside f s Hf) as (new & Hcalls & Hrm & _).
    destruct (cacheOutputFile _ _ _ _ _ f s) as [s1 [[]|e]]; simpl in *.
    + destruct (IH s1) as (new' & Hc' & Hrm').
      exists (new ++ new'). rewrite Hc', Hcalls, app_assoc. split; [done|].
      by apply Forall_app.
    + by exists new.
Qed.

End CacheOutputsProps.

Section CacheOutputsTop.
Local Arguments forEachIO : simpl never.
Variable platform : Platform.
Variable config : Config.
Variable fs : FileSystem.

(** The deletions come first, whatever the output files are, and no
    later call deletes anything. *)
Lemma cacheOutputs_deletes_first outputFiles s :
  let out := cacheOutputs platform config fs outputFiles s in
  (raises fs (Rimraf (outDirOf config s)) = true /\
   calls (fst out) = calls s ++ [Rimraf (outDirOf config s)] /\ isErr (snd out)) \/
  (raises fs (Rimraf (outDirOf config s)) = false /\
   exists rest,
     calls (fst out) =
       calls s ++ Rimraf (outDirOf config s) :: Rimraf (outManifestPathOf config s) :: rest /\
     Forall (fun c => isRimraf c = false) rest).
Proof.
  unfold cacheOutputs, bindIO, perform, assignOutputFiles.
  fold (outDirOf config s). fold (outManifestPathOf config s). simpl.
  destruct (raises fs (Rimraf (outDirOf config s))); simpl.
  { left. split; [done|]. split; [done|by eexists]. }
  right. split; [done|].
  destruct (raises fs (Rimraf (outManifestPathOf config s))); simpl.
  { exists []. split; [by rewrite <- app_assoc|constructor]. }
  destruct outputFiles as [[|f files]|]; simpl.
  1,3: exists []; split; [by rewrite <- app_assoc|constructor].
  destruct (raises fs (MkdirSync (outDirOf config s))); simpl.
  { exists [MkdirSync (outDirOf config s)]. split; [by rewrite <- !app_assoc|by repeat constructor]. }
  match goal with
  | |- context [forEachIO ?body ?l ?s0] =>
      destruct (loop_calls platform fs (Workspace.dir (root (project config)))
                  (outDirOf config s) (outManifestPathOf config s) l s0) as (new & Hc & Hrm);
      destruct (forEachIO body l s0) as [s1 [[]|e]]
  end; simpl in *.
  - destruct (raises fs (ManifestClose (outManifestPathOf config s))); simpl;
      exists (MkdirSync (outDirOf config s) :: new ++ [ManifestClose (outManifestPathOf config s)]);
      (split; [rewrite Hc; by rewrite <- !app_assoc|]);
      constructor; [done| |done|]; apply Forall_app; split; try done;
      by repeat constructor.
  - exists (MkdirSync (outDirOf config s) :: new).
    split; [rewrite Hc; by rewrite <- !app_assoc|]. by constructor.
Qed.

(** A listed file outside the workspace makes the capture fail; the
    copies attempted are those of files before it. *)
Lemma cacheOutputs_outside files s file :
  file ∈ files -> startsWith file ".." = true ->
  let out := cacheOutputs platform config fs (Some files) s in
  isErr (snd out) /\
  (exists new copied,
     calls (fst out) = calls s ++ new /\
     copied `prefix_of` files /\
     Forall (fun f => startsWith f ".." = false) copied /\
     copyCalls new =
       map (copyOf platform fs (Workspace.dir (root (project config))) (outDirOf config s))
         copied) /\
  ((forall c, raises fs c = false) ->
   exists first, first ∈ files /\ startsWith first ".." = true /\
     snd out = Err (LazyError ("output file is outside of workspace: " ++ first))).
Proof.
  intros Hfile Hout.
  unfold cacheOutputs, bindIO, perform, assignOutputFiles.
  fold (outDirOf config s). fold (outManifestPathOf config s).
  destruct files as [|f0 files0] eqn:Hfiles; [by apply elem_of_nil in Hfile|].
  simpl.
  destruct (raises fs (Rimraf (outDirOf config s))) eqn:R1; simpl.
  { split; [by eexists|]. split.
    - exists [Rimraf (outDirOf config s)], []. split; [done|]. split; [apply prefix_nil|].
      split; [constructor|done].
    - intros Hq. rewrite Hq in R1. discriminate. }
  destruct (raises fs (Rimraf (outManifestPathOf config s))) eqn:R2; simpl.
  { split; [by eexists|]. split.
    - exists [Rimraf (outDirOf config s); Rimraf (outManifestPathOf config s)], [].
      split; [by rewrite <- app_assoc|]. split; [apply prefix_nil|].
      split; [constructor|done].
    - intros Hq. rewrite Hq in R2. discriminate. }
  destruct (raises fs (MkdirSync (outDirOf config s))) eqn:R3; simpl.
  { split; [by eexists|]. split.
    - exists [Rimraf (outDirOf config s); Rimraf (outManifestPathOf config s); MkdirSync (outDirOf config s)], [].
      split; [by rewrite <- !app_assoc|]. split; [apply prefix_nil|].
      split; [constructor|done].
    - intros Hq. rewrite Hq in R3. discriminate. }
  match goal with
  | |- context [forEachIO ?body ?l ?s0] =>
      destruct (loop_outside platform fs (Workspace.dir (root (project config)))
                  (outDirOf config s) (outManifestPathOf config s) l s0 file Hfile Hout)
        as ([e He] & (new & copied & Hc & _ & Hpre & Hall & Hcp) & Hq);
      destruct (forEachIO body l s0) as [s1 r]
  end; simpl in *. subst r.
  split; [by eexists|]. split; [|done].
  exists ([Rimraf (outDirOf config s); Rimraf (outManifestPathOf config s); MkdirSync (outDirOf config s)] ++ new),
    copied.
  split; [simpl; rewrite Hc; by rewrite <- !app_assoc|]. split; [done|]. split; [done|].
  by rewrite copyCalls_app.
Qed.

End CacheOutputsTop.

(** ** The sample monorepo *)

Lemma Sample_lookupByDirSound ws : lookupByDirSound (Sample.configOf ws).
Proof.
  intros d w. simpl. unfold Sample.findByDir. intros H.
  apply List.find_some in H as [_ H]. by apply String.eqb_eq in H.
Qed.

Lemma Sample_buildGraph_fresh : freshGraph Sample.buildGraph.
Proof.
  apply (TaskGraph_new_fresh Sample.platform Sample.config
           (Sample_lookupByDirSound _) 10 [Sample.request "build" []]).
  vm_compute. reflexivity.
Qed.

Example Sample_lint_graph :
  TaskGraph_new Sample.platform Sample.config 10 [Sample.request "lint" []]
    = Ok Sample.lintGraph /\
  sortedTaskKeys Sample.lintGraph =
  ["lint::/repo/packages/core"; "lint::/repo/packages/ui";
   "lint::/repo/packages/utils"; "lint::/repo/apps/web"] /\
  allReadyTaskKeys Sample.lintGraph =
  Ok ["lint::/repo/apps/web"; "lint::/repo/packages/core";
      "lint::/repo/packages/ui"; "lint::/repo/packages/utils"].
Proof. vm_compute. done. Qed.

Example Sample_test_graph :
  TaskGraph_new Sample.platform Sample.config 10 [Sample.request "test" []]
    = Ok Sample.testGraph /\
  sortedTaskKeys Sample.testGraph =
  ["build::/repo/packages/utils"; "build::/repo/packages/core";
   "test::/repo/packages/core"; "build::/repo/packages/ui";
   "test::/repo/packages/ui"; "test::/repo/packages/utils"].
Proof. vm_compute. done. Qed.

(** Five levels of nested visits are enough for [deploy]; any larger bound
    gives the same graph. *)
Example Sample_deploy_any_fuel n :
  TaskGraph_new Sample.platform Sample.config (5 + n) [Sample.request "deploy" []]
    = Ok Sample.deployGraph.
Proof.
  rewrite TaskGraph_new_more_fuel; [vm_compute; reflexivity|].
  vm_compute. discriminate.
Qed.

Example Sample_build_order :
  sortedTaskKeys Sample.buildGraph =
  ["build::/repo/packages/utils"; "build::/repo/packages/core";
   "build::/repo/packages/ui"; "build::/repo/apps/web"].
Proof. vm_compute. reflexivity. Qed.

(** [utils] is reached from [core] and again from [ui]: no cycle is
    reported. A true cycle is. *)
Example Sample_cycle_reported :
  TaskGraph_new Sample.platform Sample.cyclicConfig 10 [Sample.request "build" []] =
  Err (LazyError
         (circularDependencyMessage Sample.platform
            ["build::/repo/packages/ping"; "build::/repo/packages/pong"]
            "build::/repo/packages/ping")).
Proof. vm_compute. reflexivity. Qed.

Lemma Sample_buildRun1_reachable : reachable 1 Sample.buildGraph Sample.buildRun1.
Proof.
  eapply reachable_step; [apply reachable_start|].
  apply (step_start 1 Sample.buildRun0 Sample.utilsBuildKey []).
  vm_compute. reflexivity.
Qed.

Lemma Sample_buildRun2_reachable : reachable 1 Sample.buildGraph Sample.buildRun2.
Proof.
  eapply reachable_step; [apply Sample_buildRun1_reachable|].
  apply (step_finish 1 Sample.buildRun1 [] Sample.utilsBuildKey [] true false).
  - reflexivity.
  - vm_compute. reflexivity.
Qed.

(** The build of [utils] has failed: the run is resolved, and the three
    builds that depend on it are still pending. *)
Example Sample_failure_leaves_dependents_pending :
  resolved Sample.buildRun2 = true /\
  map (statusOf (graph Sample.buildRun2)) (sortedTaskKeys Sample.buildGraph) =
  [Some Failure; Some Pending; Some Pending; Some Pending].
Proof. vm_compute. done. Qed.

(** ** The claims *)

(** C1. For every project and request list on which the construction of
    the task graph completes (it returns a graph, hence raised no cycle
    error), the node map [allTasks] and the list [sortedTaskKeys] hold the
    same key set, every key in a node's [dependencies] has a node in the
    map, and [sortedTaskKeys] is a topological order: each node's
    dependency keys occur strictly before the node's own key. *)
Theorem C1_constructed_graph_is_topologically_sorted
    platform config fuel requestedTasks g :
  lookupByDirSound config ->
  TaskGraph_new platform config fuel requestedTasks = Ok g ->
  sameKeySet g /\ noDanglingEdges g /\ dependenciesFirst g.
Proof.
  intros HbyDir Hnew.
  destruct (TaskGraph_new_Inv platform config HbyDir fuel requestedTasks g Hnew)
    as [ND DOM _ TOPO _].
  assert (forall k, is_Some (allTasks g !! k) <-> k ∈ sortedTaskKeys g) as Hdom.
  { intros k. rewrite DOM. split; [intros [?|?%elem_of_nil]; done|by left]. }
  assert (dependenciesFirst g) as Htopo.
  { intros i k t d Hi Hk Hd. apply (TOPO i k d Hi). unfold depsOf. by rewrite Hk. }
  split; [by split|]. split; [|done].
  intros k t d Hk Hd.
  assert (k ∈ sortedTaskKeys g) as Hin by (apply Hdom; eauto).
  apply list_elem_of_lookup_1 in Hin as [i Hi].
  destruct (Htopo i k t d Hi Hk Hd) as (j & _ & Hj).
  apply Hdom. by eapply list_elem_of_lookup_2.
Qed.

Lemma C1_witness :
  lookupByDirSound Sample.config /\
  TaskGraph_new Sample.platform Sample.config 10 [Sample.request "deploy" []]
    = Ok Sample.deployGraph /\
  sameKeySet Sample.deployGraph /\ noDanglingEdges Sample.deployGraph /\
  dependenciesFirst Sample.deployGraph.
Proof.
  assert (lookupByDirSound Sample.config) as H1 by apply Sample_lookupByDirSound.
  assert (TaskGraph_new Sample.platform Sample.config 10 [Sample.request "deploy" []]
          = Ok Sample.deployGraph) as H2 by (vm_compute; reflexivity).
  split; [exact H1|]. split; [exact H2|].
  exact (C1_constructed_graph_is_topologically_sorted _ _ _ _ _ H1 H2).
Defined.

(** C2. In every execution of [runAllTasks], a task goes from pending to
    running only when every key of its [dependencies] has a status that
    starts with [success]; so a task with a dependency whose status is
    [failure] was never started and is never started: it is pending at
    every state of the execution, before and after the failure, and in
    particular when [runAllTasks] resolves. *)
Theorem C2_started_only_after_dependencies_succeeded max g c :
  freshGraph g -> reachable max g c ->
  (forall c' k,
     step max c c' ->
     statusOf (graph c) k = Some Pending -> statusOf (graph c') k = Some Running ->
     forall d, d ∈ depsOf (graph c) k -> isSuccessOf (graph c) d) /\
  (forall k d,
     d ∈ depsOf (graph c) k -> statusOf (graph c) d = Some Failure ->
     forall c1,
       reachable max g c1 -> rtc (step max) c1 c \/ rtc (step max) c c1 ->
       statusOf (graph c1) k = Some Pending).
Proof.
  intros Hfresh Hreach. pose proof (reachable_inv _ _ _ Hfresh Hreach) as HI.
  split.
  - intros c' k Hstep Hpend Hrun d Hd.
    destruct Hstep as [c k0 rest Hst | c before k0 after dr ds Hst Hw]; simpl in Hrun.
    + destruct (decide (k0 = k)) as [->|Hne].
      * destruct (ci_starting _ _ HI k) as (_ & Hdeps & _); [rewrite Hst; by left|].
        by apply Hdeps.
      * rewrite statusOf_setTaskStatus_ne in Hrun by done. congruence.
    + rewrite graph_invokeTick in Hrun. destruct (decide (k0 = k)) as [->|Hne].
      * rewrite statusOf_setTaskStatus_eq in Hrun by (by eapply statusOf_is_Some).
        destruct (finalStatus_cases dr ds). congruence.
      * rewrite statusOf_setTaskStatus_ne in Hrun by done. congruence.
  - intros k d Hd Hfail c1 Hreach1 [Hbefore|Hafter].
    + eapply steps_pending_before; [exact Hbefore|].
      by eapply failed_dependency_pending.
    + pose proof (reachable_inv _ _ _ Hfresh Hreach1) as HI1.
      eapply (failed_dependency_pending max c1 k d HI1).
      * by rewrite (steps_depsOf _ _ _ k Hafter).
      * by apply (steps_terminal max c c1 d Failure HI Hafter Hfail).
Qed.

Lemma C2_witness :
  freshGraph Sample.buildGraph /\
  reachable 1 Sample.buildGraph Sample.buildRun2 /\
  (forall c' k,
     step 1 Sample.buildRun2 c' ->
     statusOf (graph Sample.buildRun2) k = Some Pending ->
     statusOf (graph c') k = Some Running ->
     forall d, d ∈ depsOf (graph Sample.buildRun2) k ->
               isSuccessOf (graph Sample.buildRun2) d) /\
  (forall k d,
     d ∈ depsOf (graph Sample.buildRun2) k ->
     statusOf (graph Sample.buildRun2) d = Some Failure ->
     forall c1,
       reachable 1 Sample.buildGraph c1 ->
       rtc (step 1) c1 Sample.buildRun2 \/ rtc (step 1) Sample.buildRun2 c1 ->
       statusOf (graph c1) k = Some Pending).
Proof.
  split; [exact Sample_buildGraph_fresh|]. split; [exact Sample_buildRun2_reachable|].
  exact (C2_started_only_after_dependencies_succeeded 1 Sample.buildGraph
           Sample.buildRun2 Sample_buildGraph_fresh Sample_buildRun2_reachable).
Defined.

(** C3. In every execution of [runAllTasks], at every point (between the
    iterations of the loop of [tick] included) the number of tasks whose
    status is running is at most [maxConcurrentTasks]; and
    [maxConcurrentTasks] is 2 when the force-parallel variable is set,
    otherwise 1 in test mode, otherwise max(1, cpuCount - 1). *)
Theorem C3_running_tasks_bounded env g c :
  freshGraph g -> reachable (maxConcurrentTasks env) g c ->
  (Z.of_nat (runningCount (graph c)) <= maxConcurrentTasks env)%Z /\
  (truthy (FORCE_PARALLEL env) = true -> maxConcurrentTasks env = 2%Z) /\
  (truthy (FORCE_PARALLEL env) = false -> isTest env = true ->
   maxConcurrentTasks env = 1%Z) /\
  (truthy (FORCE_PARALLEL env) = false -> isTest env = false ->
   maxConcurrentTasks env = Z.max 1 (numCpus env - 1)).
Proof.
  intros Hfresh Hreach. split; [exact (running_bound env g c Hfresh Hreach)|].
  unfold maxConcurrentTasks.
  split; [by intros ->|]. split; by intros -> ->.
Qed.

Lemma C3_witness :
  freshGraph Sample.buildGraph /\
  reachable (maxConcurrentTasks Sample.testEnv) Sample.buildGraph Sample.buildRun1 /\
  (Z.of_nat (runningCount (graph Sample.buildRun1)) <= maxConcurrentTasks Sample.testEnv)%Z.
Proof.
  split; [exact Sample_buildGraph_fresh|]. split; [exact Sample_buildRun1_reachable|].
  exact (proj1 (C3_running_tasks_bounded Sample.testEnv Sample.buildGraph
                  Sample.buildRun1 Sample_buildGraph_fresh Sample_buildRun1_reachable)).
Defined.

(** C4, as the specification states it, fails: with two free slots and the
    four [lint] tasks ready, the tick starts [web] and [core], while the
    first two keys of the sorted key list are [core] and [ui]. *)
Lemma C4_counterexample : ~ spec_startsInConstructionOrder 2 Sample.lintGraph.
Proof.
  intros H.
  specialize (H ["lint::/repo/apps/web"; "lint::/repo/packages/core"]
                ["lint::/repo/packages/core"; "lint::/repo/packages/ui";
                 "lint::/repo/packages/utils"; "lint::/repo/apps/web"]).
  assert (["lint::/repo/apps/web"; "lint::/repo/packages/core"] =
          ["lint::/repo/packages/core"; "lint::/repo/packages/ui"]) as Habs.
  { apply H; vm_compute; reflexivity. }
  discriminate Habs.
Qed.

(** C4, amended. When more ready tasks exist than free worker slots at a
    tick, the tasks started are the first min(free slots, ready) keys of
    the ready keys put in ascending order of the key strings (the
    [sort()] of [allReadyTaskKeys]): every started key is at most every
    ready key left waiting.  The sorted key list only decides, before
    the sort, which non-parallel task of a script name is kept. *)
Theorem C4_starts_in_key_order max g taskKeys :
  tickDecision max g = Ok (Start taskKeys) ->
  exists running ready waiting,
    allRunningTaskKeys g = Ok running /\
    readyInConstructionOrder g = Ok ready /\
    allReadyTaskKeys g = Ok (taskKeys ++ waiting) /\
    taskKeys ++ waiting ≡ₚ ready /\
    StronglySorted String.le (taskKeys ++ waiting) /\
    (forall k k', k ∈ taskKeys -> k' ∈ waiting -> String.le k k') /\
    Z.of_nat (length taskKeys) =
      Z.min (max - Z.of_nat (length running)) (Z.of_nat (length ready)) /\
    taskKeys <> [].
Proof.
  intros H.
  destruct (tickDecision_Start _ _ _ H)
    as (running & cands & kept & Hrun & Hc & Hkept & Hroom & Hks).
  set (n := Z.to_nat (Z.min (max - Z.of_nat (length running)) (Z.of_nat (length kept)))) in *.
  assert (js_sort kept = taskKeys ++ drop n (js_sort kept)) as Hsplit.
  { rewrite Hks. symmetry. apply take_drop. }
  assert (kept <> []) as Hne.
  { intros ->. unfold tickDecision, allReadyTaskKeys in H.
    rewrite Hrun, Hc in H. simpl in H. rewrite Hkept in H. simpl in H.
    destruct running; simpl in H; [discriminate|].
    destruct (Z.leb_spec max (Z.of_nat (S (length running)))); discriminate. }
  assert (0 < length kept)%nat as Hlen by (destruct kept; [done|simpl; lia]).
  exists running, kept, (drop n (js_sort kept)).
  split; [done|]. split; [unfold readyInConstructionOrder; by rewrite Hc|].
  split; [unfold allReadyTaskKeys; rewrite Hc; simpl; rewrite Hkept; simpl; by rewrite <- Hsplit|].
  split; [rewrite <- Hsplit; apply js_sort_Permutation|].
  pose proof (js_sort_sorted kept) as Hsorted. rewrite Hsplit in Hsorted.
  split; [done|]. split.
  - intros k k' Hk Hk'. revert Hk.
    induction taskKeys as [|x xs IH] in Hsorted |- *; [by intros ?%elem_of_nil|].
    simpl in Hsorted. apply StronglySorted_inv in Hsorted as [Hs Hall].
    intros [->|Hin]%elem_of_cons; [|by apply IH].
    rewrite Forall_forall in Hall. apply Hall. apply elem_of_app. by right.
  - assert (length taskKeys = n) as Hn.
    { rewrite Hks, length_take, (Permutation_length (js_sort_Permutation kept)).
      subst n. lia. }
    split; [rewrite Hn; subst n; lia|].
    intros ->. simpl in Hn. subst n. lia.
Qed.

Lemma C4_witness :
  tickDecision 2 Sample.lintGraph =
    Ok (Start ["lint::/repo/apps/web"; "lint::/repo/packages/core"]) /\
  exists waiting,
    allReadyTaskKeys Sample.lintGraph =
      Ok (["lint::/repo/apps/web"; "lint::/repo/packages/core"] ++ waiting) /\
    forall k k',
      k ∈ ["lint::/repo/apps/web"; "lint::/repo/packages/core"] -> k' ∈ waiting ->
      String.le k k'.
Proof.
  assert (tickDecision 2 Sample.lintGraph =
            Ok (Start ["lint::/repo/apps/web"; "lint::/repo/packages/core"])) as H
    by (vm_compute; reflexivity).
  split; [exact H|].
  destruct (C4_starts_in_key_order 2 Sample.lintGraph _ H)
    as (running & ready & waiting & _ & _ & Hall & _ & _ & Hle & _).
  exists waiting. split; [exact Hall|exact Hle].
Defined.

(** C5. In a single invocation of [tick], among the tasks it turns to
    running there is at most one task with [parallel] false per script
    name: two started keys that are non-parallel tasks of the same script
    are the same key, so the other ready non-parallel tasks of that script
    are not started in that tick.  The tasks turned to running are exactly
    the keys the tick lists. *)
Theorem C5_one_unparallelizable_task_per_script max g g' taskKeys :
  tick max g = Ok (g', Start taskKeys) ->
  (forall script, unparallelizableCount g script taskKeys <= 1) /\
  (forall script k1 k2,
     k1 ∈ taskKeys -> k2 ∈ taskKeys ->
     isUnparallelizable g script k1 = true -> isUnparallelizable g script k2 = true ->
     k1 = k2) /\
  (forall k, k ∈ taskKeys ->
     statusOf g k = Some Pending /\ statusOf g' k = Some Running) /\
  (forall k, k ∉ taskKeys -> statusOf g' k = statusOf g k).
Proof.
  unfold tick. intros H. apply bind_Ok in H as (d & Hd & H).
  assert (d = Start taskKeys /\ g' = startTasks taskKeys g) as [-> ->].
  { destruct d; inversion H; subst; done. }
  clear H.
  assert (forall k, k ∈ taskKeys -> statusOf g k = Some Pending) as Hpending.
  { intros k Hk. destruct (Start_elem_of _ _ _ k Hd Hk) as [_ Hr].
    by apply isTaskReady_true in Hr as [? _]. }
  assert (forall k', k' ∈ taskKeys -> is_Some (allTasks g !! k')) as Hnodes.
  { intros k' Hk'. eapply statusOf_is_Some. by apply Hpending. }
  split; [intros script; by eapply Start_unparallelizableCount|]. split.
  - intros script k1 k2 Hk1 Hk2 Hu1 Hu2.
    apply list_elem_of_lookup_1 in Hk1 as [i Hi].
    apply list_elem_of_lookup_1 in Hk2 as [j Hj].
    assert (i = j) as ->.
    { eapply (count_le_1_unique (fun k => isUnparallelizable g script k = true));
        [by eapply Start_unparallelizableCount|exact Hi|exact Hj|done|done]. }
    congruence.
  - split.
    + intros k Hk. split; [by apply Hpending|].
      by apply (startTasks_statusOf taskKeys g k Hnodes).
    + intros k Hk. by apply (startTasks_statusOf taskKeys g k Hnodes).
Qed.

Lemma C5_witness :
  tick 3 Sample.testGraphBuilt =
    Ok (startTasks ["test::/repo/packages/core"] Sample.testGraphBuilt,
        Start ["test::/repo/packages/core"]) /\
  readyInConstructionOrder Sample.testGraphBuilt = Ok ["test::/repo/packages/core"] /\
  forall script, unparallelizableCount Sample.testGraphBuilt script
                   ["test::/repo/packages/core"] <= 1.
Proof.
  assert (tick 3 Sample.testGraphBuilt =
            Ok (startTasks ["test::/repo/packages/core"] Sample.testGraphBuilt,
                Start ["test::/repo/packages/core"])) as H by (vm_compute; reflexivity).
  split; [exact H|]. split; [vm_compute; reflexivity|].
  exact (proj1 (C5_one_unparallelizable_task_per_script 3 _ _ _ H)).
Defined.

(** C6. When [visit] reaches a key that is already in the node map: if the
    key is on the visitation path, the construction fails with the
    circular-dependency error, whose message lists the path and the key;
    otherwise [visit] returns without error and leaves the graph, hence
    the existing node, as it was. *)
Theorem C6_visit_of_a_scheduled_key platform config fuel path requestedTask workspace g :
  let key := getTaskKey config (Workspace.dir workspace)
               (RequestedTask.scriptName requestedTask) in
  is_Some (allTasks g !! key) ->
  (key ∈ path ->
   visit platform config (S fuel) path requestedTask workspace g =
   Err (LazyError (circularDependencyMessage platform path key))) /\
  (key ∉ path ->
   visit platform config (S fuel) path requestedTask workspace g = Ok g).
Proof.
  intros key [t Ht]. simpl. fold key. rewrite Ht. unfold includes, logger_fail.
  split; intros Hpath.
  - by rewrite bool_decide_eq_true_2.
  - by rewrite bool_decide_eq_false_2.
Qed.

Lemma C6_witness :
  is_Some (allTasks Sample.buildGraph !! "build::/repo/packages/utils") /\
  visit Sample.platform Sample.config 1
    ["build::/repo/apps/web"; "build::/repo/packages/ui"]
    (Sample.request "build" []) Sample.utils Sample.buildGraph = Ok Sample.buildGraph /\
  visit Sample.platform Sample.config 1
    ["build::/repo/packages/utils"; "build::/repo/packages/ui"]
    (Sample.request "build" []) Sample.utils Sample.buildGraph =
  Err (LazyError
         (circularDependencyMessage Sample.platform
            ["build::/repo/packages/utils"; "build::/repo/packages/ui"]
            "build::/repo/packages/utils")).
Proof.
  assert (is_Some (allTasks Sample.buildGraph !! "build::/repo/packages/utils")) as H
    by (vm_compute; eauto).
  split; [exact H|]. split.
  - apply (C6_visit_of_a_scheduled_key Sample.platform Sample.config 0
             ["build::/repo/apps/web"; "build::/repo/packages/ui"]
             (Sample.request "build" []) Sample.utils Sample.buildGraph H).
    intros Hin. by repeat (apply elem_of_cons in Hin as [Hin|Hin]; [discriminate|]);
      apply elem_of_nil in Hin.
  - apply (C6_visit_of_a_scheduled_key Sample.platform Sample.config 0
             ["build::/repo/packages/utils"; "build::/repo/packages/ui"]
             (Sample.request "build" []) Sample.utils Sample.buildGraph H).
    by left.
Defined.

(** C7. For every requested task, [enqueueTask] visits its target
    workspaces in order, pushing each key before the visit, where: for a
    top-level script the sole target is the project root workspace;
    otherwise the candidate directories are all workspace directories when
    the filter paths are empty, and otherwise the union of the micromatch
    matches of each filter pattern (the pattern itself when absolute,
    joined to the project root when relative) against the workspace
    directories; and only the workspaces whose [scripts] declare the
    script (with a non-empty command) are kept. *)
Theorem C7_enqueueTask_targets platform config visit path requestedTask dependencies g :
  let scriptName := RequestedTask.scriptName requestedTask in
  let candidates :=
    filterPackageDirs platform (Workspace.dir (root (project config)))
      (project config) (RequestedTask.filterPaths requestedTask) in
  (isTopLevelScript config scriptName = false ->
   forall d, d ∈ candidates ->
     exists w, getWorkspaceByDir (project config) d = Some w /\ Workspace.dir w = d) ->
  enqueueTask_with platform config visit path requestedTask dependencies g =
    forEach
      (fun w this =>
         visit path requestedTask w
           (pushDependencyOf dependencies
              (getTaskKey config (Workspace.dir w) scriptName) this))
      (spec_targetWorkspaces platform config requestedTask) g /\
  (isTopLevelScript config scriptName = true ->
   spec_targetWorkspaces platform config requestedTask = [root (project config)]) /\
  (isTopLevelScript config scriptName = false ->
   forall w,
     w ∈ spec_targetWorkspaces platform config requestedTask <->
     exists d, d ∈ candidates /\
       getWorkspaceByDir (project config) d = Some w /\
       truthy (Workspace.scripts w !! scriptName) = true) /\
  (forall d,
     d ∈ candidates <->
     (RequestedTask.filterPaths requestedTask = [] /\
      d ∈ map fst (workspacesByDir (project config))) \/
     (exists pattern,
        pattern ∈ RequestedTask.filterPaths requestedTask /\
        d ∈ spec_patternMatches platform config pattern)).
Proof.
  intros scriptName candidates Hlookup. split; [|split; [|split]].
  - destruct (isTopLevelScript config scriptName) eqn:Htop.
    + unfold enqueueTask_with, spec_targetWorkspaces. fold scriptName. rewrite Htop.
      simpl. by destruct (visit _ _ _ _).
    + apply enqueueTask_targets. by apply Hlookup.
  - intros Htop. unfold spec_targetWorkspaces. fold scriptName. by rewrite Htop.
  - intros Htop w. by apply spec_targetWorkspaces_elem_of.
  - intros d. apply filterPackageDirs_elem_of.
Qed.

Lemma C7_witness :
  let requestedTask :=
    Sample.request "test" ["packages/core"; "/repo/packages/ui"; "packages/core"] in
  spec_targetWorkspaces Sample.platform Sample.config requestedTask
    = [Sample.core; Sample.ui] /\
  enqueueTask_with Sample.platform Sample.config (visit Sample.platform Sample.config 5)
    [] requestedTask None emptyGraph =
  forEach
    (fun w this =>
       visit Sample.platform Sample.config 5 [] requestedTask w
         (pushDependencyOf None (getTaskKey Sample.config (Workspace.dir w) "test") this))
    [Sample.core; Sample.ui] emptyGraph.
Proof.
  intros requestedTask.
  assert (spec_targetWorkspaces Sample.platform Sample.config requestedTask
          = [Sample.core; Sample.ui]) as Htargets by (vm_compute; reflexivity).
  split; [exact Htargets|].
  rewrite <- Htargets.
  apply (C7_enqueueTask_targets Sample.platform Sample.config
           (visit Sample.platform Sample.config 5) [] requestedTask None emptyGraph).
  intros _ d Hd. vm_compute in Hd.
  apply elem_of_cons in Hd as [->|Hd]; [exists Sample.core; by vm_compute|].
  apply elem_of_cons in Hd as [->|Hd]; [exists Sample.ui; by vm_compute|].
  by apply elem_of_nil in Hd.
Defined.

(** C8. During output capture, an output file whose path relative to the
    project root begins with [..] makes [cacheOutputs] raise: the run ends
    in an exception whatever the file system does; the copies it attempted
    are those of a prefix of the list made of files that do not begin with
    [..], so no such file is copied into the cache; and when no file-system
    call raises, the exception is the fatal error
    [output file is outside of workspace] for a listed file that begins
    with [..]. *)
Theorem C8_outside_output_file_is_fatal platform config fs files s file :
  file ∈ files -> startsWith file ".." = true ->
  let out := cacheOutputs platform config fs (Some files) s in
  isErr (snd out) /\
  (exists new copied,
     calls (fst out) = calls s ++ new /\
     copied `prefix_of` files /\
     Forall (fun f => startsWith f ".." = false) copied /\
     copyCalls new =
       map (copyOf platform fs (Workspace.dir (root (project config)))
              (outDirOf config s)) copied) /\
  ((forall c, raises fs c = false) ->
   exists first, first ∈ files /\ startsWith first ".." = true /\
     snd out = Err (LazyError ("output file is outside of workspace: " ++ first))).
Proof. apply cacheOutputs_outside. Qed.

Lemma C8_witness :
  let files := ["packages/core/dist/a.js"; "../outside.txt"; "packages/core/dist/b.js"] in
  let out := cacheOutputs Sample.platform Sample.config Sample.quietFs (Some files)
               Sample.coreBuild in
  "../outside.txt" ∈ files /\ startsWith "../outside.txt" ".." = true /\
  isErr (snd out) /\
  copyCalls (calls (fst out)) =
    [copyOf Sample.platform Sample.quietFs "/repo"
       "/repo/packages/core/.lazy/build/output" "packages/core/dist/a.js"].
Proof.
  intros files out.
  assert ("../outside.txt" ∈ files) as H1 by (right; left).
  assert (startsWith "../outside.txt" ".." = true) as H2 by reflexivity.
  split; [exact H1|]. split; [exact H2|].
  split; [|vm_compute; reflexivity].
  exact (proj1 (C8_outside_output_file_is_fatal Sample.platform Sample.config
                  Sample.quietFs files Sample.coreBuild "../outside.txt" H1 H2)).
Defined.

(** C9. [cacheOutputs] deletes the cached output directory and the output
    manifest first, whatever the output files are, before any file is
    validated or copied, and deletes nothing afterwards; so a run that
    raises later has already deleted the previous cache, and may leave
    part of a new one: in the sample, the first file was copied and its
    manifest line written when the second file was rejected. *)
Theorem C9_capture_deletes_the_cache_first platform config fs outputFiles s :
  let out := cacheOutputs platform config fs outputFiles s in
  ((raises fs (Rimraf (outDirOf config s)) = true /\
    calls (fst out) = calls s ++ [Rimraf (outDirOf config s)] /\ isErr (snd out)) \/
   (raises fs (Rimraf (outDirOf config s)) = false /\
    exists rest,
      calls (fst out) =
        calls s ++ Rimraf (outDirOf config s)
                :: Rimraf (outManifestPathOf config s) :: rest /\
      Forall (fun c => isRimraf c = false) rest)) /\
  (let out' :=
     cacheOutputs Sample.platform Sample.config Sample.quietFs
       (Some ["packages/core/dist/a.js"; "../outside.txt"]) Sample.coreBuild in
   snd out' = Err (LazyError "output file is outside of workspace: ../outside.txt") /\
   calls (fst out') =
     [Rimraf "/repo/packages/core/.lazy/build/output";
      Rimraf "/repo/packages/core/.lazy/build/output-manifest.tsv";
      MkdirSync "/repo/packages/core/.lazy/build/output";
      MkdirSync "/repo/packages/core/.lazy/build/output/packages/core/dist";
      StatSync "/repo/packages/core/dist/a.js";
      CopyFileWithMtime "/repo/packages/core/dist/a.js"
        "/repo/packages/core/.lazy/build/output/packages/core/dist/a.js"
        1700000000000;
      ManifestWrite "/repo/packages/core/.lazy/build/output-manifest.tsv"
        ("packages/core/dist/a.js" ++ tab ++ "1700000000000" ++ nl)]).
Proof.
  split; [apply cacheOutputs_deletes_first|].
  split; vm_compute; reflexivity.
Qed.

(** C10. The force-parallel variable takes precedence over test mode: in
    test mode, [maxConcurrentTasks] is 2 when the variable is set, and it
    is 1 exactly when the variable is not set. *)
Theorem C10_force_parallel_overrides_test_mode env :
  isTest env = true ->
  (truthy (FORCE_PARALLEL env) = true -> maxConcurrentTasks env = 2%Z) /\
  (maxConcurrentTasks env = 1%Z <-> truthy (FORCE_PARALLEL env) = false).
Proof.
  intros Htest. unfold maxConcurrentTasks. rewrite Htest.
  destruct (truthy (FORCE_PARALLEL env)); split; try done; split; done.
Qed.

Lemma C10_witness :
  isTest Sample.forcedTestEnv = true /\
  maxConcurrentTasks Sample.forcedTestEnv = 2%Z /\
  maxConcurrentTasks Sample.testEnv = 1%Z.
Proof.
  split; [reflexivity|]. split.
  - exact (proj1 (C10_force_parallel_overrides_test_mode Sample.forcedTestEnv eq_refl)
             eq_refl).
  - exact (proj2 (proj2 (C10_force_parallel_overrides_test_mode Sample.testEnv eq_refl))
             eq_refl).
Defined.

(** * Further properties

    What the code shows beyond the statements above: the life of a task
    during a run, the resolution of [runAllTasks], the statistics of
    [getTaskStats], the nodes the constructor records, and the calls of a
    capture that succeeds. *)

(** ** The scheduler *)

(** *** Statuses only move forward *)

Lemma step_rank max c c' k :
  ControllerInv max c -> step max c c' ->
  rankOf (graph c) k <= rankOf (graph c') k.
Proof.
  intros HI Hstep. unfold rankOf.
  destruct Hstep as [c k0 rest Hst | c before k0 after dr ds Hst Hw]; simpl.
  - destruct (ci_starting _ _ HI k0) as (Hp & _); [rewrite Hst; by left|].
    destruct (decide (k0 = k)) as [->|Hne].
    + rewrite statusOf_setTaskStatus_eq by (by eapply statusOf_is_Some).
      rewrite Hp. simpl. lia.
    + by rewrite statusOf_setTaskStatus_ne.
  - rewrite graph_invokeTick.
    assert (statusOf (graph c) k0 = Some Running) as Hrun.
    { apply (ci_running _ _ HI). rewrite Hw, elem_of_app, elem_of_cons. tauto. }
    destruct (decide (k0 = k)) as [->|Hne].
    + rewrite statusOf_setTaskStatus_eq by (by eapply statusOf_is_Some).
      rewrite Hrun. by destruct dr, ds; simpl; lia.
    + by rewrite statusOf_setTaskStatus_ne.
Qed.

Lemma steps_rank max c c' k :
  ControllerInv max c -> rtc (step max) c c' ->
  rankOf (graph c) k <= rankOf (graph c') k.
Proof.
  intros HI Hs. induction Hs as [|c c1 c2 H1 _ IH]; [done|].
  etrans; [by eapply step_rank|]. apply IH. by eapply step_inv.
Qed.

Lemma reachable_steps max g c c' :
  reachable max g c -> rtc (step max) c c' -> reachable max g c'.
Proof. intros Hr Hs. induction Hs; eauto using reachable_step. Qed.

(** *** Lookups that cannot fail *)

Lemma filterR_total {X : Type} (f : X -> Result bool) (l : list X) :
  (forall x, x ∈ l -> exists b, f x = Ok b) -> exists r, filterR f l = Ok r.
Proof.
  induction l as [|x l IH]; intros Hf; simpl; [eauto|].
  destruct (Hf x) as [b ->]; [by left|]. simpl.
  destruct IH as [r ->]; [intros y Hy; apply Hf; by right|]. simpl. eauto.
Qed.

Lemma filterR_nil {X : Type} (f : X -> Result bool) (l : list X) (x : X) :
  filterR f l = Ok [] -> x ∈ l -> f x = Ok false.
Proof.
  induction l as [|y l IH]; intros H Hx; simpl in H; [by apply elem_of_nil in Hx|].
  apply bind_Ok in H as (b & Hb & H). apply bind_Ok in H as (ys & Hys & H).
  destruct b; [discriminate|]. inversion H; subst ys.
  apply elem_of_cons in Hx as [->|Hx]; auto.
Qed.

Lemma everyR_total {X : Type} (f : X -> Result bool) (l : list X) :
  (forall x, x ∈ l -> exists b, f x = Ok b) -> exists b, everyR f l = Ok b.
Proof.
  induction l as [|x l IH]; intros Hf; simpl; [eauto|].
  destruct (Hf x) as [b ->]; [by left|]. simpl.
  destruct b; [|eauto]. apply IH. intros y Hy. apply Hf. by right.
Qed.

Lemma everyR_false {X : Type} (f : X -> Result bool) (l : list X) :
  everyR f l = Ok false -> exists x, x ∈ l /\ f x = Ok false.
Proof.
  induction l as [|x l IH]; intros H; simpl in H; [discriminate|].
  apply bind_Ok in H as (b & Hb & H). destruct b.
  - destruct (IH H) as (y & Hy & Hfy). exists y. split; [by right|done].
  - exists x. split; [by left|done].
Qed.

Lemma getTask_Ok g k : is_Some (allTasks g !! k) -> exists t, getTask g k = Ok t.
Proof. intros [t Ht]. exists t. unfold getTask. by rewrite Ht. Qed.

Lemma isTaskReady_total g k :
  nodesResolve g -> k ∈ sortedTaskKeys g -> exists b, isTaskReady g k = Ok b.
Proof.
  intros [Hn Hd] Hk. unfold isTaskReady.
  destruct (Hn k Hk) as [t Ht]. unfold getTask at 1. rewrite Ht. simpl.
  destruct (bool_decide _); [|eauto].
  apply everyR_total. intros d Hdep.
  destruct (getTask_Ok g d) as [td ->]; [|simpl; eauto].
  apply (Hd k). unfold depsOf. by rewrite Ht.
Qed.

Lemma isTaskReady_false g k :
  isTaskReady g k = Ok false ->
  exists s, statusOf g k = Some s /\
    (s <> Pending \/
     exists d sd, d ∈ depsOf g k /\ statusOf g d = Some sd /\ isSuccess sd = false).
Proof.
  unfold isTaskReady, getTask, depsOf, statusOf. intros H.
  apply bind_Ok in H as (t & Ht & H).
  destruct (allTasks g !! k) as [t'|]; simpl in Ht; [|discriminate].
  inversion Ht; subst t'; clear Ht. simpl. exists (ScheduledTask.status t).
  split; [done|].
  destruct (bool_decide_reflect (ScheduledTask.status t = Pending)) as [Hp|Hn]; [|by left].
  right. apply everyR_false in H as (d & Hd & Hfd). simpl in Hfd.
  apply bind_Ok in Hfd as (td & Htd & Hs).
  destruct (allTasks g !! d) as [td'|] eqn:Hlook; simpl in Htd; [|discriminate].
  injection Htd as ->. injection Hs as Hsucc.
  exists d, (ScheduledTask.status td). split; [done|]. rewrite Hlook. by split.
Qed.

Lemma filterUnparallelizable_total g l seen :
  (forall k, k ∈ l -> is_Some (allTasks g !! k)) ->
  exists kept, filterUnparallelizable g l seen = Ok kept.
Proof.
  revert seen. induction l as [|k l IH]; intros seen Hl; simpl; [eauto|].
  destruct (getTask_Ok g k) as [t ->]; [apply Hl; by left|]. simpl.
  assert (forall seen', exists kept, filterUnparallelizable g l seen' = Ok kept) as IH'.
  { intros seen'. apply IH. intros k' Hk'. apply Hl. by right. }
  destruct (TaskConfig.parallel _).
  - destruct (IH' seen) as [kept ->]. simpl. eauto.
  - destruct (bool_decide _); [apply IH'|].
    destruct (IH' ({[ScheduledTask.scriptName t]} ∪ seen)) as [kept ->]. simpl. eauto.
Qed.

(** With nothing seen yet, the first ready key is always kept. *)
Lemma filterUnparallelizable_nil g l :
  filterUnparallelizable g l ∅ = Ok [] -> l = [].
Proof.
  destruct l as [|k l]; [done|]. simpl. intros H.
  apply bind_Ok in H as (t & _ & H).
  destruct (TaskConfig.parallel _).
  - apply bind_Ok in H as (kept & _ & H). discriminate.
  - rewrite bool_decide_eq_false_2 in H by apply not_elem_of_empty.
    apply bind_Ok in H as (kept & _ & H). discriminate.
Qed.

Lemma tickDecision_total max g :
  nodesResolve g -> exists d, tickDecision max g = Ok d.
Proof.
  intros Hn. unfold tickDecision, allRunningTaskKeys, allReadyTaskKeys.
  destruct (filterR_total
              (fun key => let! task := getTask g key in
                          Ok (bool_decide (ScheduledTask.status task = Running)))
              (sortedTaskKeys g)) as [running ->].
  { intros k Hk. destruct (getTask_Ok g k) as [t ->]; [by apply Hn|]. simpl. eauto. }
  simpl.
  destruct (filterR_total (isTaskReady g) (sortedTaskKeys g)) as [cands Hc].
  { intros k Hk. by apply isTaskReady_total. }
  rewrite Hc. simpl.
  destruct (filterUnparallelizable_total g cands ∅) as [kept ->].
  { intros k Hk. apply Hn. eapply elem_of_sublist; [exact Hk|by eapply filterR_sublist]. }
  simpl. destruct (_ && _); [eauto|]. destruct (_ <=? _)%Z; [eauto|].
  destruct (_ =? _)%nat; eauto.
Qed.

Lemma nodesResolve_setTaskStatus g k s :
  nodesResolve g -> nodesResolve (setTaskStatus k s g).
Proof.
  intros [Hn Hd]. split.
  - intros k' Hk'. simpl. apply lookup_alter_is_Some. by apply Hn.
  - intros k' d. rewrite depsOf_setTaskStatus. intros Hdep.
    simpl. apply lookup_alter_is_Some. by eapply Hd.
Qed.

Lemma step_nodesResolve max c c' :
  step max c c' -> nodesResolve (graph c) -> nodesResolve (graph c').
Proof.
  intros Hstep Hn. destruct Hstep; simpl; rewrite ?graph_invokeTick;
    by apply nodesResolve_setTaskStatus.
Qed.

Lemma reachable_nodesResolve max g c :
  nodesResolve g -> reachable max g c -> nodesResolve (graph c).
Proof.
  intros Hn Hr. induction Hr as [|c c' _ IH Hstep].
  - unfold runAllTasks. by rewrite graph_invokeTick.
  - by eapply step_nodesResolve.
Qed.

Lemma reachable_sortedTaskKeys max g c :
  reachable max g c -> sortedTaskKeys (graph c) = sortedTaskKeys g.
Proof.
  intros Hr. induction Hr as [|c c' _ IH Hstep].
  - unfold runAllTasks. by rewrite graph_invokeTick.
  - rewrite <- IH. destruct Hstep; simpl; by rewrite ?graph_invokeTick.
Qed.

Lemma reachable_depsOf max g c k :
  reachable max g c -> depsOf (graph c) k = depsOf g k.
Proof.
  intros Hr. induction Hr as [|c c' _ IH Hstep].
  - unfold runAllTasks. by rewrite graph_invokeTick.
  - rewrite <- IH. by eapply step_depsOf.
Qed.

(** *** What a tick decides *)

Lemma tickDecision_cases max g d :
  tickDecision max g = Ok d ->
  exists running ready,
    allRunningTaskKeys g = Ok running /\ allReadyTaskKeys g = Ok ready /\
    match d with
    | Resolve => running = [] /\ ready = []
    | Wait =>
        (running <> [] \/ max <= 0)%Z /\
        (ready = [] \/ (max <= Z.of_nat (length running))%Z)
    | Start taskKeys =>
        taskKeys <> [] /\ taskKeys `prefix_of` ready /\
        (Z.of_nat (length running + length taskKeys) <= max)%Z
    end.
Proof.
  unfold tickDecision. intros H.
  apply bind_Ok in H as (running & Hrun & H).
  apply bind_Ok in H as (ready & Hready & H).
  exists running, ready. split; [done|]. split; [done|].
  destruct (Nat.eqb_spec (length running) 0) as [Hr0|Hr0];
    destruct (Nat.eqb_spec (length ready) 0) as [Hk0|Hk0]; simpl in H.
  - inversion H. split; by apply length_zero_iff_nil.
  - destruct (Z.leb_spec max (Z.of_nat (length running))).
    + inversion H. split; [right; lia|right; lia].
    + inversion H; subst d; clear H.
      set (n := Z.to_nat _). assert (0 < n) as Hn by (subst n; lia).
      split; [|split].
      * destruct ready; [done|]. destruct n; [lia|done].
      * exists (drop n ready). symmetry. apply take_drop.
      * rewrite length_take. subst n. lia.
  - assert (running <> []) by (intros ->; done).
    destruct (Z.leb_spec max (Z.of_nat (length running)));
      inversion H; (split; [by left|]); [by right|].
    left. by apply length_zero_iff_nil.
  - assert (running <> []) by (intros ->; done).
    destruct (Z.leb_spec max (Z.of_nat (length running))).
    + inversion H. split; [by left|by right].
    + inversion H; subst d; clear H.
      set (n := Z.to_nat _). assert (0 < n) as Hn by (subst n; lia).
      split; [|split].
      * destruct ready; [done|]. destruct n; [lia|done].
      * exists (drop n ready). symmetry. apply take_drop.
      * rewrite length_take. subst n. lia.
Qed.

(** *** Resolution *)

Lemma invokeTick_Resolve max g w r :
  ControllerInv max {| graph := g; starting := []; workers := w; resolved := r |} ->
  tickDecision max g = Ok Resolve -> w = [].
Proof.
  intros HI Hd. destruct (tickDecision_cases _ _ _ Hd) as (running & ready & Hrun & _ & -> & _).
  pose proof (running_length _ _ _ _ _ HI Hrun) as Hlen.
  destruct w; [done|discriminate].
Qed.

Lemma idle_inv max c :
  ControllerInv max c -> starting c = [] ->
  ControllerInv max {| graph := graph c; starting := []; workers := workers c;
                       resolved := resolved c |}.
Proof. intros HI Hs. destruct c as [g s w r]. simpl in *. by subst s. Qed.

(** A resolved run is at rest, and its last tick found nothing running and
    nothing ready. *)
Lemma resolved_inv max g c :
  freshGraph g -> reachable max g c -> resolved c = true ->
  quiescent c /\ tickDecision max (graph c) = Ok Resolve.
Proof.
  intros Hf Hr. pose proof (reachable_inv _ _ _ Hf Hr) as HIc. revert HIc.
  assert (forall g' w,
            ControllerInv max (invokeTick max g' w false) ->
            resolved (invokeTick max g' w false) = true ->
            quiescent (invokeTick max g' w false) /\
            tickDecision max (graph (invokeTick max g' w false)) = Ok Resolve) as Htick.
  { intros g' w HI. rewrite graph_invokeTick. unfold invokeTick in *.
    destruct (tickDecision max g') as [[| |ks]|e] eqn:Hd; simpl; try discriminate.
    intros _. split; [|done]. split; [done|]. simpl.
    by eapply invokeTick_Resolve. }
  induction Hr as [|c c' Hr IH Hstep]; intros HI Hres.
  - by apply Htick.
  - pose proof (reachable_inv _ _ _ Hf Hr) as HIc.
    destruct Hstep as [c k0 rest Hst | c before k0 after dr ds Hst Hw]; simpl in Hres.
    + destruct (IH HIc Hres) as [[Hs _] _]. congruence.
    + destruct (resolved c) eqn:Hrc.
      * destruct (IH HIc eq_refl) as [[_ Hwk] _]. rewrite Hwk in Hw.
        by destruct before.
      * by apply Htick.
Qed.

(** The converse needs a tick that cannot raise and room for one task. *)
Lemma quiescent_resolved max g c :
  (1 <= max)%Z -> freshGraph g -> nodesResolve g ->
  reachable max g c -> quiescent c -> resolved c = true.
Proof.
  intros Hmax Hf Hn Hr. pose proof (reachable_inv _ _ _ Hf Hr) as HIc.
  pose proof (reachable_nodesResolve _ _ _ Hn Hr) as Hnc. revert HIc Hnc.
  assert (forall g' w r,
            nodesResolve g' ->
            ControllerInv max (invokeTick max g' w r) ->
            quiescent (invokeTick max g' w r) ->
            resolved (invokeTick max g' w r) = true) as Htick.
  { intros g' w r Hn' HI [Hs Hw]. unfold invokeTick in *.
    destruct (tickDecision_total max g' Hn') as [d Hd]. rewrite Hd in *.
    destruct (tickDecision_cases _ _ _ Hd) as (running & ready & Hrun & _ & Hcase).
    destruct d as [| |ks]; simpl in *; [done| |].
    - subst w. pose proof (running_length _ _ _ _ _ HI Hrun) as Hlen.
      destruct Hcase as [[Hne|?] _]; [|lia]. by destruct running.
    - destruct Hcase as [? _]. done. }
  induction Hr as [|c c' Hr IH Hstep]; intros HI Hnc Hq.
  - by apply (Htick g [] false).
  - destruct Hstep as [c k0 rest Hst | c before k0 after dr ds Hst Hw].
    + destruct Hq as [_ Hq]. simpl in Hq. by destruct (workers c).
    + apply Htick; [|done|done]. by rewrite graph_invokeTick in Hnc.
Qed.

Lemma dependsOn_earlier g k d :
  NoDup (sortedTaskKeys g) ->
  (forall i key dep, sortedTaskKeys g !! i = Some key -> dep ∈ depsOf g key ->
     exists j, j < i /\ sortedTaskKeys g !! j = Some dep) ->
  dependsOn g k d ->
  forall i, sortedTaskKeys g !! i = Some k ->
  exists j, j < i /\ sortedTaskKeys g !! j = Some d.
Proof.
  intros ND Htopo Hdep. induction Hdep as [k d Hd | k m d Hkm _ IH]; intros i Hi.
  - by apply (Htopo i k d).
  - destruct (Htopo i k m Hi Hkm) as (j & Hj & Hjm).
    destruct (IH j Hjm) as (j' & Hj' & Hjd). exists j'. split; [lia|done].
Qed.

Lemma dependenciesFirst_depsOf g :
  dependenciesFirst g ->
  forall i key dep, sortedTaskKeys g !! i = Some key -> dep ∈ depsOf g key ->
    exists j, j < i /\ sortedTaskKeys g !! j = Some dep.
Proof.
  intros Htopo i key dep Hi Hd. unfold depsOf in Hd.
  destruct (allTasks g !! key) as [t|] eqn:Ht; [|by apply elem_of_nil in Hd].
  by apply (Htopo i key t dep).
Qed.

Lemma sameKeySet_nodesResolve g :
  sameKeySet g -> noDanglingEdges g -> nodesResolve g.
Proof.
  intros [_ Hdom] Hdang. split.
  - intros k Hk. by apply Hdom.
  - intros k d Hd. unfold depsOf in Hd.
    destruct (allTasks g !! k) as [t|] eqn:Ht; [|by apply elem_of_nil in Hd].
    by apply (Hdang k t d).
Qed.

Lemma Resolve_nothing_ready max g :
  tickDecision max g = Ok Resolve ->
  allRunningTaskKeys g = Ok [] /\ filterR (isTaskReady g) (sortedTaskKeys g) = Ok [].
Proof.
  intros Hd.
  destruct (tickDecision_cases _ _ _ Hd) as (running & ready & Hrun & Hready & -> & ->).
  split; [done|]. unfold allReadyTaskKeys in Hready.
  apply bind_Ok in Hready as (cands & Hc & Hready).
  apply bind_Ok in Hready as (kept & Hk & Hready).
  injection Hready as Hsort.
  assert (kept = []) as ->.
  { apply Permutation_nil_r. by rewrite <- (js_sort_Permutation kept), Hsort. }
  apply filterUnparallelizable_nil in Hk. by subst cands.
Qed.

Lemma rank_final s : statusRank s = 2 -> isSuccess s = true \/ s = Failure.
Proof. destruct s; simpl; intros; try lia; auto. Qed.

(** When the run resolves, a task is in a final status, or is pending
    behind a task that failed. *)
Lemma resolved_task_outcome max g c k :
  freshGraph g -> dependenciesFirst g ->
  reachable max g c -> resolved c = true -> k ∈ sortedTaskKeys g ->
  (exists s, statusOf (graph c) k = Some s /\ statusRank s = 2) \/
  (statusOf (graph c) k = Some Pending /\
   exists d, dependsOn g k d /\ statusOf (graph c) d = Some Failure).
Proof.
  intros Hf Htopo Hr Hres Hk.
  destruct (resolved_inv _ _ _ Hf Hr Hres) as [_ Hd].
  apply Resolve_nothing_ready in Hd as [Hrun Hready].
  rewrite (reachable_sortedTaskKeys _ _ _ Hr) in Hready.
  unfold allRunningTaskKeys in Hrun. rewrite (reachable_sortedTaskKeys _ _ _ Hr) in Hrun.
  apply list_elem_of_lookup_1 in Hk as [i Hi]. revert k Hi.
  induction (lt_wf i) as [i _ IH]. intros k Hi.
  assert (k ∈ sortedTaskKeys g) as Hk by (by eapply list_elem_of_lookup_2).
  pose proof (filterR_nil _ _ k Hready Hk) as Hnr.
  pose proof (filterR_nil _ _ k Hrun Hk) as Hnrun. simpl in Hnrun.
  apply isTaskReady_false in Hnr as (s & Hs & Hcase).
  assert (s <> Running) as Hsr.
  { intros ->. apply statusOf_Some in Hs as (t & Ht & Hst).
    unfold getTask in Hnrun. rewrite Ht in Hnrun. simpl in Hnrun.
    rewrite bool_decide_eq_true_2 in Hnrun by done. discriminate. }
  destruct (decide (s = Pending)) as [->|Hsp].
  - destruct Hcase as [?|(d & sd & Hdep & Hsd & Hnot)]; [done|].
    right. split; [done|].
    rewrite (reachable_depsOf _ _ _ k Hr) in Hdep.
    destruct (dependenciesFirst_depsOf g Htopo i k d Hi Hdep) as (j & Hj & Hjd).
    destruct (IH j Hj d Hjd) as [(s' & Hs' & Hrank)|(_ & d' & Hdd' & Hfail)].
    + exists d. split; [by apply tc_once|].
      rewrite Hsd in Hs'. injection Hs' as <-.
      destruct (rank_final _ Hrank) as [?| ->]; [congruence|done].
    + exists d'. split; [|done]. by eapply tc_l.
  - left. exists s. split; [done|]. by destruct s.
Qed.

(** *** The work left *)

Lemma workLeft_set g k s s' :
  NoDup (sortedTaskKeys g) -> k ∈ sortedTaskKeys g ->
  statusOf g k = Some s -> statusRank s < statusRank s' ->
  workLeft (setTaskStatus k s' g) + (statusRank s' - statusRank s) = workLeft g.
Proof.
  intros ND Hk Hs Hlt. unfold workLeft. simpl.
  assert (rankOf g k = statusRank s) as Hr by (unfold rankOf; by rewrite Hs).
  assert (rankOf (setTaskStatus k s' g) k = statusRank s') as Hr'.
  { unfold rankOf. by rewrite statusOf_setTaskStatus_eq by (by eapply statusOf_is_Some). }
  assert (forall k', k <> k' -> rankOf (setTaskStatus k s' g) k' = rankOf g k') as Hne.
  { intros k' ?. unfold rankOf. by rewrite statusOf_setTaskStatus_ne. }
  assert (statusRank s' <= 2) by (destruct s'; simpl; lia).
  induction (sortedTaskKeys g) as [|x l IH]; [by apply elem_of_nil in Hk|].
  apply NoDup_cons in ND as [Hx ND]. simpl.
  destruct (decide (k = x)) as [<-|Hkx].
  - rewrite Hr, Hr'.
    assert (map (fun key => 2 - rankOf (setTaskStatus k s' g) key) l =
            map (fun key => 2 - rankOf g key) l) as ->.
    { apply map_ext_in. intros y Hy. rewrite Hne; [done|].
      intros <-. by apply list_elem_of_In in Hy. }
    lia.
  - rewrite (Hne x Hkx). apply elem_of_cons in Hk as [?|Hk]; [done|].
    specialize (IH ND Hk). lia.
Qed.

Lemma step_workLeft max c c' :
  ControllerInv max c -> step max c c' ->
  workLeft (graph c') < workLeft (graph c).
Proof.
  intros HI Hstep.
  destruct Hstep as [c k0 rest Hst | c before k0 after dr ds Hst Hw]; simpl.
  - destruct (ci_starting _ _ HI k0) as (Hp & _ & Hk); [rewrite Hst; by left|].
    pose proof (workLeft_set (graph c) k0 Pending Running (ci_sorted _ _ HI) Hk Hp).
    simpl in *. lia.
  - rewrite graph_invokeTick.
    assert (k0 ∈ workers c) as Hin by (rewrite Hw, elem_of_app, elem_of_cons; tauto).
    assert (statusOf (graph c) k0 = Some Running) as Hrun by (by apply (ci_running _ _ HI)).
    pose proof (workLeft_set (graph c) k0 Running (finalStatus dr ds)
                  (ci_sorted _ _ HI) (ci_workers _ _ HI k0 Hin) Hrun) as Hw'.
    assert (statusRank (finalStatus dr ds) = 2) as Hfin by (by destruct dr, ds).
    rewrite Hfin in Hw'. simpl in Hw'. lia.
Qed.

Lemma workLeft_bound g : workLeft g <= 2 * length (sortedTaskKeys g).
Proof.
  unfold workLeft. induction (sortedTaskKeys g) as [|x l IH]; simpl; lia.
Qed.

Lemma nsteps_workLeft max c c' n :
  ControllerInv max c -> nsteps (step max) n c c' ->
  n + workLeft (graph c') <= workLeft (graph c).
Proof.
  intros HI Hs. induction Hs as [|n c c1 c2 H1 _ IH]; [simpl; lia|].
  pose proof (step_workLeft _ _ _ HI H1). specialize (IH (step_inv _ _ _ HI H1)). lia.
Qed.

(** *** Which ready tasks are listed *)

Lemma filterUnparallelizable_keeps g l seen kept k :
  filterUnparallelizable g l seen = Ok kept -> k ∈ l ->
  (forall t, allTasks g !! k = Some t ->
     TaskConfig.parallel (ScheduledTask.taskConfig t) = true -> k ∈ kept) /\
  (forall script, isUnparallelizable g script k = true ->
     script ∈ seen \/ exists k', k' ∈ kept /\ isUnparallelizable g script k' = true).
Proof.
  revert seen kept. induction l as [|x l IH]; intros seen kept H Hk; simpl in H;
    [by apply elem_of_nil in Hk|].
  apply bind_Ok in H as (t & Ht & H). unfold getTask in Ht.
  destruct (allTasks g !! x) as [t'|] eqn:Hlook; simpl in Ht; [|discriminate].
  injection Ht as ->.
  destruct (TaskConfig.parallel (ScheduledTask.taskConfig t)) eqn:Hpar.
  - apply bind_Ok in H as (kept' & Hk' & H). injection H as <-.
    apply elem_of_cons in Hk as [->|Hk].
    + split; [intros; by left|]. intros script Hu.
      unfold isUnparallelizable in Hu. rewrite Hlook, Hpar in Hu. discriminate.
    + destruct (IH _ _ Hk' Hk) as [IH1 IH2]. split.
      * intros t0 Ht0 Hp0. right. by eapply IH1.
      * intros script Hu. destruct (IH2 script Hu) as [?|(k' & ? & ?)]; [by left|].
        right. exists k'. split; [by right|done].
  - destruct (bool_decide_reflect (ScheduledTask.scriptName t ∈ seen)) as [Hin|Hnin].
    + apply elem_of_cons in Hk as [->|Hk].
      * split; [intros t0 Ht0 Hp0; congruence|]. intros script Hu. left.
        unfold isUnparallelizable in Hu. rewrite Hlook, Hpar in Hu. simpl in Hu.
        apply String.eqb_eq in Hu. by subst script.
      * by apply (IH _ _ H Hk).
    + apply bind_Ok in H as (kept' & Hk' & H). injection H as <-.
      assert (isUnparallelizable g (ScheduledTask.scriptName t) x = true) as Hux.
      { unfold isUnparallelizable. rewrite Hlook, Hpar. simpl. apply String.eqb_refl. }
      apply elem_of_cons in Hk as [->|Hk].
      * split; [intros t0 Ht0 Hp0; congruence|]. intros script Hu. right.
        exists x. split; [by left|done].
      * destruct (IH _ _ Hk' Hk) as [IH1 IH2]. split.
        -- intros t0 Ht0 Hp0. right. by eapply IH1.
        -- intros script Hu.
           destruct (IH2 script Hu) as [Hs|(k' & ? & ?)].
           ++ apply elem_of_union in Hs as [Hs|Hs]; [|by left].
              apply elem_of_singleton in Hs as ->. right. exists x. split; [by left|done].
           ++ right. exists k'. split; [by right|done].
Qed.

(** ** [getTaskStats] *)

Lemma statusCount_cons g st k l :
  statusCount g st (k :: l) =
  (if decide (statusOf g k = Some st) then 1 else 0) + statusCount g st l.
Proof. unfold statusCount. rewrite filter_cons. by destruct (decide _). Qed.

Lemma getTaskStats_loop g l stats0 stats :
  forEach
    (fun key stats =>
       let! task := getTask g key in
       let status := ScheduledTask.status task in
       let stats := if isSuccess status then countSuccessful stats else stats in
       let! task' := getTask g key in
       let stats := countStatus (ScheduledTask.status task') stats in
       Ok (countTask stats)) l stats0 = Ok stats ->
  TaskStats.pending stats = TaskStats.pending stats0 + statusCount g Pending l /\
  TaskStats.running stats = TaskStats.running stats0 + statusCount g Running l /\
  TaskStats.success_lazy stats = TaskStats.success_lazy stats0 + statusCount g SuccessLazy l /\
  TaskStats.success_eager stats =
    TaskStats.success_eager stats0 + statusCount g SuccessEager l /\
  TaskStats.failure stats = TaskStats.failure stats0 + statusCount g Failure l /\
  TaskStats.successful stats =
    TaskStats.successful stats0 + statusCount g SuccessLazy l + statusCount g SuccessEager l /\
  TaskStats.allTasks stats = TaskStats.allTasks stats0 + length l /\
  statusCount g Pending l + statusCount g Running l + statusCount g SuccessLazy l
    + statusCount g SuccessEager l + statusCount g Failure l = length l.
Proof.
  revert stats0. induction l as [|k l IH]; intros stats0 H; simpl in H.
  { injection H as <-. unfold statusCount. simpl. lia. }
  apply bind_Ok in H as (stats1 & Hbody & H).
  apply bind_Ok in Hbody as (t & Ht & Hbody).
  rewrite Ht in Hbody. simpl in Hbody. injection Hbody as <-.
  specialize (IH _ H). rewrite !statusCount_cons.
  assert (statusOf g k = Some (ScheduledTask.status t)) as Hs.
  { unfold getTask in Ht. unfold statusOf.
    destruct (allTasks g !! k); simpl in *; [by injection Ht as ->|discriminate]. }
  rewrite Hs. destruct stats0 as [p r sl se s f a].
  destruct (ScheduledTask.status t); simpl in IH;
    repeat (destruct (decide _) as [?|?]; try congruence); simpl; lia.
Qed.

Lemma filterR_status_length g st l r :
  filterR (fun key => let! task := getTask g key in
                      Ok (bool_decide (ScheduledTask.status task = st))) l = Ok r ->
  length r = statusCount g st l.
Proof.
  revert r. induction l as [|k l IH]; intros r H; simpl in H.
  { by injection H as <-. }
  apply bind_Ok in H as (b & Hb & H). apply bind_Ok in H as (ys & Hys & H).
  injection H as <-. rewrite statusCount_cons, <- (IH ys Hys).
  apply bind_Ok in Hb as (t & Ht & Hb). injection Hb as <-.
  assert (statusOf g k = Some (ScheduledTask.status t)) as ->.
  { unfold getTask in Ht. unfold statusOf.
    destruct (allTasks g !! k); simpl in *; [by injection Ht as ->|discriminate]. }
  destruct (bool_decide_reflect (ScheduledTask.status t = st)) as [->|Hn].
  - by rewrite decide_True.
  - rewrite decide_False; [done|congruence].
Qed.

Lemma statusCount_zero g st l :
  (forall k, k ∈ l -> statusOf g k <> Some st) -> statusCount g st l = 0.
Proof.
  intros H. unfold statusCount. induction l as [|k l IH]; [done|].
  rewrite filter_cons_False; [|apply H; by left].
  apply IH. intros k' Hk'. apply H. by right.
Qed.

Lemma statusCount_zero_inv g st l k :
  statusCount g st l = 0 -> k ∈ l -> statusOf g k <> Some st.
Proof.
  unfold statusCount. intros H Hk Hs.
  assert (k ∈ filter (fun key => statusOf g key = Some st) l) as Hin
    by (by apply list_elem_of_filter).
  destruct (filter _ l); [by apply elem_of_nil in Hin|discriminate].
Qed.

(** ** The construction *)

Lemma forEach_prefix {X S : Type} (P : list X -> S -> Prop) (f : X -> S -> Result S)
    (l : list X) :
  (forall pre x s s', P pre s -> f x s = Ok s' -> P (pre ++ [x]) s') ->
  forall s s', P [] s -> forEach f l s = Ok s' -> P l s'.
Proof.
  intros Hf.
  assert (forall pre s s', P pre s -> forEach f l s = Ok s' -> P (pre ++ l) s') as H.
  { induction l as [|x l IH]; intros pre s s' Hs Hrun; simpl in Hrun.
    - injection Hrun as <-. by rewrite app_nil_r.
    - apply bind_Ok in Hrun as (s1 & H1 & H2).
      rewrite (cons_middle x pre l), app_assoc. eapply IH; [|exact H2]. by eapply Hf. }
  intros s s'. apply (H []).
Qed.

Lemma mapR_snoc {X Y : Type} (f : X -> Result Y) (l : list X) (x : X) ys y :
  mapR f l = Ok ys -> f x = Ok y -> mapR f (l ++ [x]) = Ok (ys ++ [y]).
Proof.
  revert ys. induction l as [|z l IH]; intros ys Hl Hx; simpl in *.
  - injection Hl as <-. by rewrite Hx.
  - apply bind_Ok in Hl as (y0 & Hz & Hl). apply bind_Ok in Hl as (ys0 & Hl0 & Hl).
    injection Hl as <-. rewrite Hz. simpl. by rewrite (IH ys0 Hl0 Hx).
Qed.

Lemma pushDependencies_nil t : pushDependencies [] t = t.
Proof. destruct t. unfold pushDependencies. simpl. by rewrite app_nil_r. Qed.

Lemma pushDependency_pushDependencies dep deps t :
  ScheduledTask.pushDependency dep (pushDependencies deps t) =
  pushDependencies (deps ++ [dep]) t.
Proof. unfold ScheduledTask.pushDependency, pushDependencies. simpl. by rewrite app_assoc. Qed.

Lemma pushDependencies_app deps1 deps2 t :
  pushDependencies deps2 (pushDependencies deps1 t) = pushDependencies (deps1 ++ deps2) t.
Proof. unfold pushDependencies. simpl. by rewrite app_assoc. Qed.

Section ConstructionMore.

Variable platform : Platform.
Variable config : Config.
Hypothesis byDir : lookupByDirSound config.

Lemma sortedNodesRecorded_push path o key g :
  Inv path g -> o ∈ path ->
  sortedNodesRecorded platform config g ->
  sortedNodesRecorded platform config (pushDependencyOf (Some o) key g).
Proof.
  intros HI Ho HG k t Hk Hs. simpl in *.
  assert (o <> k) as Hne by (intros ->; by apply (inv_path _ _ HI k Ho)).
  rewrite lookup_alter_ne in Hk by done. by apply HG.
Qed.

(** One [dependencies.push(key); visit(...)]: the owner gets the key, and
    nothing else of it changes. *)
Lemma push_visit_records v path o t rt w g g' :
  VisitSpec config v -> VisitRecords platform config v ->
  Inv path g -> OwnerInv (Some o) path g -> sortedNodesRecorded platform config g ->
  allTasks g !! o = Some t ->
  v path rt w
    (pushDependencyOf (Some o)
       (getTaskKey config (Workspace.dir w) (RequestedTask.scriptName rt)) g) = Ok g' ->
  sortedNodesRecorded platform config g' /\
  allTasks g' !! o =
    Some (ScheduledTask.pushDependency
            (getTaskKey config (Workspace.dir w) (RequestedTask.scriptName rt)) t).
Proof.
  intros Hv Hr HI HO HG Ho Hrun.
  set (key := getTaskKey config (Workspace.dir w) (RequestedTask.scriptName rt)) in *.
  pose proof (Inv_push path (Some o) key g HI HO) as HI1.
  destruct (Hv _ _ _ _ _ HI1 Hrun) as (_ & HE & _).
  split.
  - eapply Hr; [exact HI1| |exact Hrun].
    apply (sortedNodesRecorded_push path); [done|apply HO|done].
  - apply (ext_tasks _ _ _ HE); [done|]. simpl. by rewrite lookup_alter_eq, Ho.
Qed.

Lemma declaring_snoc rt dirs d w :
  getWorkspaceByDir (project config) d = Some w ->
  declaring config rt (dirs ++ [d]) =
  declaring config rt dirs ++
    (if truthy (Workspace.scripts w !! RequestedTask.scriptName rt) then [w] else []).
Proof.
  intros Hw. unfold declaring. rewrite omap_app, List.filter_app. simpl.
  rewrite Hw. simpl. by destruct (truthy _).
Qed.

(** [enqueueTask] pushes the keys of its targets onto the owner, in order. *)
Lemma enqueueTask_records v path rt o t g g' :
  VisitSpec config v -> VisitRecords platform config v ->
  Inv path g -> OwnerInv (Some o) path g -> sortedNodesRecorded platform config g ->
  allTasks g !! o = Some t ->
  enqueueTask_with platform config v path rt (Some o) g = Ok g' ->
  Inv path g' /\ OwnerInv (Some o) path g' /\
  sortedNodesRecorded platform config g' /\
  allTasks g' !! o = Some (pushDependencies (targetKeys platform config rt) t).
Proof.
  intros Hv Hr HI HO HG Ho. unfold enqueueTask_with, targetKeys, spec_targetWorkspaces.
  destruct (isTopLevelScript config (RequestedTask.scriptName rt)).
  - intros Hrun.
    destruct (push_visit_spec config v path (Some o) rt _ g g' Hv HI HO Hrun) as (? & _ & ?).
    destruct (push_visit_records v path o t rt _ g g' Hv Hr HI HO HG Ho Hrun) as [? ?].
    done.
  - fold (declaring config rt
            (filterPackageDirs platform (Workspace.dir (root (project config)))
               (project config) (RequestedTask.filterPaths rt))).
    generalize (filterPackageDirs platform (Workspace.dir (root (project config)))
                  (project config) (RequestedTask.filterPaths rt)).
    intros dirs Hrun.
    pose (P := fun (pre : list string) (s : TaskGraph) =>
                 Inv path s /\ OwnerInv (Some o) path s /\
                 sortedNodesRecorded platform config s /\
                 allTasks s !! o =
                   Some (pushDependencies
                           (map (fun w => getTaskKey config (Workspace.dir w)
                                            (RequestedTask.scriptName rt))
                                (declaring config rt pre)) t)).
    change (P dirs g').
    refine (forEach_prefix P _ dirs _ g g' _ Hrun).
    + intros pre d s s' (HIs & HOs & HGs & Hos) Hbody.
      apply bind_Ok in Hbody as (w & Hw & Hbody).
      destruct (getWorkspaceByDir (project config) d) as [w'|] eqn:Hlook;
        simpl in Hw; [|discriminate].
      injection Hw as ->. unfold P. rewrite (declaring_snoc rt pre d w Hlook).
      destruct (truthy _).
      * rewrite <- (byDir d w Hlook) in Hbody.
        destruct (push_visit_spec config v path (Some o) rt w s s' Hv HIs HOs Hbody)
          as (? & _ & ?).
        destruct (push_visit_records v path o _ rt w s s' Hv Hr HIs HOs HGs Hos Hbody)
          as [? Hnew].
        split; [done|]. split; [done|]. split; [done|].
        by rewrite Hnew, pushDependency_pushDependencies, map_app.
      * injection Hbody as <-. by rewrite app_nil_r.
    + unfold P. simpl. by rewrite pushDependencies_nil.
Qed.

Lemma enqueueTask_records_top v path rt g g' :
  VisitSpec config v -> VisitRecords platform config v ->
  Inv path g -> sortedNodesRecorded platform config g ->
  enqueueTask_with platform config v path rt None g = Ok g' ->
  sortedNodesRecorded platform config g'.
Proof.
  intros Hv Hr HI HG. unfold enqueueTask_with.
  destruct (isTopLevelScript config (RequestedTask.scriptName rt)).
  - intros Hrun. by eapply Hr.
  - intros Hrun.
    cut (Inv path g' /\ sortedNodesRecorded platform config g'); [by intros [? ?]|].
    eapply (forEach_invariant
              (fun s => Inv path s /\ sortedNodesRecorded platform config s));
      [|split; [exact HI|exact HG]|exact Hrun].
    intros d s s' _ [HIs HGs] Hbody.
    apply bind_Ok in Hbody as (w & Hw & Hbody).
    destruct (truthy _); [|by injection Hbody as <-].
    split; [|by eapply Hr].
    by destruct (Hv _ _ _ _ _ HIs Hbody) as (? & _ & _).
Qed.

Lemma sortedNodesRecorded_enter key task g :
  key ∉ sortedTaskKeys g ->
  sortedNodesRecorded platform config g ->
  sortedNodesRecorded platform config
    {| allTasks := <[key := task]> (allTasks g); sortedTaskKeys := sortedTaskKeys g |}.
Proof.
  intros Hfresh HG k t Hk Hs. simpl in *.
  rewrite lookup_insert_ne in Hk by (intros ->; done). by apply HG.
Qed.

Lemma visit_records fuel : VisitRecords platform config (visit platform config fuel).
Proof.
  induction fuel as [|fuel IH]; intros path rt w g g' HI HG Hrun; simpl in Hrun.
  { discriminate. }
  set (key := getTaskKey config (Workspace.dir w) (RequestedTask.scriptName rt)) in *.
  destruct (allTasks g !! key) as [t|] eqn:Hlook.
  { destruct (includes path key); [discriminate|]. by injection Hrun as <-. }
  apply bind_Ok in Hrun as (g2 & Hloop1 & Hrun).
  apply bind_Ok in Hrun as (g3 & Hloop2 & Hrun).
  injection Hrun as <-.
  set (taskConfig := getTaskConfig config w (RequestedTask.scriptName rt)) in *.
  set (task := newTask key taskConfig rt w) in *.
  set (g1 := {| allTasks := <[key := task]> (allTasks g);
                sortedTaskKeys := sortedTaskKeys g |}) in *.
  destruct (Inv_enter path key task g HI Hlook eq_refl eq_refl) as [HI1 HO1].
  fold g1 in HI1, HO1.
  assert (key ∉ sortedTaskKeys g) as Hfresh.
  { intros Hin. assert (is_Some (allTasks g !! key)) as [? ?]; [|congruence].
    apply (inv_dom _ _ HI). by left. }
  pose proof (visit_spec platform config byDir fuel) as Hv.
  (* the first loop *)
  pose (P1 := fun (pre : list (string * RunsAfter)) (s : TaskGraph) =>
    Inv (path ++ [key]) s /\ OwnerInv (Some key) (path ++ [key]) s /\
    sortedNodesRecorded platform config s /\
    exists ups,
      mapR (upstreamKeys platform config w (RequestedTask.force rt)) pre = Ok ups /\
      allTasks s !! key = Some (pushDependencies (concat ups) task)).
  assert (P1 (TaskConfig.runsAfterEntries taskConfig) g2)
    as (HI2 & HO2 & HG2 & ups & Hups & Hnode2).
  { refine (forEach_prefix P1 _ _ _ g1 g2 _ Hloop1).
    - intros pre entry s s' (HIs & HOs & HGs & ups & Hups & Hnode) Hbody.
      apply bind_Ok in Hbody as (fp & Hfp & Hbody).
      destruct (enqueueTask_records _ _ _ _ _ _ _ Hv IH HIs HOs HGs Hnode Hbody)
        as (? & ? & ? & Hnew).
      split; [done|]. split; [done|]. split; [done|].
      eexists. split.
      + apply mapR_snoc; [exact Hups|]. unfold upstreamKeys. rewrite Hfp. simpl. reflexivity.
      + rewrite Hnew, pushDependencies_app, concat_app. simpl. by rewrite app_nil_r.
    - split; [done|]. split; [done|]. split.
      + by apply sortedNodesRecorded_enter.
      + exists []. split; [done|]. simpl. by rewrite lookup_insert_eq, pushDependencies_nil. }
  (* the second loop *)
  assert (exists locals,
            match TaskConfig.execution taskConfig with
            | Dependent =>
                mapR (dependentKey config (RequestedTask.scriptName rt))
                  (Workspace.localDependencyWorkspaceNames w)
            | _ => Ok []
            end = Ok locals /\
            Inv (path ++ [key]) g3 /\ OwnerInv (Some key) (path ++ [key]) g3 /\
            sortedNodesRecorded platform config g3 /\
            allTasks g3 !! key
              = Some (pushDependencies (concat ups ++ concat locals) task))
    as (locals & Hlocals & HI3 & HO3 & HG3 & Hnode3).
  { destruct (TaskConfig.execution taskConfig);
      try (injection Hloop2 as <-; exists []; simpl; by rewrite app_nil_r).
    pose (P2 := fun (pre : list string) (s : TaskGraph) =>
      Inv (path ++ [key]) s /\ OwnerInv (Some key) (path ++ [key]) s /\
      sortedNodesRecorded platform config s /\
      exists locals,
        mapR (dependentKey config (RequestedTask.scriptName rt)) pre = Ok locals /\
        allTasks s !! key = Some (pushDependencies (concat ups ++ concat locals) task)).
    assert (P2 (Workspace.localDependencyWorkspaceNames w) g3)
      as (? & ? & ? & locals & ? & ?); [|by exists locals].
    refine (forEach_prefix P2 _ _ _ g2 g3 _ Hloop2).
    - intros pre name s s' (HIs & HOs & HGs & locals & Hloc & Hnode) Hbody.
      apply bind_Ok in Hbody as (dep & Hdep & Hbody).
      destruct (truthy (Workspace.scripts dep !! RequestedTask.scriptName rt)) eqn:Hdecl.
      + destruct (push_visit_spec config _ _ (Some key) rt dep s s' Hv HIs HOs Hbody)
          as (? & _ & ?).
        destruct (push_visit_records _ _ _ _ rt dep s s' Hv IH HIs HOs HGs Hnode Hbody)
          as [? Hnew].
        split; [done|]. split; [done|]. split; [done|].
        eexists. split.
        * apply mapR_snoc; [exact Hloc|]. unfold dependentKey. rewrite Hdep. simpl.
          rewrite Hdecl. reflexivity.
        * rewrite Hnew, pushDependency_pushDependencies, concat_app. simpl.
          by rewrite <- !app_assoc.
      + injection Hbody as <-.
        split; [done|]. split; [done|]. split; [done|].
        eexists. split.
        * apply mapR_snoc; [exact Hloc|]. unfold dependentKey. rewrite Hdep. simpl.
          rewrite Hdecl. reflexivity.
        * rewrite concat_app. simpl. by rewrite !app_nil_r.
    - split; [done|]. split; [done|]. split; [done|].
      exists []. split; [done|]. simpl. by rewrite app_nil_r. }
  (* the node is finished *)
  intros k t Hk Hin. simpl in *.
  apply elem_of_app in Hin as [Hin|Hin]; [by apply HG3|].
  apply list_elem_of_singleton in Hin as ->. rewrite Hnode3 in Hk. injection Hk as <-.
  unfold nodeRecord, expectedDependencies. simpl.
  fold taskConfig. rewrite Hups. simpl. rewrite Hlocals. simpl. done.
Qed.

Lemma sortedNodesRecorded_empty : sortedNodesRecorded platform config emptyGraph.
Proof. intros k t Hk. simpl in Hk. by rewrite lookup_empty in Hk. Qed.

Lemma TaskGraph_new_records fuel requestedTasks g :
  TaskGraph_new platform config fuel requestedTasks = Ok g ->
  sortedNodesRecorded platform config g.
Proof.
  unfold TaskGraph_new. intros Hrun.
  cut (Inv [] g /\ sortedNodesRecorded platform config g); [by intros [? ?]|].
  eapply (forEach_invariant (fun s => Inv [] s /\ sortedNodesRecorded platform config s));
    [|split; [apply Inv_empty|apply sortedNodesRecorded_empty]|exact Hrun].
  intros rt s s' _ [HIs HGs] Hbody. split.
  - by destruct (enqueueTask_spec platform config byDir _ [] rt None s s'
                   (visit_spec platform config byDir fuel) HIs I Hbody).
  - eapply enqueueTask_records_top; [apply visit_spec, byDir|apply visit_records| | |];
      eauto.
Qed.

(** Every target of a requested task ends in the sorted key list. *)
Lemma enqueueTask_schedules v path rt g g' :
  VisitSpec config v -> Inv path g ->
  enqueueTask_with platform config v path rt None g = Ok g' ->
  forall key, key ∈ targetKeys platform config rt -> key ∈ sortedTaskKeys g'.
Proof.
  intros Hv HI. unfold enqueueTask_with, targetKeys, spec_targetWorkspaces.
  destruct (isTopLevelScript config (RequestedTask.scriptName rt)).
  - intros Hrun key Hkey. simpl in Hkey. apply list_elem_of_singleton in Hkey as ->.
    by destruct (Hv _ _ _ _ _ HI Hrun) as (_ & _ & ?).
  - fold (declaring config rt
            (filterPackageDirs platform (Workspace.dir (root (project config)))
               (project config) (RequestedTask.filterPaths rt))).
    generalize (filterPackageDirs platform (Workspace.dir (root (project config)))
                  (project config) (RequestedTask.filterPaths rt)).
    intros dirs Hrun.
    pose (P := fun (pre : list string) (s : TaskGraph) =>
                 Inv path s /\
                 forall key,
                   key ∈ map (fun w => getTaskKey config (Workspace.dir w)
                                         (RequestedTask.scriptName rt))
                           (declaring config rt pre) ->
                   key ∈ sortedTaskKeys s).
    cut (P dirs g'); [by intros [_ ?]|].
    refine (forEach_prefix P _ dirs _ g g' _ Hrun).
    + intros pre d s s' [HIs Hkeys] Hbody.
      apply bind_Ok in Hbody as (w & Hw & Hbody).
      destruct (getWorkspaceByDir (project config) d) as [w'|] eqn:Hlook;
        simpl in Hw; [|discriminate].
      injection Hw as ->. unfold P. rewrite (declaring_snoc rt pre d w Hlook).
      destruct (truthy _).
      * rewrite <- (byDir d w Hlook) in Hbody. simpl in Hbody.
        destruct (Hv _ _ _ _ _ HIs Hbody) as (? & HE & Hnew).
        split; [done|]. intros key. rewrite map_app, elem_of_app. simpl.
        intros [Hold|Hk].
        -- eapply Ext_sorted_elem; [exact HE|]. by apply Hkeys.
        -- by apply list_elem_of_singleton in Hk as ->.
      * injection Hbody as <-. by rewrite app_nil_r.
    + split; [done|]. intros key Hkey. by apply elem_of_nil in Hkey.
Qed.

Lemma TaskGraph_new_schedules fuel requestedTasks g rt key :
  TaskGraph_new platform config fuel requestedTasks = Ok g ->
  rt ∈ requestedTasks -> key ∈ targetKeys platform config rt ->
  key ∈ sortedTaskKeys g.
Proof.
  unfold TaskGraph_new. intros Hrun Hrt Hkey.
  pose (P := fun (pre : list RequestedTask.t) (s : TaskGraph) =>
               Inv [] s /\
               forall rt key, rt ∈ pre -> key ∈ targetKeys platform config rt ->
                              key ∈ sortedTaskKeys s).
  cut (P requestedTasks g); [intros [_ H]; by eapply H|].
  refine (forEach_prefix P _ requestedTasks _ emptyGraph g _ Hrun).
  - intros pre x s s' [HIs Hkeys] Hbody.
    destruct (enqueueTask_spec platform config byDir _ [] x None s s'
                (visit_spec platform config byDir fuel) HIs I Hbody) as (? & HE & _).
    split; [done|]. intros rt' key' [Hin|Hin]%elem_of_app Hk.
    + eapply Ext_sorted_elem; [exact HE|]. by eapply Hkeys.
    + apply list_elem_of_singleton in Hin as ->.
      eapply enqueueTask_schedules; [apply visit_spec, byDir|exact HIs|exact Hbody|done].
  - split; [apply Inv_empty|]. intros rt' key' Hin. by apply elem_of_nil in Hin.
Qed.

End ConstructionMore.

(** ** The output capture *)

Section CaptureTrace.

Local Arguments forEachIO : simpl never.
Local Arguments performAll : simpl never.

Variable platform : Platform.
Variable fs : FileSystem.
Variables rootWorkspaceDir outDir outManifestPath : string.

(** What making a list of calls gives: the calls attempted are appended;
    the result is an exception exactly when one of them raises. *)
Lemma performAll_spec cs s :
  fst (performAll fs cs s) =
    {| calls := calls s ++ attempted fs cs; task := task s |} /\
  (snd (performAll fs cs s) = Ok tt <-> Forall (fun c => raises fs c = false) cs).
Proof.
  revert s. induction cs as [|c cs IH]; intros s.
  - unfold performAll, pureIO. simpl. rewrite app_nil_r. destruct s. by split.
  - change (performAll fs (c :: cs) s) with (bindIO (perform fs c) (fun _ => performAll fs cs) s).
    unfold bindIO, perform. simpl.
    destruct (raises fs c) eqn:Hc; simpl.
    + split; [done|]. split; [discriminate|]. intros H. apply Forall_cons in H as [? _].
      congruence.
    + destruct (IH {| calls := calls s ++ [c]; task := task s |}) as [IH1 IH2].
      rewrite IH1. simpl. rewrite <- app_assoc. split; [done|].
      rewrite IH2, Forall_cons. tauto.
Qed.

Lemma performAll_app cs1 cs2 s :
  performAll fs (cs1 ++ cs2) s = bindIO (performAll fs cs1) (fun _ => performAll fs cs2) s.
Proof.
  revert s. induction cs1 as [|c cs1 IH]; intros s.
  - done.
  - change (performAll fs ((c :: cs1) ++ cs2) s)
      with (bindIO (perform fs c) (fun _ => performAll fs (cs1 ++ cs2)) s).
    change (performAll fs (c :: cs1))
      with (bindIO (perform fs c) (fun _ => performAll fs cs1)).
    unfold bindIO. destruct (perform fs c s) as [s1 [[]|e]]; [|done].
    rewrite IH. unfold bindIO. done.
Qed.

(** An iteration on a file inside the workspace is its four calls. *)
Lemma cacheOutputFile_performAll file s :
  startsWith file ".." = false ->
  cacheOutputFile platform fs rootWorkspaceDir outDir outManifestPath file s =
  performAll fs (fileCalls platform fs rootWorkspaceDir outDir outManifestPath file) s.
Proof.
  intros Hin. unfold cacheOutputFile, fileCalls, performAll, statSync, bindIO, perform, pureIO.
  rewrite Hin. simpl.
  repeat (destruct (raises fs _); simpl; try done).
Qed.

(** The loop: the calls of the files before the first outside file, then
    the fatal error for that file. *)
Lemma forEachIO_performAll files s :
  forEachIO (cacheOutputFile platform fs rootWorkspaceDir outDir outManifestPath) files s =
  bindIO
    (performAll fs
       (flat_map (fileCalls platform fs rootWorkspaceDir outDir outManifestPath)
          (insideFiles files)))
    (fun _ =>
       match drop (length (insideFiles files)) files with
       | [] => pureIO tt
       | file :: _ =>
           throwIO (LazyError ("output file is outside of workspace: " ++ file))
       end) s.
Proof.
  revert s. induction files as [|f files IH]; intros s.
  - done.
  - change (forEachIO ?b (f :: files) s) with (bindIO (b f) (fun _ => forEachIO b files) s).
    simpl insideFiles. destruct (startsWith f "..") eqn:Hf.
    + unfold bindIO at 1. rewrite cacheOutputFile_outside by done. done.
    + change (flat_map ?h (f :: insideFiles files))
        with (h f ++ flat_map h (insideFiles files)).
      simpl drop. unfold bindIO. rewrite performAll_app.
      unfold bindIO. rewrite cacheOutputFile_performAll by done.
      destruct (performAll fs _ s) as [s1 [[]|e]]; [|done].
      rewrite IH. unfold bindIO. done.
Qed.

Lemma insideFiles_all files :
  insideFiles files = files <-> Forall (fun f => startsWith f ".." = false) files.
Proof.
  induction files as [|f files IH]; simpl; [by split|].
  destruct (startsWith f "..") eqn:Hf.
  - split; [discriminate|]. intros H. apply Forall_cons in H as [? _]. congruence.
  - rewrite Forall_cons, <- IH. split; [intros [= ?]; by split|intros [_ ->]; done].
Qed.

Lemma insideFiles_drop files :
  drop (length (insideFiles files)) files = [] <-> insideFiles files = files.
Proof.
  induction files as [|f files IH]; simpl; [done|].
  destruct (startsWith f ".."); simpl; [by split|].
  rewrite IH. split; [by intros ->|by intros [= ?]].
Qed.

End CaptureTrace.

Lemma attempted_app_quiet fs cs1 cs2 :
  Forall (fun c => raises fs c = false) cs1 ->
  attempted fs (cs1 ++ cs2) = cs1 ++ attempted fs cs2.
Proof.
  induction 1 as [|c cs1 Hc _ IH]; simpl; [done|]. by rewrite Hc, IH.
Qed.

Lemma attempted_app_raise fs cs1 cs2 :
  ~ Forall (fun c => raises fs c = false) cs1 ->
  attempted fs (cs1 ++ cs2) = attempted fs cs1.
Proof.
  induction cs1 as [|c cs1 IH]; simpl; intros Hn.
  - destruct Hn. constructor.
  - destruct (raises fs c) eqn:Hc; [done|]. rewrite IH; [done|].
    intros H. apply Hn. by constructor.
Qed.

Lemma attempted_quiet fs cs :
  Forall (fun c => raises fs c = false) cs -> attempted fs cs = cs.
Proof. induction 1 as [|c cs Hc _ IH]; simpl; [done|]. by rewrite Hc, IH. Qed.

Lemma attempted_single fs c : attempted fs [c] = [c].
Proof. simpl. by destruct (raises fs c). Qed.

Lemma attempted_cons fs c cs :
  attempted fs (c :: cs) = c :: (if raises fs c then [] else attempted fs cs).
Proof. done. Qed.

Section CaptureTop.

Local Arguments forEachIO : simpl never.
Local Arguments performAll : simpl never.
Local Arguments insideFiles : simpl never.
Local Arguments attempted : simpl never.

Variable platform : Platform.
Variable config : Config.
Variable fs : FileSystem.

(** The calls [cacheOutputs] makes are the calls it would make if none
    raised, cut after the first that raises; it returns normally exactly
    when none of them raises and no listed file begins with [..]; and it
    assigns [task.outputFiles] as soon as the two deletions are done. *)
Lemma cacheOutputs_calls outputFiles s :
  let files := default [] outputFiles in
  let planned :=
    captureCalls platform fs (Workspace.dir (root (project config)))
      (outDirOf config s) (outManifestPathOf config s) files in
  let out := cacheOutputs platform config fs outputFiles s in
  calls (fst out) = calls s ++ attempted fs planned /\
  (snd out = Ok tt <->
   Forall (fun f => startsWith f ".." = false) files /\
   Forall (fun c => raises fs c = false) planned) /\
  task (fst out) =
    (if raises fs (Rimraf (outDirOf config s))
        || raises fs (Rimraf (outManifestPathOf config s))
     then task s else ScheduledTask.setOutputFiles files (task s)).
Proof.
  intros files planned out.
  assert (out = cacheOutputs platform config fs outputFiles s) as Hout by reflexivity.
  clearbody out. subst planned. unfold captureCalls.
  unfold cacheOutputs in Hout.
  fold (outDirOf config s) in Hout. fold (outManifestPathOf config s) in Hout.
  set (outDir := outDirOf config s) in *. set (manifest := outManifestPathOf config s) in *.
  set (rootDir := Workspace.dir (root (project config))) in *.
  unfold bindIO, perform, assignOutputFiles in Hout. simpl in Hout.
  rewrite !attempted_cons.
  destruct (raises fs (Rimraf outDir)) eqn:R1; simpl in *.
  { subst out. simpl. split; [done|]. split; [|done]. split; [discriminate|].
    intros [_ H]. apply Forall_cons in H as [? _]. congruence. }
  destruct (raises fs (Rimraf manifest)) eqn:R2; simpl in *.
  { subst out. simpl. split; [by rewrite <- app_assoc|]. split; [|done].
    split; [discriminate|].
    intros [_ H]. apply Forall_cons in H as [_ H]. apply Forall_cons in H as [? _].
    congruence. }
  destruct outputFiles as [[|f0 files0]|]; simpl in files; subst files; simpl.
  1,3: subst out; simpl; split; [by rewrite <- app_assoc|];
       (split; [|done]); split; [intros _; split; [constructor|by repeat constructor]|done].
  set (files := f0 :: files0) in *. rewrite attempted_cons.
  destruct (raises fs (MkdirSync outDir)) eqn:R3; simpl in *.
  { subst out. simpl. split; [by rewrite <- !app_assoc|]. split; [|done].
    split; [discriminate|].
    intros [_ H]. do 2 apply Forall_cons in H as [_ H]. apply Forall_cons in H as [? _].
    congruence. }
  rewrite forEachIO_performAll in Hout. unfold bindIO in Hout.
  fold rootDir in Hout.
  set (body := flat_map (fileCalls platform fs rootDir outDir manifest) (insideFiles files))
    in *.
  match type of Hout with
  | context [performAll fs body ?s0] =>
      destruct (performAll_spec fs body s0) as [Hfst Hsnd];
      destruct (performAll fs body s0) as [s1 r1]
  end.
  simpl in Hfst, Hsnd. subst s1.
  destruct r1 as [[]|e].
  - assert (Forall (fun c => raises fs c = false) body) as Hbody by (by apply Hsnd).
    rewrite (attempted_app_quiet fs body) by done.
    rewrite (attempted_quiet fs body Hbody) in Hout.
    destruct (bool_decide_reflect (insideFiles files = files)) as [Hall|Hnot].
    + assert (drop (length (insideFiles files)) files = []) as Hdrop
        by (by apply insideFiles_drop).
      rewrite Hdrop in Hout. unfold pureIO in Hout. simpl in Hout.
      rewrite attempted_single.
      destruct (raises fs (ManifestClose manifest)) eqn:R4; subst out; simpl.
      * split; [by rewrite <- !app_assoc|]. split; [|done]. split; [discriminate|].
        intros [_ H]. do 3 apply Forall_cons in H as [_ H].
        apply Forall_app in H as [_ H]. apply Forall_cons in H as [? _]. congruence.
      * split; [by rewrite <- !app_assoc|]. split; [|done]. split; [intros _|done].
        split; [by apply insideFiles_all|].
        repeat (apply Forall_cons; split; [done|]).
        apply Forall_app. split; [done|]. by repeat constructor.
    + destruct (drop (length (insideFiles files)) files) as [|f rest] eqn:Hdrop.
      { apply insideFiles_drop in Hdrop. done. }
      unfold throwIO in Hout. subst out. simpl. rewrite app_nil_r.
      change (attempted fs []) with (@nil FsCall). rewrite app_nil_r.
      split; [by rewrite <- !app_assoc|]. split; [|done]. split; [discriminate|].
      intros [H _]. by apply insideFiles_all in H.
  - assert (~ Forall (fun c => raises fs c = false) body) as Hbody.
    { intros H. apply Hsnd in H. discriminate. }
    rewrite (attempted_app_raise fs body) by done. subst out. simpl.
    split; [by rewrite <- !app_assoc|]. split; [|done]. split; [discriminate|].
    intros [_ H]. do 3 apply Forall_cons in H as [_ H]. apply Forall_app in H as [? _]. done.
Qed.

End CaptureTop.

(** ** The properties *)

Lemma TaskGraph_new_shape platform config fuel requestedTasks g :
  lookupByDirSound config ->
  TaskGraph_new platform config fuel requestedTasks = Ok g ->
  freshGraph g /\ sameKeySet g /\ noDanglingEdges g /\ dependenciesFirst g.
Proof.
  intros HbyDir Hnew.
  split; [by eapply TaskGraph_new_fresh|].
  destruct (TaskGraph_new_Inv platform config HbyDir fuel requestedTasks g Hnew)
    as [ND DOM _ TOPO _].
  assert (forall k, is_Some (allTasks g !! k) <-> k ∈ sortedTaskKeys g) as Hdom.
  { intros k. rewrite DOM. split; [intros [?|?%elem_of_nil]; done|by left]. }
  assert (dependenciesFirst g) as Htopo.
  { intros i k t d Hi Hk Hd. apply (TOPO i k d Hi). unfold depsOf. by rewrite Hk. }
  split; [by split|]. split; [|done].
  intros k t d Hk Hd.
  assert (k ∈ sortedTaskKeys g) as Hin by (apply Hdom; eauto).
  apply list_elem_of_lookup_1 in Hin as [i Hi].
  destruct (Htopo i k t d Hi Hk Hd) as (j & _ & Hj).
  apply Hdom. by eapply list_elem_of_lookup_2.
Qed.

Lemma workers_invokeTick max g w r : workers (invokeTick max g w r) = w.
Proof. unfold invokeTick. by destruct (tickDecision max g) as [[| |?]|?]. Qed.

Lemma statusFilter_elem_of g st l r k :
  filterR (fun key => let! task := getTask g key in
                      Ok (bool_decide (ScheduledTask.status task = st))) l = Ok r ->
  k ∈ r <-> k ∈ l /\ statusOf g k = Some st.
Proof.
  intros H. rewrite (filterR_elem_of _ _ _ k H).
  unfold getTask, statusOf. destruct (allTasks g !! k) as [t|]; simpl.
  - destruct (bool_decide_reflect (ScheduledTask.status t = st)) as [->|Hn].
    + tauto.
    + split; intros [? ?]; [discriminate|]. congruence.
  - split; intros [? ?]; discriminate.
Qed.

Lemma getTaskStats_total g :
  (forall key, key ∈ sortedTaskKeys g -> is_Some (allTasks g !! key)) ->
  exists stats, getTaskStats g = Ok stats.
Proof.
  unfold getTaskStats. generalize (TaskStats.mk 0 0 0 0 0 0 0).
  induction (sortedTaskKeys g) as [|k l IH]; intros stats0 Hn; simpl; [eauto|].
  destruct (getTask_Ok g k) as [t Ht]; [apply Hn; by left|].
  rewrite Ht. simpl. apply IH. intros key Hkey. apply Hn. by right.
Qed.

Lemma getTaskStats_nodes g stats key :
  getTaskStats g = Ok stats -> key ∈ sortedTaskKeys g -> is_Some (allTasks g !! key).
Proof.
  unfold getTaskStats. generalize (TaskStats.mk 0 0 0 0 0 0 0).
  induction (sortedTaskKeys g) as [|k l IH]; intros stats0 H Hkey; simpl in H;
    [by apply elem_of_nil in Hkey|].
  apply bind_Ok in H as (stats1 & Hbody & H).
  apply elem_of_cons in Hkey as [->|Hkey]; [|by eapply IH].
  apply bind_Ok in Hbody as (t & Ht & _). unfold getTask in Ht.
  destruct (allTasks g !! k); [eauto|discriminate].
Qed.

Lemma Sample_buildRun12 : rtc (step 1) Sample.buildRun1 Sample.buildRun2.
Proof.
  apply rtc_once.
  apply (step_finish 1 Sample.buildRun1 [] Sample.utilsBuildKey [] true false).
  - reflexivity.
  - vm_compute. reflexivity.
Qed.

Lemma Sample_buildRun02 : nsteps (step 1) 2 (runAllTasks 1 Sample.buildGraph) Sample.buildRun2.
Proof.
  eapply nsteps_l; [|eapply nsteps_once].
  - apply (step_start 1 Sample.buildRun0 Sample.utilsBuildKey []). vm_compute. reflexivity.
  - apply (step_finish 1 Sample.buildRun1 [] Sample.utilsBuildKey [] true false).
    + reflexivity.
    + vm_compute. reflexivity.
Qed.

Lemma Sample_buildGraph_shape :
  freshGraph Sample.buildGraph /\ sameKeySet Sample.buildGraph /\
  noDanglingEdges Sample.buildGraph /\ dependenciesFirst Sample.buildGraph.
Proof.
  apply (TaskGraph_new_shape Sample.platform Sample.config 10 [Sample.request "build" []]).
  - apply Sample_lookupByDirSound.
  - vm_compute. reflexivity.
Qed.

(** X1. In every execution of [runAllTasks] the status of a task only
    moves forward, from pending to running to one of [success:eager],
    [success:lazy] and [failure]; and a task that has one of these three
    statuses keeps it to the end of the execution. *)
Theorem X1_statuses_only_move_forward max g c c' k :
  freshGraph g -> reachable max g c -> rtc (step max) c c' ->
  rankOf (graph c) k <= rankOf (graph c') k /\
  (forall s, statusOf (graph c) k = Some s -> statusRank s = 2 ->
             statusOf (graph c') k = Some s).
Proof.
  intros Hf Hr Hs. pose proof (reachable_inv _ _ _ Hf Hr) as HI. split.
  - by eapply steps_rank.
  - intros s Hk Hrank. eapply steps_terminal; eauto; intros ->; discriminate.
Qed.

Lemma X1_witness :
  freshGraph Sample.buildGraph /\
  reachable 1 Sample.buildGraph Sample.buildRun1 /\
  rtc (step 1) Sample.buildRun1 Sample.buildRun2 /\
  rankOf (graph Sample.buildRun1) Sample.utilsBuildKey
    <= rankOf (graph Sample.buildRun2) Sample.utilsBuildKey.
Proof.
  split; [exact Sample_buildGraph_fresh|]. split; [exact Sample_buildRun1_reachable|].
  split; [exact Sample_buildRun12|].
  exact (proj1 (X1_statuses_only_move_forward 1 Sample.buildGraph Sample.buildRun1
                  Sample.buildRun2 Sample.utilsBuildKey Sample_buildGraph_fresh
                  Sample_buildRun1_reachable Sample_buildRun12)).
Defined.

(** X2. A task is started at most once: once its status is no longer
    pending, no later [tick] of the execution puts it among the keys it
    starts, and no later step adds a [runTask] activation for it. *)
Theorem X2_task_started_at_most_once max g c c' k s :
  freshGraph g -> reachable max g c ->
  statusOf (graph c) k = Some s -> s <> Pending ->
  rtc (step max) c c' ->
  (k ∉ starting c') /\
  (forall c'', step max c' c'' -> k ∈ workers c'' -> k ∈ workers c').
Proof.
  intros Hf Hr Hk Hs Hsteps. pose proof (reachable_inv _ _ _ Hf Hr) as HI.
  pose proof (steps_inv _ _ _ HI Hsteps) as HI'.
  assert (k ∉ starting c') as Hnot.
  { intros Hin. destruct (ci_starting _ _ HI' k Hin) as (Hp & _).
    pose proof (steps_rank _ _ _ k HI Hsteps) as Hle. unfold rankOf in Hle.
    rewrite Hk, Hp in Hle. destruct s; simpl in Hle; first [done|lia]. }
  split; [done|].
  intros c'' Hstep Hin.
  destruct Hstep as [c' k0 rest Hst | c' before k0 after dr ds Hst Hw]; simpl in Hin.
  - apply elem_of_app in Hin as [?|Hin]; [done|].
    apply list_elem_of_singleton in Hin as ->. destruct Hnot. rewrite Hst. by left.
  - rewrite workers_invokeTick in Hin. rewrite Hw.
    apply elem_of_app in Hin as [?|?]; apply elem_of_app; [by left|right; by right].
Qed.

Lemma X2_witness :
  freshGraph Sample.buildGraph /\
  reachable 1 Sample.buildGraph Sample.buildRun1 /\
  statusOf (graph Sample.buildRun1) Sample.utilsBuildKey = Some Running /\
  rtc (step 1) Sample.buildRun1 Sample.buildRun2 /\
  Sample.utilsBuildKey ∉ starting Sample.buildRun2.
Proof.
  assert (statusOf (graph Sample.buildRun1) Sample.utilsBuildKey = Some Running) as H
    by (vm_compute; reflexivity).
  assert (Running <> Pending) as Hne by discriminate.
  split; [exact Sample_buildGraph_fresh|]. split; [exact Sample_buildRun1_reachable|].
  split; [exact H|]. split; [exact Sample_buildRun12|].
  exact (proj1 (X2_task_started_at_most_once 1 Sample.buildGraph Sample.buildRun1
                  Sample.buildRun2 Sample.utilsBuildKey Running Sample_buildGraph_fresh
                  Sample_buildRun1_reachable H Hne Sample_buildRun12)).
Defined.

(** X3. At every point of an execution of [runAllTasks] the tasks whose
    status is running are exactly the tasks a [runTask] activation is
    awaiting, each with one activation; so [allRunningTaskKeys] returns
    these tasks, in some order. *)
Theorem X3_running_tasks_are_the_activations max g c :
  freshGraph g -> reachable max g c ->
  NoDup (workers c) /\
  (forall k, k ∈ workers c <-> statusOf (graph c) k = Some Running) /\
  (forall running, allRunningTaskKeys (graph c) = Ok running -> running ≡ₚ workers c).
Proof.
  intros Hf Hr. pose proof (reachable_inv _ _ _ Hf Hr) as HI.
  assert (NoDup (workers c)) as ND.
  { pose proof (ci_nodup _ _ HI) as ND. by apply NoDup_app in ND as (ND & _ & _). }
  split; [done|]. split; [intros k; symmetry; apply (ci_running _ _ HI)|].
  intros running Hrun. apply NoDup_Permutation; [|done|].
  - eapply sublist_NoDup; [exact (ci_sorted _ _ HI)|]. by eapply filterR_sublist.
  - intros k. rewrite (allRunningTaskKeys_elem_of _ _ k Hrun), (ci_running _ _ HI).
    split; [tauto|]. intros Hk. split; [by apply (ci_workers _ _ HI)|done].
Qed.

Lemma X3_witness :
  freshGraph Sample.buildGraph /\
  reachable 1 Sample.buildGraph Sample.buildRun1 /\
  (forall k, k ∈ workers Sample.buildRun1 <->
             statusOf (graph Sample.buildRun1) k = Some Running).
Proof.
  split; [exact Sample_buildGraph_fresh|]. split; [exact Sample_buildRun1_reachable|].
  exact (proj1 (proj2 (X3_running_tasks_are_the_activations 1 Sample.buildGraph
                         Sample.buildRun1 Sample_buildGraph_fresh
                         Sample_buildRun1_reachable))).
Defined.

Lemma resolved_iff_quiescent max g c :
  (1 <= max)%Z -> freshGraph g -> nodesResolve g -> reachable max g c ->
  resolved c = true <-> quiescent c.
Proof.
  intros Hmax Hf Hn Hr. split.
  - intros Hres. by destruct (resolved_inv _ _ _ Hf Hr Hres).
  - by apply (quiescent_resolved max g c).
Qed.

Lemma unresolved_can_step max g c :
  (1 <= max)%Z -> freshGraph g -> nodesResolve g -> reachable max g c ->
  resolved c = false -> exists c', step max c c'.
Proof.
  intros Hmax Hf Hn Hr Hres.
  destruct (starting c) as [|k rest] eqn:Hs.
  - destruct (workers c) as [|k after] eqn:Hw.
    + assert (resolved c = true) as Habs
        by (by apply (resolved_iff_quiescent max g c)).
      congruence.
    + eexists. by apply (step_finish max c [] k after true true).
  - eexists. by apply (step_start max c k rest).
Qed.

(** X4. On a graph whose keys all have nodes, [runAllTasks] resolves
    exactly when the controller is at rest: the promise is resolved if and
    only if no [tick] is in progress and no [runTask] awaits; when it is
    resolved, nothing is running, nothing is ready and no further step
    happens; and as long as it is not resolved, a step can be taken (a key
    is started, or a running task may finish), so the run cannot stall. *)
Theorem X4_run_resolves_exactly_at_rest env g c :
  freshGraph g -> nodesResolve g -> reachable (maxConcurrentTasks env) g c ->
  (resolved c = true <-> quiescent c) /\
  (resolved c = true ->
   allRunningTaskKeys (graph c) = Ok [] /\ allReadyTaskKeys (graph c) = Ok [] /\
   forall c', ~ step (maxConcurrentTasks env) c c') /\
  (resolved c = false -> exists c', step (maxConcurrentTasks env) c c').
Proof.
  intros Hf Hn Hr. pose proof (maxConcurrentTasks_pos env) as Hmax.
  split; [by apply (resolved_iff_quiescent (maxConcurrentTasks env) g)|]. split.
  - intros Hres. destruct (resolved_inv _ _ _ Hf Hr Hres) as [[Hs Hw] Hd].
    destruct (tickDecision_cases _ _ _ Hd) as (running & ready & Hrun & Hready & -> & ->).
    split; [done|]. split; [done|].
    intros c' Hstep.
    destruct Hstep as [c k0 rest Hst | c before k0 after dr ds Hst Hwk].
    + congruence.
    + rewrite Hw in Hwk. by destruct before.
  - by apply (unresolved_can_step (maxConcurrentTasks env) g).
Qed.

Lemma X4_witness :
  freshGraph Sample.buildGraph /\ nodesResolve Sample.buildGraph /\
  reachable (maxConcurrentTasks Sample.testEnv) Sample.buildGraph Sample.buildRun2 /\
  (resolved Sample.buildRun2 = true <-> quiescent Sample.buildRun2).
Proof.
  assert (nodesResolve Sample.buildGraph) as Hn.
  { apply sameKeySet_nodesResolve; apply Sample_buildGraph_shape. }
  split; [exact Sample_buildGraph_fresh|]. split; [exact Hn|].
  split; [exact Sample_buildRun2_reachable|].
  exact (proj1 (X4_run_resolves_exactly_at_rest Sample.testEnv Sample.buildGraph
                  Sample.buildRun2 Sample_buildGraph_fresh Hn
                  Sample_buildRun2_reachable)).
Defined.

(** X5. An execution of [runAllTasks] takes at most two steps per task of
    the sorted key list (one to start it, one when it finishes): after [n]
    steps, [n] plus the status changes still possible is at most twice the
    number of tasks. *)
Theorem X5_run_takes_two_steps_per_task max g n c :
  freshGraph g -> nsteps (step max) n (runAllTasks max g) c ->
  n + workLeft (graph c) <= 2 * length (sortedTaskKeys g).
Proof.
  intros Hf Hs.
  assert (ControllerInv max (runAllTasks max g)) as HI
    by (eapply reachable_inv; [exact Hf|apply reachable_start]).
  pose proof (nsteps_workLeft _ _ _ _ HI Hs) as Hle.
  pose proof (workLeft_bound g) as Hb.
  unfold runAllTasks in Hle. rewrite graph_invokeTick in Hle. lia.
Qed.

Lemma X5_witness :
  freshGraph Sample.buildGraph /\
  nsteps (step 1) 2 (runAllTasks 1 Sample.buildGraph) Sample.buildRun2 /\
  2 + workLeft (graph Sample.buildRun2) <= 2 * length (sortedTaskKeys Sample.buildGraph).
Proof.
  split; [exact Sample_buildGraph_fresh|]. split; [exact Sample_buildRun02|].
  exact (X5_run_takes_two_steps_per_task 1 Sample.buildGraph 2 Sample.buildRun2
           Sample_buildGraph_fresh Sample_buildRun02).
Defined.

(** X6. When [runAllTasks] resolves on a topologically sorted graph, every
    task of the sorted key list has succeeded or failed, or is still
    pending because a task it depends on, directly or through other tasks,
    has failed; none is running. *)
Theorem X6_outcome_at_resolution max g c k :
  freshGraph g -> dependenciesFirst g ->
  reachable max g c -> resolved c = true -> k ∈ sortedTaskKeys g ->
  (exists s, statusOf (graph c) k = Some s /\ (isSuccess s = true \/ s = Failure)) \/
  (statusOf (graph c) k = Some Pending /\
   exists d, dependsOn g k d /\ statusOf (graph c) d = Some Failure).
Proof.
  intros Hf Htopo Hr Hres Hk.
  destruct (resolved_task_outcome _ _ _ _ Hf Htopo Hr Hres Hk) as [(s & Hs & Hrank)|H];
    [left|by right].
  exists s. split; [done|]. by apply rank_final.
Qed.

Lemma X6_witness :
  freshGraph Sample.buildGraph /\ dependenciesFirst Sample.buildGraph /\
  reachable 1 Sample.buildGraph Sample.buildRun2 /\
  resolved Sample.buildRun2 = true /\
  "build::/repo/packages/core" ∈ sortedTaskKeys Sample.buildGraph /\
  ((exists s, statusOf (graph Sample.buildRun2) "build::/repo/packages/core" = Some s /\
              (isSuccess s = true \/ s = Failure)) \/
   (statusOf (graph Sample.buildRun2) "build::/repo/packages/core" = Some Pending /\
    exists d, dependsOn Sample.buildGraph "build::/repo/packages/core" d /\
              statusOf (graph Sample.buildRun2) d = Some Failure)).
Proof.
  assert (dependenciesFirst Sample.buildGraph) as Ht by apply Sample_buildGraph_shape.
  assert (resolved Sample.buildRun2 = true) as Hres by (vm_compute; reflexivity).
  assert ("build::/repo/packages/core" ∈ sortedTaskKeys Sample.buildGraph) as Hk.
  { rewrite Sample_build_order. right. left. }
  split; [exact Sample_buildGraph_fresh|]. split; [exact Ht|].
  split; [exact Sample_buildRun2_reachable|]. split; [exact Hres|]. split; [exact Hk|].
  exact (X6_outcome_at_resolution 1 Sample.buildGraph Sample.buildRun2
           "build::/repo/packages/core" Sample_buildGraph_fresh Ht
           Sample_buildRun2_reachable Hres Hk).
Defined.

(** X7. The statistics [getTaskStats] gives when [runAllTasks] has
    resolved on a topologically sorted graph: no task is counted as
    running; and when no task is counted as failed, none is pending and
    every task is counted as successful. *)
Theorem X7_statistics_at_resolution max g c stats :
  freshGraph g -> dependenciesFirst g ->
  reachable max g c -> resolved c = true ->
  getTaskStats (graph c) = Ok stats ->
  TaskStats.running stats = 0 /\
  TaskStats.allTasks stats = length (sortedTaskKeys g) /\
  (TaskStats.failure stats = 0 ->
   TaskStats.pending stats = 0 /\
   TaskStats.successful stats = TaskStats.allTasks stats).
Proof.
  intros Hf Htopo Hr Hres Hstats. unfold getTaskStats in Hstats.
  apply getTaskStats_loop in Hstats as (Hp & Hrun & Hsl & Hse & Hfl & Hsucc & Hall & Hsum).
  rewrite (reachable_sortedTaskKeys _ _ _ Hr) in *. simpl in *.
  assert (forall k, k ∈ sortedTaskKeys g ->
            (exists s, statusOf (graph c) k = Some s /\ statusRank s = 2) \/
            (statusOf (graph c) k = Some Pending /\
             exists d, d ∈ sortedTaskKeys g /\ statusOf (graph c) d = Some Failure))
    as Hout.
  { intros k Hk.
    destruct (resolved_task_outcome _ _ _ _ Hf Htopo Hr Hres Hk)
      as [?|(Hpend & d & Hdep & Hfail)]; [by left|right].
    split; [done|]. exists d. split; [|done].
    apply list_elem_of_lookup_1 in Hk as [i Hi].
    destruct (dependsOn_earlier g k d (proj1 Hf) (dependenciesFirst_depsOf g Htopo)
                Hdep i Hi) as (j & _ & Hj).
    by eapply list_elem_of_lookup_2. }
  assert (statusCount (graph c) Running (sortedTaskKeys g) = 0) as Hr0.
  { apply statusCount_zero. intros k Hk Hs.
    destruct (Hout k Hk) as [(s & Hs' & Hrank)|(Hs' & _)]; rewrite Hs in Hs';
      [injection Hs' as <-|]; discriminate. }
  split; [lia|]. split; [done|].
  intros Hf0.
  assert (statusCount (graph c) Failure (sortedTaskKeys g) = 0) as Hfl0 by lia.
  assert (statusCount (graph c) Pending (sortedTaskKeys g) = 0) as Hp0.
  { apply statusCount_zero. intros k Hk Hs.
    destruct (Hout k Hk) as [(s & Hs' & Hrank)|(_ & d & Hd & Hfail)].
    - rewrite Hs in Hs'. injection Hs' as <-. discriminate.
    - by apply (statusCount_zero_inv _ _ _ d Hfl0 Hd). }
  lia.
Qed.

Lemma X7_witness :
  freshGraph Sample.buildGraph /\ dependenciesFirst Sample.buildGraph /\
  reachable 1 Sample.buildGraph Sample.buildRun2 /\
  resolved Sample.buildRun2 = true /\
  getTaskStats (graph Sample.buildRun2) = Ok (TaskStats.mk 3 0 0 0 0 1 4) /\
  TaskStats.running (TaskStats.mk 3 0 0 0 0 1 4) = 0.
Proof.
  assert (dependenciesFirst Sample.buildGraph) as Ht by apply Sample_buildGraph_shape.
  assert (resolved Sample.buildRun2 = true) as Hres by (vm_compute; reflexivity).
  assert (getTaskStats (graph Sample.buildRun2) = Ok (TaskStats.mk 3 0 0 0 0 1 4)) as Hs
    by (vm_compute; reflexivity).
  split; [exact Sample_buildGraph_fresh|]. split; [exact Ht|].
  split; [exact Sample_buildRun2_reachable|]. split; [exact Hres|]. split; [exact Hs|].
  exact (proj1 (X7_statistics_at_resolution 1 Sample.buildGraph Sample.buildRun2 _
                  Sample_buildGraph_fresh Ht Sample_buildRun2_reachable Hres Hs)).
Defined.

(** X8. What [allReadyTaskKeys] lists: only ready tasks of the sorted key
    list; every ready task whose config says [parallel]; and, for a ready
    task that is not parallel, one ready non-parallel task of the same
    script name (possibly another one). *)
Theorem X8_ready_tasks_are_listed g ready :
  allReadyTaskKeys g = Ok ready ->
  (forall k, k ∈ ready -> k ∈ sortedTaskKeys g /\ isTaskReady g k = Ok true) /\
  (forall k t,
     k ∈ sortedTaskKeys g -> isTaskReady g k = Ok true -> allTasks g !! k = Some t ->
     if TaskConfig.parallel (ScheduledTask.taskConfig t) then k ∈ ready
     else exists k', k' ∈ ready /\
            isUnparallelizable g (ScheduledTask.scriptName t) k' = true).
Proof.
  unfold allReadyTaskKeys. intros H.
  apply bind_Ok in H as (cands & Hc & H). apply bind_Ok in H as (kept & Hk & H).
  injection H as <-.
  assert (forall k, k ∈ js_sort kept <-> k ∈ kept) as Hsort.
  { intros k. by rewrite (js_sort_Permutation kept). }
  split.
  - intros k Hin. apply Hsort in Hin.
    apply (filterR_elem_of _ _ _ k Hc).
    eapply elem_of_sublist; [exact Hin|]. by eapply filterUnparallelizable_sublist.
  - intros k t Hin Hready Ht.
    assert (k ∈ cands) as Hcand by (apply (filterR_elem_of _ _ _ k Hc); by split).
    destruct (filterUnparallelizable_keeps _ _ _ _ k Hk Hcand) as [Hpar Hnon].
    destruct (TaskConfig.parallel (ScheduledTask.taskConfig t)) eqn:Hp.
    + apply Hsort. by apply (Hpar t).
    + destruct (Hnon (ScheduledTask.scriptName t)) as [Habs|(k' & Hk' & Hu)].
      * unfold isUnparallelizable. rewrite Ht, Hp. simpl. apply String.eqb_refl.
      * by apply elem_of_empty in Habs.
      * exists k'. split; [by apply Hsort|done].
Qed.

Lemma X8_witness :
  allReadyTaskKeys Sample.testGraphBuilt =
    Ok ["test::/repo/packages/core"] /\
  (forall k, k ∈ ["test::/repo/packages/core"] ->
     k ∈ sortedTaskKeys Sample.testGraphBuilt /\
     isTaskReady Sample.testGraphBuilt k = Ok true).
Proof.
  assert (allReadyTaskKeys Sample.testGraphBuilt = Ok ["test::/repo/packages/core"]) as H
    by (vm_compute; reflexivity).
  split; [exact H|].
  exact (proj1 (X8_ready_tasks_are_listed Sample.testGraphBuilt _ H)).
Defined.

(** X9. [getTaskStats] returns exactly when every key of the sorted key
    list has a node (it raises on the first key that has none).  The
    statistics it returns count the tasks of the sorted key list by
    status; [allTasks] is the length of the list; [successful] is the sum
    of the two success counts; and the counts of pending, running,
    successful and failed tasks add up to [allTasks]. *)
Theorem X9_getTaskStats_counts g :
  ((exists stats, getTaskStats g = Ok stats) <->
   (forall key, key ∈ sortedTaskKeys g -> is_Some (allTasks g !! key))) /\
  (forall stats, getTaskStats g = Ok stats ->
     TaskStats.pending stats = statusCount g Pending (sortedTaskKeys g) /\
     TaskStats.running stats = statusCount g Running (sortedTaskKeys g) /\
     TaskStats.success_lazy stats = statusCount g SuccessLazy (sortedTaskKeys g) /\
     TaskStats.success_eager stats = statusCount g SuccessEager (sortedTaskKeys g) /\
     TaskStats.failure stats = statusCount g Failure (sortedTaskKeys g) /\
     TaskStats.allTasks stats = length (sortedTaskKeys g) /\
     TaskStats.successful stats =
       TaskStats.success_lazy stats + TaskStats.success_eager stats /\
     TaskStats.pending stats + TaskStats.running stats + TaskStats.successful stats
       + TaskStats.failure stats = TaskStats.allTasks stats).
Proof.
  split.
  - split.
    + intros [stats H] key Hkey. by eapply getTaskStats_nodes.
    + apply getTaskStats_total.
  - intros stats H. unfold getTaskStats in H.
    apply getTaskStats_loop in H as (Hp & Hrun & Hsl & Hse & Hfl & Hsucc & Hall & Hsum).
    simpl in *. repeat split; lia.
Qed.

(** X10. [getTaskStats], [allRunningTaskKeys] and [allFailedTaskKeys]
    agree: the two lists have as many keys as the statistics count running
    and failed tasks; they hold the running and the failed tasks of the
    sorted key list, in the order of that list. *)
Theorem X10_statistics_agree_with_key_lists g stats running failed :
  getTaskStats g = Ok stats ->
  allRunningTaskKeys g = Ok running -> allFailedTaskKeys g = Ok failed ->
  TaskStats.running stats = length running /\
  TaskStats.failure stats = length failed /\
  running `sublist_of` sortedTaskKeys g /\ failed `sublist_of` sortedTaskKeys g /\
  (forall k, k ∈ running <-> k ∈ sortedTaskKeys g /\ statusOf g k = Some Running) /\
  (forall k, k ∈ failed <-> k ∈ sortedTaskKeys g /\ statusOf g k = Some Failure).
Proof.
  intros H Hrun Hfail. unfold getTaskStats in H.
  apply getTaskStats_loop in H as (_ & Hr & _ & _ & Hf & _). simpl in *.
  unfold allRunningTaskKeys in Hrun. unfold allFailedTaskKeys in Hfail.
  split; [by rewrite (filterR_status_length _ _ _ _ Hrun)|].
  split; [by rewrite (filterR_status_length _ _ _ _ Hfail)|].
  split; [by eapply filterR_sublist|]. split; [by eapply filterR_sublist|].
  split; intros k; by apply statusFilter_elem_of.
Qed.

Lemma X10_witness :
  getTaskStats (graph Sample.buildRun2) = Ok (TaskStats.mk 3 0 0 0 0 1 4) /\
  allRunningTaskKeys (graph Sample.buildRun2) = Ok [] /\
  allFailedTaskKeys (graph Sample.buildRun2) = Ok [Sample.utilsBuildKey] /\
  TaskStats.failure (TaskStats.mk 3 0 0 0 0 1 4) = length [Sample.utilsBuildKey].
Proof.
  assert (getTaskStats (graph Sample.buildRun2) = Ok (TaskStats.mk 3 0 0 0 0 1 4)) as Hs
    by (vm_compute; reflexivity).
  assert (allRunningTaskKeys (graph Sample.buildRun2) = Ok []) as Hr
    by (vm_compute; reflexivity).
  assert (allFailedTaskKeys (graph Sample.buildRun2) = Ok [Sample.utilsBuildKey]) as Hf
    by (vm_compute; reflexivity).
  split; [exact Hs|]. split; [exact Hr|]. split; [exact Hf|].
  exact (proj1 (proj2 (X10_statistics_agree_with_key_lists _ _ _ _ Hs Hr Hf))).
Defined.

(** X11. The graph the constructor returns has no dependency cycle: a task
    that another depends on, directly or through other tasks, stands
    before it in the sorted key list; so no task depends on itself. *)
Theorem X11_constructed_graph_is_acyclic platform config fuel requestedTasks g :
  lookupByDirSound config ->
  TaskGraph_new platform config fuel requestedTasks = Ok g ->
  (forall k d, dependsOn g k d ->
     exists i j, j < i /\ sortedTaskKeys g !! i = Some k /\
                 sortedTaskKeys g !! j = Some d) /\
  (forall k, ~ dependsOn g k k).
Proof.
  intros HbyDir Hnew.
  destruct (TaskGraph_new_shape _ _ _ _ _ HbyDir Hnew) as ([ND _] & [_ Hdom] & _ & Htopo).
  assert (forall k d, dependsOn g k d ->
            exists i j, j < i /\ sortedTaskKeys g !! i = Some k /\
                        sortedTaskKeys g !! j = Some d) as Hearlier.
  { intros k d Hdep.
    assert (k ∈ sortedTaskKeys g) as Hk.
    { apply Hdom.
      assert (exists m, m ∈ depsOf g k) as [m Hm] by (destruct Hdep; eauto).
      unfold depsOf in Hm. destruct (allTasks g !! k); [eauto|by apply elem_of_nil in Hm]. }
    apply list_elem_of_lookup_1 in Hk as [i Hi].
    destruct (dependsOn_earlier g k d ND (dependenciesFirst_depsOf g Htopo) Hdep i Hi)
      as (j & Hj & Hjd).
    by exists i, j. }
  split; [done|].
  intros k Hdep. destruct (Hearlier k k Hdep) as (i & j & Hlt & Hi & Hj).
  pose proof (NoDup_lookup _ _ _ _ ND Hi Hj). lia.
Qed.

Lemma X11_witness :
  lookupByDirSound Sample.config /\
  TaskGraph_new Sample.platform Sample.config 10 [Sample.request "deploy" []]
    = Ok Sample.deployGraph /\
  (forall k, ~ dependsOn Sample.deployGraph k k).
Proof.
  assert (lookupByDirSound Sample.config) as H1 by apply Sample_lookupByDirSound.
  assert (TaskGraph_new Sample.platform Sample.config 10 [Sample.request "deploy" []]
          = Ok Sample.deployGraph) as H2 by (vm_compute; reflexivity).
  split; [exact H1|]. split; [exact H2|].
  exact (proj2 (X11_constructed_graph_is_acyclic _ _ _ _ _ H1 H2)).
Defined.

(** X12. The constructor schedules what was requested: for every requested
    task, the key of each of its target workspaces (the root workspace for
    a top-level script, otherwise the matching workspaces that declare the
    script) is in the sorted key list of the graph it returns, and has a
    node. *)
Theorem X12_requested_targets_are_scheduled
    platform config fuel requestedTasks g requestedTask key :
  lookupByDirSound config ->
  TaskGraph_new platform config fuel requestedTasks = Ok g ->
  requestedTask ∈ requestedTasks ->
  key ∈ targetKeys platform config requestedTask ->
  key ∈ sortedTaskKeys g /\ is_Some (allTasks g !! key).
Proof.
  intros HbyDir Hnew Hrt Hkey.
  assert (key ∈ sortedTaskKeys g) as Hin by (by eapply TaskGraph_new_schedules).
  split; [done|].
  destruct (TaskGraph_new_shape _ _ _ _ _ HbyDir Hnew) as (_ & [_ Hdom] & _).
  by apply Hdom.
Qed.

Lemma X12_witness :
  lookupByDirSound Sample.config /\
  TaskGraph_new Sample.platform Sample.config 10 [Sample.request "test" []]
    = Ok Sample.testGraph /\
  Sample.request "test" [] ∈ [Sample.request "test" []] /\
  "test::/repo/packages/ui"
    ∈ targetKeys Sample.platform Sample.config (Sample.request "test" []) /\
  "test::/repo/packages/ui" ∈ sortedTaskKeys Sample.testGraph.
Proof.
  assert (lookupByDirSound Sample.config) as H1 by apply Sample_lookupByDirSound.
  assert (TaskGraph_new Sample.platform Sample.config 10 [Sample.request "test" []]
          = Ok Sample.testGraph) as H2 by (vm_compute; reflexivity).
  assert (Sample.request "test" [] ∈ [Sample.request "test" []]) as H3 by left.
  assert ("test::/repo/packages/ui"
            ∈ targetKeys Sample.platform Sample.config (Sample.request "test" [])) as H4.
  { vm_compute. right. left. }
  split; [exact H1|]. split; [exact H2|]. split; [exact H3|]. split; [exact H4|].
  exact (proj1 (X12_requested_targets_are_scheduled _ _ _ _ _ _ _ H1 H2 H3 H4)).
Defined.

(** X13. Every node of the graph the constructor returns is stored under
    its own key, which is the task key of its workspace directory and
    script name; it carries the task config of that workspace and script,
    is pending, has no output files and no input manifest cache key; and
    its dependency list is, in order and with repetitions, the keys of the
    targets of each [runsAfter] entry of its config, followed, for a
    [dependent] script, by the keys of the local dependency workspaces
    that declare the script. *)
Theorem X13_constructed_nodes platform config fuel requestedTasks g key task :
  lookupByDirSound config ->
  TaskGraph_new platform config fuel requestedTasks = Ok g ->
  allTasks g !! key = Some task ->
  ScheduledTask.key task = key /\
  key = getTaskKey config (Workspace.dir (ScheduledTask.workspace task))
          (ScheduledTask.scriptName task) /\
  ScheduledTask.taskConfig task =
    getTaskConfig config (ScheduledTask.workspace task) (ScheduledTask.scriptName task) /\
  ScheduledTask.status task = Pending /\
  ScheduledTask.outputFiles task = [] /\
  ScheduledTask.inputManifestCacheKey task = None /\
  expectedDependencies platform config (ScheduledTask.taskConfig task)
    (ScheduledTask.workspace task) (ScheduledTask.scriptName task)
    (ScheduledTask.force task)
  = Ok (ScheduledTask.dependencies task).
Proof.
  intros HbyDir Hnew Hnode.
  destruct (TaskGraph_new_shape _ _ _ _ _ HbyDir Hnew) as (_ & [_ Hdom] & _).
  apply (TaskGraph_new_records platform config HbyDir fuel requestedTasks g Hnew key task
           Hnode).
  apply Hdom. eauto.
Qed.

Lemma X13_witness :
  lookupByDirSound Sample.config /\
  TaskGraph_new Sample.platform Sample.config 10 [Sample.request "deploy" []]
    = Ok Sample.deployGraph /\
  exists task,
    allTasks Sample.deployGraph !! "deploy::/repo" = Some task /\
    ScheduledTask.dependencies task =
      ["build::/repo/packages/core"; "build::/repo/packages/ui";
       "build::/repo/packages/utils"; "build::/repo/apps/web"] /\
    expectedDependencies Sample.platform Sample.config (ScheduledTask.taskConfig task)
      (ScheduledTask.workspace task) (ScheduledTask.scriptName task)
      (ScheduledTask.force task)
    = Ok (ScheduledTask.dependencies task).
Proof.
  assert (lookupByDirSound Sample.config) as H1 by apply Sample_lookupByDirSound.
  assert (TaskGraph_new Sample.platform Sample.config 10 [Sample.request "deploy" []]
          = Ok Sample.deployGraph) as H2 by (vm_compute; reflexivity).
  split; [exact H1|]. split; [exact H2|].
  destruct (allTasks Sample.deployGraph !! "deploy::/repo") as [task|] eqn:H3;
    [|vm_compute in H3; discriminate H3].
  exists task. split; [reflexivity|].
  split; [vm_compute in H3; injection H3 as <-; reflexivity|].
  exact (proj2 (proj2 (proj2 (proj2 (proj2 (proj2
           (X13_constructed_nodes _ _ _ _ _ _ _ H1 H2 H3))))))).
Defined.

Section CaptureSuccess.

Local Arguments insideFiles : simpl never.

Variable platform : Platform.
Variable fs : FileSystem.
Variables rootWorkspaceDir outDir outManifestPath : string.

Lemma manifestWrites_app cs1 cs2 :
  manifestWrites (cs1 ++ cs2) = manifestWrites cs1 ++ manifestWrites cs2.
Proof. apply omap_app. Qed.

Lemma copyCalls_fileCalls files :
  copyCalls (flat_map (fileCalls platform fs rootWorkspaceDir outDir outManifestPath) files)
  = map (copyOf platform fs rootWorkspaceDir outDir) files.
Proof. induction files as [|f files IH]; [done|]. simpl. by rewrite IH. Qed.

Lemma manifestWrites_fileCalls files :
  manifestWrites
    (flat_map (fileCalls platform fs rootWorkspaceDir outDir outManifestPath) files)
  = map (manifestLine platform fs rootWorkspaceDir) files.
Proof. induction files as [|f files IH]; [done|]. simpl. by rewrite IH. Qed.

(** The calls of a capture whose files are all inside the workspace. *)
Lemma captureCalls_inside files :
  Forall (fun f => startsWith f ".." = false) files ->
  captureCalls platform fs rootWorkspaceDir outDir outManifestPath files =
  Rimraf outDir :: Rimraf outManifestPath ::
  match files with
  | [] => []
  | _ =>
      MkdirSync outDir ::
      flat_map (fileCalls platform fs rootWorkspaceDir outDir outManifestPath) files
      ++ [ManifestClose outManifestPath]
  end.
Proof.
  intros Hin. apply insideFiles_all in Hin. unfold captureCalls.
  rewrite Hin, bool_decide_eq_true_2 by done. done.
Qed.

End CaptureSuccess.

(** X14. The calls [cacheOutputs] makes on the file system are the calls
    it makes when none raises, cut after the first call that raises: the
    two deletions; then, when there are output files, the creation of the
    output directory, the four calls of each file (directory, stat, copy,
    manifest line) up to the first file that begins with [..], and the
    closing of the manifest when there is no such file.  It returns
    normally exactly when none of these calls raises and no file begins
    with [..].  It assigns [task.outputFiles] once the two deletions are
    done, and not before. *)
Theorem X14_capture_calls platform config fs outputFiles s :
  let files := default [] outputFiles in
  let planned :=
    captureCalls platform fs (Workspace.dir (root (project config)))
      (outDirOf config s) (outManifestPathOf config s) files in
  let out := cacheOutputs platform config fs outputFiles s in
  calls (fst out) = calls s ++ attempted fs planned /\
  (snd out = Ok tt <->
   Forall (fun f => startsWith f ".." = false) files /\
   Forall (fun c => raises fs c = false) planned) /\
  task (fst out) =
    (if raises fs (Rimraf (outDirOf config s))
        || raises fs (Rimraf (outManifestPathOf config s))
     then task s else ScheduledTask.setOutputFiles files (task s)).
Proof. apply cacheOutputs_calls. Qed.

(** X15. When [cacheOutputs] returns normally, no output file begins with
    [..]; the task's [outputFiles] is the list of output files (empty for
    a missing list); each output file was copied once, in the order of the
    list, from the root workspace directory to the output directory with
    the modification time [statSync] reported; the manifest received one
    line per file, in the same order, made of the file, a tab, that time
    and a newline; and, when there are output files, the last call closed
    the manifest. *)
Theorem X15_capture_on_success platform config fs outputFiles s :
  let files := default [] outputFiles in
  let rootWorkspaceDir := Workspace.dir (root (project config)) in
  let out := cacheOutputs platform config fs outputFiles s in
  snd out = Ok tt ->
  Forall (fun f => startsWith f ".." = false) files /\
  ScheduledTask.outputFiles (task (fst out)) = files /\
  copyCalls (calls (fst out)) =
    copyCalls (calls s)
    ++ map (copyOf platform fs rootWorkspaceDir (outDirOf config s)) files /\
  manifestWrites (calls (fst out)) =
    manifestWrites (calls s) ++ map (manifestLine platform fs rootWorkspaceDir) files /\
  (files <> [] ->
   last (calls (fst out)) = Some (ManifestClose (outManifestPathOf config s))).
Proof.
  intros files rootWorkspaceDir out Hok.
  pose proof (cacheOutputs_calls platform config fs outputFiles s) as H.
  cbv zeta in H. fold files rootWorkspaceDir out in H.
  destruct H as (Hcalls & Hiff & Htask).
  apply Hiff in Hok as [Hin Hquiet]. split; [done|].
  rewrite (attempted_quiet _ _ Hquiet) in Hcalls.
  rewrite (captureCalls_inside _ _ _ _ _ _ Hin) in Hcalls, Hquiet.
  apply Forall_cons in Hquiet as [R1 Hquiet]. apply Forall_cons in Hquiet as [R2 _].
  rewrite R1, R2 in Htask. simpl in Htask.
  split; [by rewrite Htask|].
  rewrite Hcalls. clear Hcalls Htask.
  rewrite copyCalls_app, manifestWrites_app.
  destruct files as [|f0 files0] eqn:Hfiles.
  - repeat split; done.
  - rewrite <- Hfiles. clear Hfiles.
    change (copyCalls (Rimraf ?a :: Rimraf ?b :: MkdirSync ?c :: ?l)) with (copyCalls l).
    change (manifestWrites (Rimraf ?a :: Rimraf ?b :: MkdirSync ?c :: ?l))
      with (manifestWrites l).
    rewrite copyCalls_app, manifestWrites_app, copyCalls_fileCalls,
      manifestWrites_fileCalls.
    simpl. rewrite !app_nil_r. split; [done|]. split; [done|].
    intros _. rewrite !app_comm_cons, app_assoc. apply last_snoc.
Qed.

Lemma X15_witness :
  let files := ["packages/core/dist/a.js"; "packages/core/dist/b.js"] in
  let out := cacheOutputs Sample.platform Sample.config Sample.quietFs (Some files)
               Sample.coreBuild in
  snd out = Ok tt /\
  copyCalls (calls (fst out)) =
    map (copyOf Sample.platform Sample.quietFs "/repo"
           "/repo/packages/core/.lazy/build/output") files /\
  manifestWrites (calls (fst out)) =
    [("packages/core/dist/a.js" ++ tab ++ "1700000000000" ++ nl)%string;
     ("packages/core/dist/b.js" ++ tab ++ "1700000000000" ++ nl)%string].
Proof.
  intros files out.
  assert (snd out = Ok tt) as Hok by (vm_compute; reflexivity).
  split; [exact Hok|]. split.
  - exact (proj1 (proj2 (proj2
             (X15_capture_on_success Sample.platform Sample.config Sample.quietFs
                (Some files) Sample.coreBuild Hok)))).
  - vm_compute. reflexivity.
Defined.

(** X16. During a run on a graph the constructor returned, no lookup of
    the scheduler raises: at every state of the execution [tick] takes a
    decision, [isTaskReady] answers for every key of the sorted key list,
    and [getTaskStats] returns. *)
Theorem X16_scheduler_lookups_do_not_raise
    platform config fuel requestedTasks max g c :
  lookupByDirSound config ->
  TaskGraph_new platform config fuel requestedTasks = Ok g ->
  reachable max g c ->
  (exists decision, tickDecision max (graph c) = Ok decision) /\
  (forall key, key ∈ sortedTaskKeys g -> exists b, isTaskReady (graph c) key = Ok b) /\
  (exists stats, getTaskStats (graph c) = Ok stats).
Proof.
  intros HbyDir Hnew Hr.
  destruct (TaskGraph_new_shape _ _ _ _ _ HbyDir Hnew) as (_ & Hsame & Hdang & _).
  pose proof (sameKeySet_nodesResolve g Hsame Hdang) as Hn.
  pose proof (reachable_nodesResolve _ _ _ Hn Hr) as Hnc.
  split; [by apply tickDecision_total|]. split.
  - intros key Hkey. apply isTaskReady_total; [done|].
    by rewrite (reachable_sortedTaskKeys _ _ _ Hr).
  - apply getTaskStats_total. apply Hnc.
Qed.

Lemma X16_witness :
  lookupByDirSound Sample.config /\
  TaskGraph_new Sample.platform Sample.config 10 [Sample.request "build" []]
    = Ok Sample.buildGraph /\
  reachable 1 Sample.buildGraph Sample.buildRun2 /\
  (exists decision, tickDecision 1 (graph Sample.buildRun2) = Ok decision).
Proof.
  assert (lookupByDirSound Sample.config) as H1 by apply Sample_lookupByDirSound.
  assert (TaskGraph_new Sample.platform Sample.config 10 [Sample.request "build" []]
          = Ok Sample.buildGraph) as H2 by (vm_compute; reflexivity).
  split; [exact H1|]. split; [exact H2|]. split; [exact Sample_buildRun2_reachable|].
  exact (proj1 (X16_scheduler_lookups_do_not_raise _ _ _ _ 1 _ _ H1 H2
                  Sample_buildRun2_reachable)).
Defined.

(** X17. The first [tick] of [runAllTasks], on a topologically sorted
    graph of pending tasks: with no task, the promise is resolved at once;
    with at least one task, it is not, and the tick starts at least one
    task, each of them ready. *)
Theorem X17_first_tick env g :
  freshGraph g -> nodesResolve g -> dependenciesFirst g ->
  let c := runAllTasks (maxConcurrentTasks env) g in
  (sortedTaskKeys g = [] -> resolved c = true /\ starting c = []) /\
  (sortedTaskKeys g <> [] ->
   resolved c = false /\ starting c <> [] /\
   forall k, k ∈ starting c -> isTaskReady g k = Ok true).
Proof.
  intros Hf Hn Htopo c. subst c. unfold runAllTasks, invokeTick.
  destruct (tickDecision_total (maxConcurrentTasks env) g Hn) as [d Hd]. rewrite Hd.
  destruct (tickDecision_cases _ _ _ Hd) as (running & ready & Hrun & Hready & Hcase).
  assert (running = []) as ->.
  { destruct running as [|k running]; [done|].
    assert (k ∈ k :: running) as Hk by left.
    apply (allRunningTaskKeys_elem_of _ _ k Hrun) in Hk as [_ Hk].
    apply statusOf_Some in Hk as (t & Ht & Hst).
    rewrite (proj2 Hf k t Ht) in Hst. discriminate. }
  pose proof (maxConcurrentTasks_pos env) as Hmax.
  split.
  - intros Hnil.
    assert (ready = []) as ->.
    { unfold allReadyTaskKeys in Hready. rewrite Hnil in Hready. simpl in Hready.
      by injection Hready as <-. }
    destruct d as [| |ks]; simpl; [done| |].
    + destruct Hcase as [[?|?] _]; [done|lia].
    + destruct Hcase as (Hne & [rest Hpre] & _). by destruct ks.
  - intros Hne.
    destruct d as [| |ks]; simpl.
    + destruct (sortedTaskKeys g) as [|k0 l] eqn:Hsorted; [done|].
      apply Resolve_nothing_ready in Hd as [_ Hnone]. rewrite Hsorted in Hnone.
      assert (k0 ∈ k0 :: l) as Hk0 by left.
      pose proof (filterR_nil _ _ k0 Hnone Hk0) as Hfalse.
      apply isTaskReady_false in Hfalse as (s & Hs & [Hnp|(d & sd & Hdep & _)]).
      * apply statusOf_Some in Hs as (t & Ht & Hst).
        rewrite (proj2 Hf k0 t Ht) in Hst. by subst s.
      * destruct (dependenciesFirst_depsOf g Htopo 0 k0 d) as (j & Hj & _);
          [by rewrite Hsorted|done|lia].
    + destruct Hcase as [[?|?] _]; [done|lia].
    + destruct Hcase as (Hks & _). split; [done|]. split; [done|].
      intros k Hk. by destruct (Start_elem_of _ _ _ k Hd Hk).
Qed.

Lemma X17_witness :
  freshGraph Sample.buildGraph /\ nodesResolve Sample.buildGraph /\
  dependenciesFirst Sample.buildGraph /\
  (sortedTaskKeys Sample.buildGraph <> [] ->
   resolved (runAllTasks (maxConcurrentTasks Sample.testEnv) Sample.buildGraph) = false /\
   starting (runAllTasks (maxConcurrentTasks Sample.testEnv) Sample.buildGraph) <> [] /\
   forall k,
     k ∈ starting (runAllTasks (maxConcurrentTasks Sample.testEnv) Sample.buildGraph) ->
     isTaskReady Sample.buildGraph k = Ok true).
Proof.
  assert (nodesResolve Sample.buildGraph) as Hn.
  { apply sameKeySet_nodesResolve; apply Sample_buildGraph_shape. }
  assert (dependenciesFirst Sample.buildGraph) as Ht by apply Sample_buildGraph_shape.
  split; [exact Sample_buildGraph_fresh|]. split; [exact Hn|]. split; [exact Ht|].
  exact (proj2 (X17_first_tick Sample.testEnv Sample.buildGraph
                  Sample_buildGraph_fresh Hn Ht)).
Defined.

(** X18. From every state of an execution of [runAllTasks] on a graph
    whose keys all have nodes, the execution can be continued until the
    promise is resolved, in no more steps than there are status changes
    left (two for a pending task, one for a running task). *)
Theorem X18_run_can_be_completed env g c :
  freshGraph g -> nodesResolve g -> reachable (maxConcurrentTasks env) g c ->
  exists n c',
    nsteps (step (maxConcurrentTasks env)) n c c' /\ resolved c' = true /\
    n <= workLeft (graph c).
Proof.
  intros Hf Hn. pose proof (maxConcurrentTasks_pos env) as Hmax.
  remember (workLeft (graph c)) as w eqn:Hw. revert c Hw.
  induction (lt_wf w) as [w _ IH]. intros c Hw Hr.
  destruct (resolved c) eqn:Hres.
  - exists 0, c. split; [constructor|]. split; [done|lia].
  - destruct (unresolved_can_step _ g c Hmax Hf Hn Hr Hres) as [c1 Hstep].
    pose proof (step_workLeft _ _ _ (reachable_inv _ _ _ Hf Hr) Hstep) as Hlt.
    destruct (IH (workLeft (graph c1))) with (c := c1) as (n & c' & Hsteps & Hdone & Hle);
      [lia|done|by eapply reachable_step|].
    exists (S n), c'. split; [by eapply nsteps_l|]. split; [done|lia].
Qed.

Lemma X18_witness :
  freshGraph Sample.buildGraph /\ nodesResolve Sample.buildGraph /\
  reachable (maxConcurrentTasks Sample.testEnv) Sample.buildGraph Sample.buildRun1 /\
  exists n c',
    nsteps (step (maxConcurrentTasks Sample.testEnv)) n Sample.buildRun1 c' /\
    resolved c' = true /\ n <= workLeft (graph Sample.buildRun1).
Proof.
  assert (nodesResolve Sample.buildGraph) as Hn.
  { apply sameKeySet_nodesResolve; apply Sample_buildGraph_shape. }
  split; [exact Sample_buildGraph_fresh|]. split; [exact Hn|].
  split; [exact Sample_buildRun1_reachable|].
  exact (X18_run_can_be_completed Sample.testEnv Sample.buildGraph Sample.buildRun1
           Sample_buildGraph_fresh Hn Sample_buildRun1_reachable).
Defined.

Lemma filterR_app {X : Type} (f : X -> Result bool) (l1 l2 r : list X) :
  filterR f (l1 ++ l2) = Ok r ->
  exists r1 r2, filterR f l1 = Ok r1 /\ filterR f l2 = Ok r2 /\ r = r1 ++ r2.
Proof.
  revert r. induction l1 as [|x l1 IH]; intros r H; simpl in H.
  - exists [], r. by repeat split.
  - apply bind_Ok in H as (b & Hb & H). apply bind_Ok in H as (ys & Hys & H).
    injection H as <-. destruct (IH ys Hys) as (r1 & r2 & H1 & H2 & ->).
    exists (if b then x :: r1 else r1), r2. simpl. rewrite Hb, H1. simpl.
    split; [done|]. split; [done|]. by destruct b.
Qed.

(** A non-parallel task is kept when no task before it in the list is a
    non-parallel task of its script, and the script was not seen. *)
Lemma filterUnparallelizable_first g pre k post seen kept t :
  filterUnparallelizable g (pre ++ k :: post) seen = Ok kept ->
  allTasks g !! k = Some t ->
  TaskConfig.parallel (ScheduledTask.taskConfig t) = false ->
  ScheduledTask.scriptName t ∉ seen ->
  (forall k', k' ∈ pre -> isUnparallelizable g (ScheduledTask.scriptName t) k' = false) ->
  k ∈ kept.
Proof.
  intros H Ht Hpar. revert seen kept H.
  induction pre as [|x pre IH]; intros seen kept H Hseen Hpre; simpl in H.
  - unfold getTask in H. rewrite Ht in H. simpl in H. rewrite Hpar in H.
    rewrite bool_decide_eq_false_2 in H by done.
    apply bind_Ok in H as (kept' & _ & H). injection H as <-. by left.
  - apply bind_Ok in H as (tx & Htx & H). unfold getTask in Htx.
    destruct (allTasks g !! x) as [tx'|] eqn:Hx; simpl in Htx; [|discriminate].
    injection Htx as ->.
    assert (forall k', k' ∈ pre ->
              isUnparallelizable g (ScheduledTask.scriptName t) k' = false) as Hpre'.
    { intros k' Hk'. apply Hpre. by right. }
    destruct (TaskConfig.parallel (ScheduledTask.taskConfig tx)) eqn:Hpx.
    + apply bind_Ok in H as (kept' & Hk' & H). injection H as <-.
      right. by eapply IH.
    + destruct (bool_decide_reflect (ScheduledTask.scriptName tx ∈ seen)) as [Hin|Hnin].
      * by eapply IH.
      * apply bind_Ok in H as (kept' & Hk' & H). injection H as <-.
        right. eapply IH; [exact Hk'| |done].
        intros Hs. apply elem_of_union in Hs as [Hs|Hs]; [|done].
        apply elem_of_singleton in Hs.
        specialize (Hpre x (list_elem_of_here _ _)).
        unfold isUnparallelizable in Hpre. rewrite Hx, Hpx in Hpre. simpl in Hpre.
        apply String.eqb_neq in Hpre. congruence.
Qed.

(** X19. Which non-parallel task [allReadyTaskKeys] offers: a ready
    non-parallel task is listed when no task before it in the sorted key
    list is a ready non-parallel task of the same script name.  Tasks that
    are already running do not count: the filter looks at ready tasks
    only, so a non-parallel task can be offered while another task of its
    script is running. *)
Theorem X19_first_ready_non_parallel_task_is_listed g ready pre k post t :
  allReadyTaskKeys g = Ok ready ->
  sortedTaskKeys g = pre ++ k :: post ->
  isTaskReady g k = Ok true ->
  allTasks g !! k = Some t ->
  TaskConfig.parallel (ScheduledTask.taskConfig t) = false ->
  (forall k', k' ∈ pre -> isTaskReady g k' = Ok true ->
     isUnparallelizable g (ScheduledTask.scriptName t) k' = false) ->
  k ∈ ready.
Proof.
  unfold allReadyTaskKeys. intros H Hsorted Hready Ht Hpar Hpre.
  apply bind_Ok in H as (cands & Hc & H). apply bind_Ok in H as (kept & Hk & H).
  injection H as <-. rewrite (js_sort_Permutation kept).
  rewrite Hsorted in Hc. apply filterR_app in Hc as (r1 & r2 & H1 & H2 & ->).
  simpl in H2. rewrite Hready in H2. simpl in H2.
  apply bind_Ok in H2 as (r2' & _ & H2). injection H2 as <-.
  eapply filterUnparallelizable_first; [exact Hk|exact Ht|exact Hpar| |].
  - apply not_elem_of_empty.
  - intros k' Hk'. apply (filterR_elem_of _ _ _ k' H1) in Hk' as [Hin Hr]. by apply Hpre.
Qed.

Lemma X19_witness :
  let g := setTaskStatus "test::/repo/packages/core" Running Sample.testGraphBuilt in
  statusOf g "test::/repo/packages/core" = Some Running /\
  isUnparallelizable g "test" "test::/repo/packages/core" = true /\
  isUnparallelizable g "test" "test::/repo/packages/ui" = true /\
  allReadyTaskKeys g = Ok ["test::/repo/packages/ui"] /\
  "test::/repo/packages/ui" ∈ ["test::/repo/packages/ui"].
Proof.
  intros g.
  assert (allReadyTaskKeys g = Ok ["test::/repo/packages/ui"]) as H1
    by (vm_compute; reflexivity).
  assert (sortedTaskKeys g =
          ["build::/repo/packages/utils"; "build::/repo/packages/core";
           "test::/repo/packages/core"; "build::/repo/packages/ui"]
          ++ "test::/repo/packages/ui" :: ["test::/repo/packages/utils"]) as H2
    by (vm_compute; reflexivity).
  assert (isTaskReady g "test::/repo/packages/ui" = Ok true) as H3
    by (vm_compute; reflexivity).
  destruct (allTasks g !! "test::/repo/packages/ui") as [t|] eqn:H4;
    [|vm_compute in H4; discriminate H4].
  assert (TaskConfig.parallel (ScheduledTask.taskConfig t) = false) as H5.
  { vm_compute in H4. injection H4 as <-. reflexivity. }
  assert (forall k',
            k' ∈ ["build::/repo/packages/utils"; "build::/repo/packages/core";
                  "test::/repo/packages/core"; "build::/repo/packages/ui"] ->
            isTaskReady g k' = Ok true ->
            isUnparallelizable g (ScheduledTask.scriptName t) k' = false) as H6.
  { intros k' Hk' Hr.
    repeat (apply elem_of_cons in Hk' as [->|Hk']; [vm_compute in Hr; discriminate Hr|]).
    by apply elem_of_nil in Hk'. }
  split; [vm_compute; reflexivity|]. split; [vm_compute; reflexivity|].
  split; [vm_compute; reflexivity|]. split; [exact H1|].
  exact (X19_first_ready_non_parallel_task_is_listed g _ _ _ _ t H1 H2 H3 H4 H5 H6).
Defined.
